(** * Volume-anomaly monitor: a shallow embedding of [StockVolumeMonitor]

    The development follows the two monitor files of the repository,
    [src/alert.py] and [src/haha.py].  Both declare the same class
    [StockVolumeMonitor]; the methods that are textually identical in the
    two files are embedded once, the ones that differ are embedded in the
    modules [Alert] and [Haha].

    Conventions of the embedding:
    - an aware [datetime] is the instant it denotes, a [Z] counting
      microseconds since the epoch; comparing two aware datetimes compares
      these instants, and subtracting a [timedelta] subtracts microseconds;
    - [datetime.now(self.tz)] reads the clock: every method that calls it
      takes the instant read as the explicit argument [now];
    - traded volumes and the alert threshold are Python floats; they are
      idealised as exact rationals [Q] (no rounding, no NaN);
    - [self.volume_history] is a [defaultdict(list)] keyed by symbol: a
      [gmap string] whose missing keys read as the empty list;
    - the Telegram [Bot] is an external collaborator: an oracle that, given
      the calls made so far, either returns or raises. *)

From Stdlib Require Import ZArith QArith Lia.
From stdpp Require Import base option list gmap strings.

Local Open Scope Z_scope.

(** ** Time *)

Definition timestamp := Z.

Definition microseconds_per_second : Z := 1000000.

(** [timedelta(minutes=m)] and [timedelta(hours=h)], in microseconds. *)
Definition timedelta_minutes (m : Z) : Z := m * 60 * microseconds_per_second.
Definition timedelta_hours (h : Z) : Z := h * 3600 * microseconds_per_second.

(** [datetime.hour] of the instant [now] seen in a zone whose offset from
    UTC is [utcoffset] seconds. *)
Definition hour (utcoffset : Z) (now : timestamp) : Z :=
  ((now `div` microseconds_per_second + utcoffset) `div` 3600) `mod` 24.

(** An instant given as seconds since midnight UTC of day 0, for examples. *)
Definition wall_clock (utcoffset h m s : Z) : timestamp :=
  (h * 3600 + m * 60 + s - utcoffset) * microseconds_per_second.

(** ** The monitor object *)

Definition sample : Type := timestamp * Q.

(** The attributes of [StockVolumeMonitor] that the monitoring path reads or
    writes ([__init__], lines 24-47 of alert.py). *)
Record monitor := Monitor {
  tz : Z;                                   (* UTC offset of self.tz, seconds *)
  monitored_groups : list Z;
  volume_history : gmap string (list sample);
  trading_start : Z;
  trading_end : Z;
  volume_threshold : Q;
  monitoring_interval : Z;
  avg_window_minutes : Z
}.

(** [pytz.timezone('Asia/Jakarta')]: WIB, UTC+7 with no daylight saving. *)
Definition asia_jakarta : Z := 7 * 3600.

(** The state [__init__] builds. *)
Definition init : monitor :=
  {| tz := asia_jakarta;
     monitored_groups := [];
     volume_history := ∅;
     trading_start := 9;
     trading_end := 16;
     volume_threshold := 2.0%Q;
     monitoring_interval := 60;
     avg_window_minutes := 120 |}.

Definition set_volume_history (self : monitor)
    (h : gmap string (list sample)) : monitor :=
  {| tz := self.(tz);
     monitored_groups := self.(monitored_groups);
     volume_history := h;
     trading_start := self.(trading_start);
     trading_end := self.(trading_end);
     volume_threshold := self.(volume_threshold);
     monitoring_interval := self.(monitoring_interval);
     avg_window_minutes := self.(avg_window_minutes) |}.

Definition set_monitored_groups (self : monitor) (g : list Z) : monitor :=
  {| tz := self.(tz);
     monitored_groups := g;
     volume_history := self.(volume_history);
     trading_start := self.(trading_start);
     trading_end := self.(trading_end);
     volume_threshold := self.(volume_threshold);
     monitoring_interval := self.(monitoring_interval);
     avg_window_minutes := self.(avg_window_minutes) |}.

(** ** Session gate: [is_trading_hours] (alert.py 548-551, haha.py 442-445) *)

Definition is_trading_hours (self : monitor) (now : timestamp) : bool :=
  let now_hour := hour self.(tz) now in
  (self.(trading_start) <=? now_hour) && (now_hour <? self.(trading_end)).

(** ** History store *)

(** Reading [self.volume_history[symbol]] on the [defaultdict]. *)
Definition history_of (self : monitor) (symbol : string) : list sample :=
  default [] (self.(volume_history) !! symbol).

(** The comprehension [[... for ts, vol in history if ts >= cutoff_time]]
    keeps the entries at or after the cutoff, in order. *)
Definition since (cutoff_time : timestamp) (history : list sample)
    : list sample :=
  filter (λ entry : sample, cutoff_time ≤ entry.1) history.

(** [np.mean] of a non-empty list: the sum divided by the length. *)
Definition Qsum (l : list Q) : Q := foldr Qplus 0%Q l.

Definition np_mean (l : list Q) : Q :=
  (Qsum l / inject_Z (Z.of_nat (length l)))%Q.

(** [recent_volumes] of [calculate_average_volume]. *)
Definition recent_volumes (self : monitor) (symbol : string)
    (now : timestamp) : list Q :=
  let cutoff_time := now - timedelta_minutes self.(avg_window_minutes) in
  (since cutoff_time (history_of self symbol)).*2.

(** [calculate_average_volume] (alert.py 580-599, haha.py 474-493). *)
Definition calculate_average_volume (self : monitor) (symbol : string)
    (now : timestamp) : Q :=
  match self.(volume_history) !! symbol with
  | None => 0%Q
  | Some history =>
      if (length history <? 2)%nat then 0%Q
      else
        let cutoff_time :=
          now - timedelta_minutes self.(avg_window_minutes) in
        let recent_volumes := (since cutoff_time history).*2 in
        match recent_volumes with
        | [] => 0%Q
        | _ => np_mean recent_volumes
        end
  end.

(** The store step of [monitor_stocks] (alert.py 663-671, haha.py 553-561):
    append [(current_time, volume)], then keep the last four hours. *)
Definition store_volume (self : monitor) (symbol : string)
    (current_time : timestamp) (volume : Q) : monitor :=
  let appended := history_of self symbol ++ [(current_time, volume)] in
  let cutoff_time := current_time - timedelta_hours 4 in
  set_volume_history self
    (<[symbol := since cutoff_time appended]> self.(volume_history)).

(** ** The Telegram bot, the log, and the effects of the dispatcher *)

(** An [Exception] raised by a call of the bot, carried as its text. *)
Definition exn : Type := string.

(** What the dispatcher does to the outside world, in the order it does it:
    a call of [bot.send_message] or [bot.pin_chat_message] with what the call
    gave back, or a line written by [logger.error]. *)
Inductive event :=
| SendMessage (chat_id : Z) (text : string) (outcome : exn + Z)
| PinChatMessage (chat_id : Z) (message_id : Z) (outcome : exn + unit)
| LogError (prefix : string) (group_id : Z) (e : exn).

(** The bot answers a call from everything that happened before it: a sent
    message comes back with its [message_id], or the call raises. *)
Record Bot := {
  send_message_outcome : list event → Z → string → exn + Z;
  pin_chat_message_outcome : list event → Z → Z → exn + unit
}.

(** A computation reads the events so far, extends them, and either returns
    a value or raises. *)
Definition io (A : Type) : Type := list event → list event * (exn + A).

#[export] Instance io_ret : MRet io := λ A (a : A) t, (t, inr a).

#[export] Instance io_bind : MBind io := λ A B (k : A → io B) (m : io A) t,
  match m t with
  | (t', inr a) => k a t'
  | (t', inl e) => (t', inl e)
  end.

(** [try: body except Exception as e: handler e]. *)
Definition try_except {A} (body : io A) (handler : exn → io A) : io A :=
  λ t, match body t with
       | (t', inl e) => handler e t'
       | done => done
       end.

(** [for x in xs: body x]. *)
Fixpoint for_each {A} (xs : list A) (body : A → io unit) : io unit :=
  match xs with
  | [] => mret tt
  | x :: rest => body x ;; for_each rest body
  end.

Definition send_message (bot : Bot) (chat_id : Z) (text : string) : io Z :=
  λ t, let outcome := send_message_outcome bot t chat_id text in
       (t ++ [SendMessage chat_id text outcome], outcome).

Definition pin_chat_message (bot : Bot) (chat_id message_id : Z) : io unit :=
  λ t, let outcome := pin_chat_message_outcome bot t chat_id message_id in
       (t ++ [PinChatMessage chat_id message_id outcome], outcome).

Definition logger_error (prefix : string) (group_id : Z) (e : exn) : io unit :=
  λ t, (t ++ [LogError prefix group_id e], inr tt).

(** [send_volume_alert] (alert.py 615-642, haha.py 505-532).  [message] is
    the text the f-string of lines 621-631 builds before the loop; the
    method has no [return], so it gives back [None]. *)
Definition send_volume_alert (bot : Bot) (self : monitor) (message : string)
    : io unit :=
  for_each self.(monitored_groups) (λ group_id,
    try_except
      (send_message bot group_id message ;; mret tt)
      (λ e, logger_error "Error sending alert to" group_id e)).

(** ** Anomaly detector, and the dispatcher that only alert.py has *)

Definition Qlt_bool (x y : Q) : bool := negb (Qle_bool y x).

Module Alert.

(** [should_alert] of alert.py (lines 601-613). *)
Definition should_alert (self : monitor) (symbol : string)
    (now : timestamp) (current_volume : Q) : bool :=
  if Qlt_bool current_volume 90000 then false
  else
    let avg_volume := calculate_average_volume self symbol now in
    if Qeq_bool avg_volume 0 then false
    else
      let volume_ratio := (current_volume / avg_volume)%Q in
      Qle_bool self.(volume_threshold) volume_ratio.

(** [broadcast_message] (alert.py 254-267); haha.py has no such method. *)
Definition broadcast_message (bot : Bot) (self : monitor) (text : string)
    : io unit :=
  for_each self.(monitored_groups) (λ group_id,
    try_except
      (message_id ← send_message bot group_id text;
       if group_id <? 0 then pin_chat_message bot group_id message_id
       else mret tt)
      (λ e, logger_error "Gagal kirim ke" group_id e)).

End Alert.

Module Haha.

(** [should_alert] of haha.py (lines 495-503). *)
Definition should_alert (self : monitor) (symbol : string)
    (now : timestamp) (current_volume : Q) : bool :=
  let avg_volume := calculate_average_volume self symbol now in
  if Qeq_bool avg_volume 0 then false
  else
    let volume_ratio := (current_volume / avg_volume)%Q in
    Qle_bool self.(volume_threshold) volume_ratio.

End Haha.

(** Reading a run: the events it added, and what the caller got. *)
Definition sent_to (t : list event) : list Z :=
  omap (λ ev, match ev with SendMessage g _ _ => Some g | _ => None end) t.

Definition delivered (t : list event) : list (Z * string) :=
  omap (λ ev, match ev with
              | SendMessage g text (inr _) => Some (g, text)
              | _ => None
              end) t.

Definition failed (t : list event) : list (Z * exn) :=
  omap (λ ev, match ev with
              | SendMessage g _ (inl e) => Some (g, e)
              | PinChatMessage g _ (inl e) => Some (g, e)
              | _ => None
              end) t.

Definition logged (t : list event) : list (Z * exn) :=
  omap (λ ev, match ev with LogError _ g e => Some (g, e) | _ => None end) t.

Definition pins (t : list event) : list (Z * Z) :=
  omap (λ ev, match ev with
              | PinChatMessage g message_id _ => Some (g, message_id)
              | _ => None
              end) t.

(** What a delivery report would say: each destination tried, with whether
    the message reached it. *)
Definition outcomes (t : list event) : list (Z * bool) :=
  omap (λ ev, match ev with
              | SendMessage g _ (inr _) => Some (g, true)
              | SendMessage g _ (inl _) => Some (g, false)
              | _ => None
              end) t.

(** The pins a run owes: one per message delivered to a negative chat id. *)
Definition pins_due (t : list event) : list (Z * Z) :=
  omap (λ ev, match ev with
              | SendMessage g _ (inr message_id) =>
                  if g <? 0 then Some (g, message_id) else None
              | _ => None
              end) t.

(** ** Worked states used by the examples *)

(** The state after [__init__] with the history of symbol [X] set. *)
Definition tracking (history : list sample) : monitor :=
  set_volume_history init {[ "X"%string := history ]}.

(** Noon in Jakarta, and 30 and 60 minutes before it. *)
Definition noon : timestamp := wall_clock asia_jakarta 12 0 0.
Definition noon_minus (minutes : Z) : timestamp :=
  noon - timedelta_minutes minutes.

(** Two samples of the same volume inside the averaging window. *)
Definition baseline (volume : Q) : monitor :=
  tracking [(noon_minus 60, volume); (noon_minus 30, volume)].

(** The state after [__init__] with the registered chats set. *)
Definition registered (groups : list Z) : monitor :=
  set_monitored_groups init groups.

(** Three destinations: a private chat, a group (negative id), a private
    chat. *)
Definition chat_A : Z := 1001.
Definition chat_B : Z := -2002.
Definition chat_C : Z := 3003.

(** A bot for which every call succeeds; the n-th call returns id n. *)
Definition bot_ok : Bot :=
  {| send_message_outcome := λ t _ _, inr (Z.of_nat (length t));
     pin_chat_message_outcome := λ _ _ _, inr tt |}.

(** A bot that cannot write to [blocked] and succeeds elsewhere. *)
Definition bot_blocked (blocked : Z) : Bot :=
  {| send_message_outcome := λ t chat_id _,
       if chat_id =? blocked then inl "Forbidden"%string
       else inr (Z.of_nat (length t));
     pin_chat_message_outcome := λ _ _ _, inr tt |}.

(** A bot that delivers everywhere but may not pin anywhere. *)
Definition bot_cannot_pin : Bot :=
  {| send_message_outcome := λ t _ _, inr (Z.of_nat (length t));
     pin_chat_message_outcome := λ _ _ _,
       inl "Not enough rights"%string |}.

(** Running a dispatcher from an empty record of events. *)
Definition run {A} (m : io A) : list event * (exn + A) := m [].

(** The three situations in which the store has no baseline to offer: the
    symbol is not a key of [volume_history], its history has fewer than two
    entries, or no entry lies in the averaging window that ends at [now]. *)
Definition no_baseline (self : monitor) (symbol : string) (now : timestamp)
    : Prop :=
  volume_history self !! symbol = None
  ∨ (length (history_of self symbol) < 2)%nat
  ∨ recent_volumes self symbol now = [].

(** * The rest of the monitor: loop, commands, access control *)

(** ** The whole object and one polling cycle *)

(** The dict [get_stock_data] returns for the latest one-minute bar
    (alert.py 567-575, haha.py 461-469). *)
Record quote := Quote {
  data_symbol : string;
  data_price : Q;
  data_volume : Q;
  data_timestamp : timestamp;
  data_high : Q;
  data_low : Q;
  data_open : Q
}.

(** The attributes of [StockVolumeMonitor] beside those of [monitor]:
    the tracked symbols, the latest data per symbol, and the access lists
    (the last three are set by [__init__] of haha.py only). *)
Record StockVolumeMonitor := {
  core : monitor;
  popular_stocks : list string;
  stock_data : gmap string quote;
  admin_ids : gset Z;
  whitelisted_users : gset Z;
  whitelisted_groups : gset Z;
  whitelist_enabled : bool
}.

Definition set_core (self : StockVolumeMonitor) (m : monitor)
    : StockVolumeMonitor :=
  {| core := m;
     popular_stocks := self.(popular_stocks);
     stock_data := self.(stock_data);
     admin_ids := self.(admin_ids);
     whitelisted_users := self.(whitelisted_users);
     whitelisted_groups := self.(whitelisted_groups);
     whitelist_enabled := self.(whitelist_enabled) |}.

Definition set_popular_stocks (self : StockVolumeMonitor)
    (stocks : list string) : StockVolumeMonitor :=
  {| core := self.(core);
     popular_stocks := stocks;
     stock_data := self.(stock_data);
     admin_ids := self.(admin_ids);
     whitelisted_users := self.(whitelisted_users);
     whitelisted_groups := self.(whitelisted_groups);
     whitelist_enabled := self.(whitelist_enabled) |}.

Definition set_stock_data (self : StockVolumeMonitor)
    (d : gmap string quote) : StockVolumeMonitor :=
  {| core := self.(core);
     popular_stocks := self.(popular_stocks);
     stock_data := d;
     admin_ids := self.(admin_ids);
     whitelisted_users := self.(whitelisted_users);
     whitelisted_groups := self.(whitelisted_groups);
     whitelist_enabled := self.(whitelist_enabled) |}.

Definition set_whitelisted_users (self : StockVolumeMonitor)
    (users : gset Z) : StockVolumeMonitor :=
  {| core := self.(core);
     popular_stocks := self.(popular_stocks);
     stock_data := self.(stock_data);
     admin_ids := self.(admin_ids);
     whitelisted_users := users;
     whitelisted_groups := self.(whitelisted_groups);
     whitelist_enabled := self.(whitelist_enabled) |}.

Definition set_whitelisted_groups (self : StockVolumeMonitor)
    (groups : gset Z) : StockVolumeMonitor :=
  {| core := self.(core);
     popular_stocks := self.(popular_stocks);
     stock_data := self.(stock_data);
     admin_ids := self.(admin_ids);
     whitelisted_users := self.(whitelisted_users);
     whitelisted_groups := groups;
     whitelist_enabled := self.(whitelist_enabled) |}.

Definition set_whitelist_enabled (self : StockVolumeMonitor)
    (enabled : bool) : StockVolumeMonitor :=
  {| core := self.(core);
     popular_stocks := self.(popular_stocks);
     stock_data := self.(stock_data);
     admin_ids := self.(admin_ids);
     whitelisted_users := self.(whitelisted_users);
     whitelisted_groups := self.(whitelisted_groups);
     whitelist_enabled := enabled |}.

(** The last row of the frame that [ticker.history] returns: its index and
    the columns [get_stock_data] reads. *)
Record bar := {
  bar_index : timestamp;
  bar_close : Q;
  bar_volume : Q;
  bar_high : Q;
  bar_low : Q;
  bar_open : Q
}.

(** What the calls of yfinance inside the [try] of [get_stock_data] give:
    one of them raises, or the frame is empty, or it has a last row. *)
Inductive yf_answer :=
| YfRaises (e : exn)
| YfEmpty
| YfLatest (latest : bar).

(** What the polling loop does to the outside world, in the order it does
    it: what the dispatcher does (calls of the bot and its lines in the
    log), and the line [get_stock_data] writes with [logger.error] when the
    data source raises.  [logger.info] is not recorded. *)
Inductive activity :=
| Dispatch (ev : event)
| LogDataError (symbol : string) (e : exn).

(** A computation of the loop reads the activities so far, extends them,
    and either returns a value or raises. *)
Definition polling (A : Type) : Type :=
  list activity → list activity * (exn + A).

#[export] Instance polling_ret : MRet polling := λ A (a : A) t, (t, inr a).

#[export] Instance polling_bind : MBind polling :=
  λ A B (k : A → polling B) (m : polling A) t,
  match m t with
  | (t', inr a) => k a t'
  | (t', inl e) => (t', inl e)
  end.

(** The events of the dispatcher among the activities, and the lines of
    [get_stock_data] among them. *)
Definition dispatched (t : list activity) : list event :=
  omap (λ a, match a with Dispatch ev => Some ev | _ => None end) t.

Definition data_errors (t : list activity) : list (string * exn) :=
  omap (λ a, match a with
             | LogDataError symbol e => Some (symbol, e)
             | _ => None
             end) t.

(** A computation of the dispatcher run inside the loop: the bot answers
    from what the dispatcher did before, and what the computation adds is
    added to the activities. *)
Definition dispatch {A} (m : io A) : polling A :=
  λ t, let before := dispatched t in
       match m before with
       | (after, r) => (t ++ (Dispatch <$> drop (length before) after), r)
       end.

(** [get_stock_data] (alert.py 553-578, haha.py 447-472): [None] for an
    empty frame, the dict of the last row otherwise; an exception is caught,
    written to the log with the symbol, and [None] is returned. *)
Definition get_stock_data (symbol : string) (answer : yf_answer)
    : polling (option quote) :=
  match answer with
  | YfRaises e => λ t, (t ++ [LogDataError symbol e], inr None)
  | YfEmpty => mret None
  | YfLatest latest =>
      mret (Some {| data_symbol := symbol;
                    data_price := bar_close latest;
                    data_volume := bar_volume latest;
                    data_timestamp := bar_index latest;
                    data_high := bar_high latest;
                    data_low := bar_low latest;
                    data_open := bar_open latest |})
  end.

(** What the outside world gives one turn of the loop over the symbols:
    the answer of yfinance to [get_stock_data], and the four readings of the
    clock the turn may make (line 663; line 590 reached from 607; line 590
    reached from 675; line 617). *)
Record observation := {
  obs_data : yf_answer;
  obs_current_time : timestamp;
  obs_now_check : timestamp;
  obs_now_ratio : timestamp;
  obs_now_alert : timestamp
}.

Section MonitorLoop.

(** [self.should_alert], which differs between the two files, and the
    f-string of [send_volume_alert] (symbol, data, ratio, clock). *)
Variable should_alert : monitor → string → timestamp → Q → bool.
Variable format_alert : string → quote → Q → timestamp → string.
Variable bot : Bot.

(** One turn of [for symbol in self.popular_stocks] in [monitor_stocks]
    (alert.py 656-685, haha.py 546-575).  [get_stock_data] catches its own
    exceptions and [send_volume_alert] does not raise, so the handler of
    line 684 is never entered. *)
Definition monitor_symbol (symbol : string) (obs : observation)
    (self : StockVolumeMonitor) : polling StockVolumeMonitor :=
  data ← get_stock_data symbol (obs_data obs);
  match data with
  | None => mret self
  | Some data =>
      let stored :=
        store_volume (core self) symbol (obs_current_time obs)
          (data_volume data) in
      (if should_alert stored symbol (obs_now_check obs) (data_volume data)
       then
         let avg_volume :=
           calculate_average_volume stored symbol (obs_now_ratio obs) in
         let volume_ratio := (data_volume data / avg_volume)%Q in
         dispatch
           (send_volume_alert bot stored
              (format_alert symbol data volume_ratio (obs_now_alert obs)))
       else mret tt) ;;
      mret (set_stock_data (set_core self stored)
              (<[symbol := data]> (stock_data self)))
  end.

(** The loop over the symbols; [observe i symbol] is what the world gives
    the turn of the [i]-th symbol. *)
Fixpoint monitor_symbols (observe : nat → string → observation) (i : nat)
    (symbols : list string) (self : StockVolumeMonitor)
    : polling StockVolumeMonitor :=
  match symbols with
  | [] => mret self
  | symbol :: rest =>
      self' ← monitor_symbol symbol (observe i symbol) self;
      monitor_symbols observe (S i) rest self'
  end.

(** One turn of [while True] in [monitor_stocks] (alert.py 646-691, haha.py
    536-581): the new state and the seconds the loop then sleeps. *)
Definition monitor_iteration (now : timestamp)
    (observe : nat → string → observation) (self : StockVolumeMonitor)
    : polling (StockVolumeMonitor * Z) :=
  if negb (is_trading_hours (core self) now) then mret (self, 300)
  else
    self' ← monitor_symbols observe 0 (popular_stocks self) self;
    mret (self', monitoring_interval (core self')).

End MonitorLoop.

(** The lines [get_stock_data] writes during one pass over [symbols], the
    first of which is the [i]-th: one per symbol whose data source raises. *)
Definition data_source_failures (observe : nat → string → observation)
    (i : nat) (symbols : list string) : list (string * exn) :=
  omap id
    (imap (λ (k : nat) (symbol : string),
             match obs_data (observe (i + k)%nat symbol) with
             | YfRaises e => Some (symbol, e)
             | _ => None
             end) symbols).

(** Everything a polling cycle is not meant to touch: the configuration of
    the monitor, the registered chats, the tracked symbols and the access
    lists. *)
Definition settings (self : StockVolumeMonitor) :=
  (tz (core self), monitored_groups (core self), trading_start (core self),
   trading_end (core self), volume_threshold (core self),
   monitoring_interval (core self), avg_window_minutes (core self),
   popular_stocks self, admin_ids self, whitelisted_users self,
   whitelisted_groups self, whitelist_enabled self).

(** ** Strings *)

(** [s.endswith(suffix)]. *)
Definition endswith (s suffix : string) : bool :=
  bool_decide (Stdlib.Strings.String.list_ascii_of_string suffix
               `suffix_of` Stdlib.Strings.String.list_ascii_of_string s).

(** [l.remove(x)] on a list that holds [x]: the first occurrence goes. *)
Fixpoint remove_first {A} `{EqDecision A} (x : A) (l : list A) : list A :=
  match l with
  | [] => []
  | y :: rest => if decide (x = y) then rest else y :: remove_first x rest
  end.

(** ** The whitelist file

    The JSON object kept in [whitelist.json], read and written by haha.py and
    by whitelist.py: the keys it may hold, each absent or of the type the two
    programs write.  Other shapes of JSON are outside the model. *)
Record metadata := {
  created : string;
  last_modified : string;
  version : string
}.

Record whitelist_json := {
  json_users : option (list Z);
  json_groups : option (list Z);
  json_enabled : option bool;
  json_metadata : option metadata
}.

(** ** Commands of the bot (haha.py) *)

(** What a command handler gets from outside: who writes and where
    ([update.effective_user.id], [update.effective_chat.id]), the words after
    the command ([context.args]), the clock if the handler reads it, and
    whether [whitelist.json] can be written at this moment. *)
Record request := {
  effective_user_id : Z;
  effective_chat_id : Z;
  args : list string;
  clock : timestamp;
  disk_ok : bool
}.

(** The text a handler passes to [update.message.reply_text], by kind; the
    values shown in the text are the arguments. *)
Inductive reply :=
| ReplyActivated
| ReplyAlreadyActive
| ReplyAccessDenied
| ReplyAdminOnly
| ReplyUsage (command : string)
| ReplyHelp (is_admin : bool)
| ReplyAdminHelp
| ReplyStatus (is_trading_hours : bool) (stocks groups : nat) (threshold : Q)
| ReplyStockAdded (stock_code : string)
| ReplyStockExists (stock_code : string)
| ReplyStockRemoved (stock_code : string)
| ReplyStockMissing (stock_code : string)
| ReplyNoStocks
| ReplyStockList (stocks : list string)
| ReplyUserAdded (user_id : Z)
| ReplyUserRemoved (user_id : Z)
| ReplyUserMissing (user_id : Z)
| ReplyUserIdNotNumeric
| ReplyGroupAdded (group_id : Z)
| ReplyGroupRemoved (group_id : Z)
| ReplyGroupMissing (group_id : Z)
| ReplyGroupIdNotNumeric
| ReplyWhitelistList (enabled : bool) (admins users groups : nat)
| ReplyWhitelistEnabled
| ReplyWhitelistDisabled
| ReplyWhitelistStatus (enabled : bool) (admins users groups : nat).

(** A handler works on the object and on the content of [whitelist.json]
    ([None] while the file does not exist) and replies once.  Every handler
    changes the object before it replies. *)
Definition disk : Type := option whitelist_json.

Definition handler : Type :=
  StockVolumeMonitor → request → disk → StockVolumeMonitor * disk * reply.

(** [save_whitelist] (haha.py 78-89).  [list(a_set)] lists the members in an
    order Python does not specify; a failed write is caught and leaves the
    file as it was. *)
Definition save_whitelist (self : StockVolumeMonitor) (writable : bool)
    (file : disk) : disk :=
  if writable then
    Some {| json_users := Some (elements (whitelisted_users self));
            json_groups := Some (elements (whitelisted_groups self));
            json_enabled := Some (whitelist_enabled self);
            json_metadata := None |}
  else file.

(** [load_whitelist] (haha.py 66-76). *)
Definition load_whitelist (self : StockVolumeMonitor) (file : disk)
    : StockVolumeMonitor :=
  match file with
  | None => self
  | Some data =>
      let self := set_whitelisted_users self
                    (list_to_set (default [] (json_users data))) in
      let self := set_whitelisted_groups self
                    (list_to_set (default [] (json_groups data))) in
      set_whitelist_enabled self (default true (json_enabled data))
  end.

(** [__init__] of haha.py (lines 25-64). *)
Definition haha_init (admins : list Z) (file : disk) : StockVolumeMonitor :=
  load_whitelist
    {| core := init;
       popular_stocks :=
         ["BBRI.JK"; "BMRI.JK"; "BBCA.JK"; "BBNI.JK"; "TLKM.JK";
          "ASII.JK"; "UNVR.JK"; "ICBP.JK"; "KLBF.JK"; "INDF.JK";
          "GGRM.JK"; "SMGR.JK"; "PGAS.JK"; "PTBA.JK"; "ADRO.JK";
          "ITMG.JK"; "ANTM.JK"; "TKIM.JK"; "MEDC.JK"; "PWON.JK"];
       stock_data := ∅;
       admin_ids := list_to_set admins;
       whitelisted_users := ∅;
       whitelisted_groups := ∅;
       whitelist_enabled := true |}
    file.

(** [admin_only] (haha.py 91-100). *)
Definition admin_only (func : handler) : handler :=
  λ self req file,
    let user_id := effective_user_id req in
    if bool_decide (user_id ∈ admin_ids self) then func self req file
    else (self, file, ReplyAdminOnly).

(** [whitelist_required] (haha.py 102-125). *)
Definition whitelist_required (func : handler) : handler :=
  λ self req file,
    if negb (whitelist_enabled self) then func self req file
    else
      let user_id := effective_user_id req in
      let chat_id := effective_chat_id req in
      if bool_decide (user_id ∈ admin_ids self) then func self req file
      else if bool_decide (user_id ∈ whitelisted_users self)
              || bool_decide (chat_id ∈ whitelisted_groups self)
      then func self req file
      else (self, file, ReplyAccessDenied).

(** [start_command] (haha.py 149-162, alert.py 239-252). *)
Definition start_command : handler :=
  λ self req file,
    let chat_id := effective_chat_id req in
    if bool_decide (chat_id ∈ monitored_groups (core self))
    then (self, file, ReplyAlreadyActive)
    else
      (set_core self
         (set_monitored_groups (core self)
            (monitored_groups (core self) ++ [chat_id])),
       file, ReplyActivated).

(** [help_command] (haha.py 165-194). *)
Definition help_command : handler :=
  λ self req file,
    let user_id := effective_user_id req in
    let is_admin := bool_decide (user_id ∈ admin_ids self) in
    (self, file, ReplyHelp is_admin).

(** [admin_help_command] (haha.py 196-231), which checks the admin itself. *)
Definition admin_help_command : handler :=
  λ self req file,
    let user_id := effective_user_id req in
    if bool_decide (user_id ∈ admin_ids self)
    then (self, file, ReplyAdminHelp)
    else (self, file, ReplyAdminOnly).

(** [status_command] (haha.py 379-393). *)
Definition status_command : handler :=
  λ self req file,
    let now_hour := hour (tz (core self)) (clock req) in
    let is_trading_hours :=
      (trading_start (core self) <=? now_hour)
      && (now_hour <? trading_end (core self)) in
    (self, file,
     ReplyStatus is_trading_hours (length (popular_stocks self))
       (length (monitored_groups (core self)))
       (volume_threshold (core self))).

(** [list_stocks_command] (haha.py 430-440). *)
Definition list_stocks_command : handler :=
  λ self req file,
    match popular_stocks self with
    | [] => (self, file, ReplyNoStocks)
    | stocks => (self, file, ReplyStockList stocks)
    end.

(** [whitelist_list] (haha.py 317-341) and [whitelist_status] (358-376):
    the counts they show; the ten members [whitelist_list] prints are not
    part of the model. *)
Definition whitelist_list : handler :=
  λ self req file,
    (self, file,
     ReplyWhitelistList (whitelist_enabled self) (size (admin_ids self))
       (size (whitelisted_users self)) (size (whitelisted_groups self))).

Definition whitelist_status : handler :=
  λ self req file,
    (self, file,
     ReplyWhitelistStatus (whitelist_enabled self) (size (admin_ids self))
       (size (whitelisted_users self)) (size (whitelisted_groups self))).

(** [whitelist_enable] and [whitelist_disable] (haha.py 344-355). *)
Definition whitelist_enable : handler :=
  λ self req file,
    let self := set_whitelist_enabled self true in
    (self, save_whitelist self (disk_ok req) file, ReplyWhitelistEnabled).

Definition whitelist_disable : handler :=
  λ self req file,
    let self := set_whitelist_enabled self false in
    (self, save_whitelist self (disk_ok req) file, ReplyWhitelistDisabled).

Section Commands.

(** [str.upper] and [int] applied to a word of the command line ([None]
    where [int] raises [ValueError]). *)
Variable upper : string → string.
Variable int : string → option Z.

(** The code [add_stock_command] and [remove_stock_command] make of the
    first word: upper case, with [.JK] appended unless it ends with it. *)
Definition stock_code_of (word : string) : string :=
  let stock_code := upper word in
  if negb (endswith stock_code ".JK") then stock_code +:+ ".JK"
  else stock_code.

(** [add_stock_command] (haha.py 396-410, alert.py 502-516). *)
Definition add_stock_command : handler :=
  λ self req file,
    match args req with
    | [] => (self, file, ReplyUsage "add_stock")
    | word :: _ =>
        let stock_code := stock_code_of word in
        if negb (bool_decide (stock_code ∈ popular_stocks self))
        then (set_popular_stocks self (popular_stocks self ++ [stock_code]),
              file, ReplyStockAdded stock_code)
        else (self, file, ReplyStockExists stock_code)
    end.

(** [remove_stock_command] (haha.py 413-427, alert.py 519-533). *)
Definition remove_stock_command : handler :=
  λ self req file,
    match args req with
    | [] => (self, file, ReplyUsage "remove_stock")
    | word :: _ =>
        let stock_code := stock_code_of word in
        if bool_decide (stock_code ∈ popular_stocks self)
        then (set_popular_stocks self
                (remove_first stock_code (popular_stocks self)),
              file, ReplyStockRemoved stock_code)
        else (self, file, ReplyStockMissing stock_code)
    end.

(** [whitelist_add_user] (haha.py 234-249). *)
Definition whitelist_add_user : handler :=
  λ self req file,
    match args req with
    | [] => (self, file, ReplyUsage "whitelist_add_user")
    | word :: _ =>
        match int word with
        | None => (self, file, ReplyUserIdNotNumeric)
        | Some user_id =>
            let self := set_whitelisted_users self
                          ({[user_id]} ∪ whitelisted_users self) in
            (self, save_whitelist self (disk_ok req) file,
             ReplyUserAdded user_id)
        end
    end.

(** [whitelist_remove_user] (haha.py 252-270). *)
Definition whitelist_remove_user : handler :=
  λ self req file,
    match args req with
    | [] => (self, file, ReplyUsage "whitelist_remove_user")
    | word :: _ =>
        match int word with
        | None => (self, file, ReplyUserIdNotNumeric)
        | Some user_id =>
            if bool_decide (user_id ∈ whitelisted_users self) then
              let self := set_whitelisted_users self
                            (whitelisted_users self ∖ {[user_id]}) in
              (self, save_whitelist self (disk_ok req) file,
               ReplyUserRemoved user_id)
            else (self, file, ReplyUserMissing user_id)
        end
    end.

(** [whitelist_add_group] (haha.py 273-293): without a word the chat the
    command is written in is the group, unless it is a private chat. *)
Definition whitelist_add_group : handler :=
  λ self req file,
    let added (group_id : Z) :=
      let self := set_whitelisted_groups self
                    ({[group_id]} ∪ whitelisted_groups self) in
      (self, save_whitelist self (disk_ok req) file,
       ReplyGroupAdded group_id) in
    match args req with
    | [] =>
        let group_id := effective_chat_id req in
        if 0 <? group_id then (self, file, ReplyUsage "whitelist_add_group")
        else added group_id
    | word :: _ =>
        match int word with
        | None => (self, file, ReplyGroupIdNotNumeric)
        | Some group_id => added group_id
        end
    end.

(** [whitelist_remove_group] (haha.py 296-314). *)
Definition whitelist_remove_group : handler :=
  λ self req file,
    match args req with
    | [] => (self, file, ReplyUsage "whitelist_remove_group")
    | word :: _ =>
        match int word with
        | None => (self, file, ReplyGroupIdNotNumeric)
        | Some group_id =>
            if bool_decide (group_id ∈ whitelisted_groups self) then
              let self := set_whitelisted_groups self
                            (whitelisted_groups self ∖ {[group_id]}) in
              (self, save_whitelist self (disk_ok req) file,
               ReplyGroupRemoved group_id)
            else (self, file, ReplyGroupMissing group_id)
        end
    end.

(** [setup_handlers] (haha.py 127-146): the command names and the decorated
    handlers registered for them. *)
Definition setup_handlers : list (string * handler) :=
  [("start", whitelist_required start_command);
   ("help", whitelist_required help_command);
   ("status", whitelist_required status_command);
   ("add_stock", whitelist_required add_stock_command);
   ("remove_stock", whitelist_required remove_stock_command);
   ("list_stocks", whitelist_required list_stocks_command);
   ("whitelist_add_user", admin_only whitelist_add_user);
   ("whitelist_remove_user", admin_only whitelist_remove_user);
   ("whitelist_add_group", admin_only whitelist_add_group);
   ("whitelist_remove_group", admin_only whitelist_remove_group);
   ("whitelist_list", admin_only whitelist_list);
   ("whitelist_enable", admin_only whitelist_enable);
   ("whitelist_disable", admin_only whitelist_disable);
   ("whitelist_status", admin_only whitelist_status);
   ("admin_help", admin_help_command)].

End Commands.

(** Who may use the bot, as the object records it. *)
Definition access (self : StockVolumeMonitor) :=
  (admin_ids self, whitelisted_users self, whitelisted_groups self,
   whitelist_enabled self).

(** What the commands keep true of the lists they edit: no symbol is tracked
    twice, every tracked symbol ends with [.JK], no chat is registered
    twice. *)
Definition tidy (self : StockVolumeMonitor) : Prop :=
  NoDup (popular_stocks self)
  ∧ Forall (λ stock_code : string, endswith stock_code ".JK" = true)
      (popular_stocks self)
  ∧ NoDup (monitored_groups (core self)).

(** The file holds what the object holds: a bot started on this file with
    the same admins has the same access lists. *)
Definition persisted (self : StockVolumeMonitor) (file : disk) : Prop :=
  access (haha_init (elements (admin_ids self)) file) = access self.

(** ** Instances used by the examples *)

(** [str.upper] on the ASCII letters, and [int] on plain decimal numerals
    with an optional minus sign. *)
Definition upper_ascii_char (c : Stdlib.Strings.Ascii.ascii)
    : Stdlib.Strings.Ascii.ascii :=
  let n := Stdlib.Strings.Ascii.nat_of_ascii c in
  if ((97 <=? n) && (n <=? 122))%nat
  then Stdlib.Strings.Ascii.ascii_of_nat (n - 32)
  else c.

Fixpoint upper_ascii (s : string) : string :=
  match s with
  | EmptyString => EmptyString
  | String c rest => String (upper_ascii_char c) (upper_ascii rest)
  end.

Fixpoint decimal_digits (acc : Z) (s : string) : option Z :=
  match s with
  | EmptyString => Some acc
  | String c rest =>
      match Ascii.is_nat c with
      | Some d => decimal_digits (10 * acc + Z.of_nat d) rest
      | None => None
      end
  end.

Definition int_decimal (s : string) : option Z :=
  match s with
  | EmptyString => None
  | String c rest =>
      if bool_decide (c = Stdlib.Strings.Ascii.ascii_of_nat 45) then
        match rest with
        | EmptyString => None
        | _ => Z.opp <$> decimal_digits 0 rest
        end
      else decimal_digits 0 s
  end.

(** A bot of haha.py started without a whitelist file, with two admins. *)
Definition admin_1 : Z := 6208519947.
Definition admin_2 : Z := 5751902978.
Definition fresh_bot : StockVolumeMonitor := haha_init [admin_1; admin_2] None.

(** A request with the given sender, chat and words, at noon, disk
    writable. *)
Definition request_of (user_id chat_id : Z) (words : list string) : request :=
  {| effective_user_id := user_id;
     effective_chat_id := chat_id;
     args := words;
     clock := noon;
     disk_ok := true |}.

(** A data source that reports the same bar for every symbol, read at noon. *)
Definition steady (volume : Q) (i : nat) (symbol : string) : observation :=
  {| obs_data := YfLatest {| bar_index := noon; bar_close := 100;
                             bar_volume := volume; bar_high := 100;
                             bar_low := 100; bar_open := 100 |};
     obs_current_time := noon;
     obs_now_check := noon;
     obs_now_ratio := noon;
     obs_now_alert := noon |}.

(** A data source that fails for the first symbol of the pass and reports
    the same bar for the others. *)
Definition first_fails (volume : Q) (i : nat) (symbol : string)
    : observation :=
  {| obs_data :=
       match i with
       | O => YfRaises "HTTPError"
       | S _ => obs_data (steady volume i symbol)
       end;
     obs_current_time := noon;
     obs_now_check := noon;
     obs_now_ratio := noon;
     obs_now_alert := noon |}.

(** * The whitelist tool (whitelist.py) *)

Module Whitelist.

(** The JSON files the tool reads and writes, by path. *)
Abbreviation files := (gmap string whitelist_json).

(** A [WhitelistManager]: the path it was made for and the dict it holds. *)
Record manager := {
  whitelist_file : string;
  data : whitelist_json
}.

Definition set_data (self : manager) (d : whitelist_json) : manager :=
  {| whitelist_file := whitelist_file self; data := d |}.

Definition set_users (d : whitelist_json) (users : list Z) : whitelist_json :=
  {| json_users := Some users;
     json_groups := json_groups d;
     json_enabled := json_enabled d;
     json_metadata := json_metadata d |}.

Definition set_groups (d : whitelist_json) (groups : list Z)
    : whitelist_json :=
  {| json_users := json_users d;
     json_groups := Some groups;
     json_enabled := json_enabled d;
     json_metadata := json_metadata d |}.

Definition set_enabled (d : whitelist_json) (enabled : bool)
    : whitelist_json :=
  {| json_users := json_users d;
     json_groups := json_groups d;
     json_enabled := Some enabled;
     json_metadata := json_metadata d |}.

Definition set_metadata (d : whitelist_json) (m : metadata) : whitelist_json :=
  {| json_users := json_users d;
     json_groups := json_groups d;
     json_enabled := json_enabled d;
     json_metadata := Some m |}.

(** What a method leaves behind and gives back: the manager, the files, and
    the returned value or the exception that left the method. *)
Definition result (A : Type) : Type := manager * files * (exn + A).

(** [get_default_structure] (lines 30-41); the two arguments are the two
    readings of [datetime.now().isoformat()]. *)
Definition get_default_structure (created_at modified_at : string)
    : whitelist_json :=
  {| json_users := Some [];
     json_groups := Some [];
     json_enabled := Some true;
     json_metadata :=
       Some {| created := created_at;
               last_modified := modified_at;
               version := "1.0" |} |}.

(** [load_whitelist] (lines 19-28), on a file that holds JSON. *)
Definition load_whitelist (path : string) (created_at modified_at : string)
    (fs : files) : whitelist_json :=
  match fs !! path with
  | Some d => d
  | None => get_default_structure created_at modified_at
  end.

(** [__init__] (lines 15-17). *)
Definition new (path : string) (created_at modified_at : string) (fs : files)
    : manager :=
  {| whitelist_file := path;
     data := load_whitelist path created_at modified_at fs |}.

(** [save_whitelist] (lines 43-51).  The stamp is set before the [try], so
    a dict without [metadata] raises [KeyError]; a failed write is caught,
    reported on the terminal and leaves the file as it was. *)
Definition save_whitelist (now : string) (writable : bool) (self : manager)
    (fs : files) : result unit :=
  match json_metadata (data self) with
  | None => (self, fs, inl "KeyError: 'metadata'")
  | Some m =>
      let stamped :=
        set_metadata (data self)
          {| created := created m; last_modified := now;
             version := version m |} in
      let self := set_data self stamped in
      (self,
       if writable then <[whitelist_file self := stamped]> fs else fs,
       inr tt)
  end.

(** After a mutation: save, then return [value] unless the save raised. *)
Definition saved_then {A} (value : A) (r : result unit) : result A :=
  match r with
  | (self, fs, inl e) => (self, fs, inl e)
  | (self, fs, inr _) => (self, fs, inr value)
  end.

(** [add_user] (lines 53-62). *)
Definition add_user (now : string) (writable : bool) (user_id : Z)
    (self : manager) (fs : files) : result bool :=
  match json_users (data self) with
  | None => (self, fs, inl "KeyError: 'users'")
  | Some users =>
      if negb (bool_decide (user_id ∈ users)) then
        let self := set_data self (set_users (data self) (users ++ [user_id])) in
        saved_then true (save_whitelist now writable self fs)
      else (self, fs, inr false)
  end.

(** [remove_user] (lines 64-73). *)
Definition remove_user (now : string) (writable : bool) (user_id : Z)
    (self : manager) (fs : files) : result bool :=
  match json_users (data self) with
  | None => (self, fs, inl "KeyError: 'users'")
  | Some users =>
      if bool_decide (user_id ∈ users) then
        let self :=
          set_data self (set_users (data self) (remove_first user_id users)) in
        saved_then true (save_whitelist now writable self fs)
      else (self, fs, inr false)
  end.

(** [add_group] (lines 75-84). *)
Definition add_group (now : string) (writable : bool) (group_id : Z)
    (self : manager) (fs : files) : result bool :=
  match json_groups (data self) with
  | None => (self, fs, inl "KeyError: 'groups'")
  | Some groups =>
      if negb (bool_decide (group_id ∈ groups)) then
        let self :=
          set_data self (set_groups (data self) (groups ++ [group_id])) in
        saved_then true (save_whitelist now writable self fs)
      else (self, fs, inr false)
  end.

(** [remove_group] (lines 86-95). *)
Definition remove_group (now : string) (writable : bool) (group_id : Z)
    (self : manager) (fs : files) : result bool :=
  match json_groups (data self) with
  | None => (self, fs, inl "KeyError: 'groups'")
  | Some groups =>
      if bool_decide (group_id ∈ groups) then
        let self :=
          set_data self
            (set_groups (data self) (remove_first group_id groups)) in
        saved_then true (save_whitelist now writable self fs)
      else (self, fs, inr false)
  end.

(** [enable_whitelist] and [disable_whitelist] (lines 97-107). *)
Definition enable_whitelist (now : string) (writable : bool) (self : manager)
    (fs : files) : result unit :=
  save_whitelist now writable (set_data self (set_enabled (data self) true)) fs.

Definition disable_whitelist (now : string) (writable : bool)
    (self : manager) (fs : files) : result unit :=
  save_whitelist now writable
    (set_data self (set_enabled (data self) false)) fs.

(** [backup_whitelist] (lines 136-147) with the name of the backup given;
    it writes the dict as it is and returns [None]. *)
Definition backup_whitelist (writable : bool) (backup_file : string)
    (self : manager) (fs : files) : result unit :=
  (self, if writable then <[backup_file := data self]> fs else fs, inr tt).

(** [restore_whitelist] (lines 149-161).  The save is inside the [try]: an
    exception it raises is caught and reported on the terminal. *)
Definition restore_whitelist (now : string) (writable : bool)
    (backup_file : string) (self : manager) (fs : files) : result unit :=
  match fs !! backup_file with
  | None => (self, fs, inr tt)
  | Some d =>
      match save_whitelist now writable (set_data self d) fs with
      | (self, fs, _) => (self, fs, inr tt)
      end
  end.

(** What [validate_whitelist] finds wrong. *)
Inductive issue :=
| MissingKey (key : string)
| DuplicateUsers
| DuplicateGroups
| InvalidUserId (user_id : Z).

(** The list [issues] of [validate_whitelist] (lines 208-253).  In the model
    every present key has the type the checks ask for and every id is an
    [int], so the type checks add nothing. *)
Definition issues_of (d : whitelist_json) : list issue :=
  let users := default [] (json_users d) in
  let groups := default [] (json_groups d) in
  (if json_users d is None then [MissingKey "users"] else [])
  ++ (if json_groups d is None then [MissingKey "groups"] else [])
  ++ (if json_enabled d is None then [MissingKey "enabled"] else [])
  ++ (if json_metadata d is None then [MissingKey "metadata"] else [])
  ++ (if negb (length users =? size (list_to_set users : gset Z))%nat
      then [DuplicateUsers] else [])
  ++ (if negb (length groups =? size (list_to_set groups : gset Z))%nat
      then [DuplicateGroups] else [])
  ++ (InvalidUserId <$> filter (λ user_id : Z, user_id ≤ 0) users).

Definition validate_whitelist (self : manager) : bool :=
  match issues_of (data self) with
  | [] => true
  | _ => false
  end.

(** [clean_whitelist] (lines 255-278).  [list(set(...))] gives the members
    in an order Python does not specify. *)
Definition clean_whitelist (now : string) (writable : bool) (self : manager)
    (fs : files) : result unit :=
  match json_users (data self) with
  | None => (self, fs, inl "KeyError: 'users'")
  | Some users =>
      match json_groups (data self) with
      | None => (self, fs, inl "KeyError: 'groups'")
      | Some groups =>
          let kept_users :=
            elements (list_to_set (filter (λ user_id : Z, 0 < user_id) users)
                      : gset Z) in
          let self := set_data self (set_users (data self) kept_users) in
          let kept_groups := elements (list_to_set groups : gset Z) in
          let self := set_data self (set_groups (data self) kept_groups) in
          save_whitelist now writable self fs
      end
  end.

Section TextImport.

(** [str.strip] and [int] on a line of the text file ([None] where [int]
    raises [ValueError]). *)
Variable strip : string → string.
Variable int : string → option Z.

(** [line.startswith('#')]. *)
Definition is_comment (line : string) : bool :=
  match line with
  | String c _ => bool_decide (c = Stdlib.Strings.Ascii.ascii_of_nat 35)
  | EmptyString => false
  end.

(** The loop of [import_from_text] (lines 174-186) over the lines that are
    left, the next one being line [i]; [stamp i] is what the clock reads if
    line [i] leads to a save.  An exception other than [ValueError] ends
    the loop. *)
Fixpoint import_lines (stamp : nat → string) (writable : bool)
    (data_type : string) (i : nat) (lines : list string) (self : manager)
    (fs : files) : result unit :=
  match lines with
  | [] => (self, fs, inr tt)
  | line :: rest =>
      let line := strip line in
      let continue (self : manager) (fs : files) :=
        import_lines stamp writable data_type (S i) rest self fs in
      if negb (bool_decide (line = EmptyString)) && negb (is_comment line)
      then
        match int line with
        | None => continue self fs
        | Some id_value =>
            if bool_decide (data_type = "users") then
              match add_user (stamp i) writable id_value self fs with
              | (self, fs, inl e) => (self, fs, inl e)
              | (self, fs, inr _) => continue self fs
              end
            else if bool_decide (data_type = "groups") then
              match add_group (stamp i) writable id_value self fs with
              | (self, fs, inl e) => (self, fs, inl e)
              | (self, fs, inr _) => continue self fs
              end
            else continue self fs
        end
      else continue self fs
  end.

(** [import_from_text] (lines 163-190) on a file that exists and holds
    [lines]: an exception from the loop is caught and reported on the
    terminal, and the method returns [None]. *)
Definition import_from_text (stamp : nat → string) (writable : bool)
    (lines : list string) (data_type : string) (self : manager) (fs : files)
    : manager * files :=
  (import_lines stamp writable data_type 0 lines self fs).1.

End TextImport.

End Whitelist.

(** A manager made where no file exists yet, at a fixed moment. *)
Definition fresh_tool : Whitelist.manager :=
  Whitelist.new "whitelist.json" "2024-01-01T00:00:00" "2024-01-01T00:00:00" ∅.

(** * The download tool (stock_app_json_ticker.py)

    A Python [str] is here the list of its characters. *)

Module StockApp.

Abbreviation char := Stdlib.Strings.Ascii.ascii.
Abbreviation str := (list Stdlib.Strings.Ascii.ascii).

Definition chr (n : nat) : char := Stdlib.Strings.Ascii.ascii_of_nat n.

(** A literal, as the list of its characters. *)
Definition lit (s : string) : str :=
  Stdlib.Strings.String.list_ascii_of_string s.

(** [invalid_chars] of [sanitize_filename] (line 379): the characters of
    the raw string, square brackets included, backslash twice. *)
Definition invalid_chars : str :=
  chr <$> [91; 92; 92; 47; 42; 63; 58; 34; 60; 62; 124; 93]%nat.

(** [sanitize_filename] (lines 378-380). *)
Definition sanitize_filename (filename : str) : str :=
  filter (λ c : char, c ∉ invalid_chars) filename.

(** [s.find(sub)]: the least index at which [sub] starts in [s], or -1. *)
Fixpoint find (sub s : str) : Z :=
  if decide (sub `prefix_of` s) then 0
  else
    match s with
    | [] => -1
    | _ :: rest =>
        let k := find sub rest in
        if k =? -1 then -1 else k + 1
    end.

(** [s.find(sub, start)] for [start >= 0]. *)
Definition find_from (sub s : str) (start : Z) : Z :=
  if Z.of_nat (length s) <? start then -1
  else
    let k := find sub (drop (Z.to_nat start) s) in
    if k =? -1 then -1 else start + k.

(** [s[start:stop]] for [start], [stop] that are not negative. *)
Definition slice (s : str) (start stop : Z) : str :=
  take (Z.to_nat (stop - start)) (drop (Z.to_nat start) s).

(** [s.split(sep)[0]] for a separator of one character. *)
Fixpoint before (sep : char) (s : str) : str :=
  match s with
  | [] => []
  | c :: rest => if decide (c = sep) then [] else c :: before sep rest
  end.

(** The characters of [s] up to the first [&] or [_]. *)
Fixpoint up_to_separator (s : str) : str :=
  match s with
  | [] => []
  | c :: rest =>
      if decide (c = chr 38 ∨ c = chr 95) then []
      else c :: up_to_separator rest
  end.

(** [extract_filename_from_url] (lines 382-390). *)
Definition extract_filename_from_url (url : str) : option str :=
  let start :=
    find (lit "fileName=") url + Z.of_nat (length (lit "fileName=")) in
  if negb (start =? -1) then
    let stop := find_from (lit "&") url start in
    let stop := if stop =? -1 then Z.of_nat (length url) else stop in
    let filename := before (chr 95) (slice url start stop) in
    Some filename
  else None.

(** The attributes of [UnifiedStockApp] that the table of URLs uses;
    [url_entries] holds the text of each entry on the page shown,
    [checkbox_vars] the state of its tick box. *)
Record app := {
  max_urls : nat;
  urls_per_page : nat;
  current_page : nat;
  all_urls : list str;
  url_entries : list str;
  checkbox_vars : list bool
}.

Definition set_current_page (self : app) (page : nat) : app :=
  {| max_urls := max_urls self; urls_per_page := urls_per_page self;
     current_page := page; all_urls := all_urls self;
     url_entries := url_entries self;
     checkbox_vars := checkbox_vars self |}.

Definition set_all_urls (self : app) (urls : list str) : app :=
  {| max_urls := max_urls self; urls_per_page := urls_per_page self;
     current_page := current_page self; all_urls := urls;
     url_entries := url_entries self;
     checkbox_vars := checkbox_vars self |}.

Definition set_widgets (self : app) (entries : list str)
    (boxes : list bool) : app :=
  {| max_urls := max_urls self; urls_per_page := urls_per_page self;
     current_page := current_page self; all_urls := all_urls self;
     url_entries := entries; checkbox_vars := boxes |}.

(** The indices [idx] for which [create_url_entries] makes an entry. *)
Definition page_indices (self : app) : list nat :=
  let start_idx := (current_page self * urls_per_page self)%nat in
  filter (λ idx : nat, (idx < max_urls self)%nat)
    ((λ i : nat, (start_idx + i)%nat) <$> seq 0 (urls_per_page self)).

(** [create_url_entries] (lines 301-343): one entry per index of the page,
    holding [all_urls[idx]], and one tick box, not ticked.  The indices are
    below [max_urls]; [all_urls[idx]] raises [IndexError] if the list is
    shorter than that, which no method makes it ([well_formed] below), and
    the model reads the empty string there. *)
Definition create_url_entries (self : app) : app :=
  set_widgets self
    ((λ idx : nat, all_urls self !!! idx) <$> page_indices self)
    (replicate (length (page_indices self)) false).

(** The state [__init__] builds (lines 17-25) once the first tab is made. *)
Definition init : app :=
  create_url_entries
    {| max_urls := 100; urls_per_page := 10; current_page := 0;
       all_urls := replicate 100 []; url_entries := [];
       checkbox_vars := [] |}.

(** The loop of [save_current_entries] (lines 371-376), from entry [i].
    The assignment is guarded by [idx < max_urls], the length of the list. *)
Fixpoint save_entries (max start_idx i : nat) (entries : list str)
    (urls : list str) : list str :=
  match entries with
  | [] => urls
  | entry :: rest =>
      let idx := (start_idx + i)%nat in
      save_entries max start_idx (S i) rest
        (if (idx <? max)%nat then <[idx := entry]> urls else urls)
  end.

Definition save_current_entries (self : app) : app :=
  let start_idx := (current_page self * urls_per_page self)%nat in
  set_all_urls self
    (save_entries (max_urls self) start_idx 0 (url_entries self)
       (all_urls self)).

(** [(max_urls + urls_per_page - 1) // urls_per_page]; [urls_per_page] is
    10 from [__init__] on and never 0. *)
Definition max_pages (self : app) : nat :=
  ((max_urls self + urls_per_page self - 1) / urls_per_page self)%nat.

(** [next_page] and [prev_page] (lines 356-369). *)
Definition next_page (self : app) : app :=
  let self := save_current_entries self in
  if (current_page self <? max_pages self - 1)%nat
  then create_url_entries (set_current_page self (S (current_page self)))
  else self.

Definition prev_page (self : app) : app :=
  let self := save_current_entries self in
  if (0 <? current_page self)%nat
  then create_url_entries (set_current_page self (current_page self - 1))
  else self.

(** The loop of [load_urls_for_editing] (lines 564-565), from index [i];
    it runs over [i < num_loaded], inside both lists. *)
Fixpoint copy_loaded (i : nat) (loaded : list str) (n : nat)
    (urls : list str) : list str :=
  match n with
  | O => urls
  | S n' =>
      copy_loaded (S i) loaded n' (<[i := loaded !!! i]> urls)
  end.

(** [load_urls_for_editing] (lines 560-571). *)
Definition load_urls_for_editing (loaded_urls : list str) (self : app)
    : app :=
  let num_loaded := Nat.min (length loaded_urls) (max_urls self) in
  let self := set_all_urls self (replicate (max_urls self) []) in
  let self :=
    set_all_urls self (copy_loaded 0 loaded_urls num_loaded (all_urls self)) in
  create_url_entries (set_current_page self 0).

(** [clear_all] (lines 477-481) once the user has confirmed. *)
Definition clear_all (self : app) : app :=
  create_url_entries (set_all_urls self (replicate (max_urls self) [])).

(** The list [download_data] (lines 406-413) hands to [download_urls]. *)
Definition urls_to_download (self : app) : list str :=
  let self := save_current_entries self in
  filter (λ url : str, url ≠ []) (all_urls self).

(** What the table promises between two events: a hundred slots, a page
    that exists, and one entry and one tick box per slot of the page. *)
Definition well_formed (self : app) : Prop :=
  length (all_urls self) = max_urls self
  ∧ (0 < urls_per_page self)%nat
  ∧ (current_page self * urls_per_page self < max_urls self)%nat
  ∧ length (url_entries self) = length (page_indices self)
  ∧ length (checkbox_vars self) = length (page_indices self).

End StockApp.

(** * History store: basic facts *)

Lemma length_since (cutoff_time : timestamp) (history : list sample) :
  (length (since cutoff_time history) <= length history)%nat.
Proof. apply length_filter. Qed.

Lemma history_of_store_volume (self : monitor) (symbol : string)
    (current_time : timestamp) (volume : Q) :
  history_of (store_volume self symbol current_time volume) symbol
  = since (current_time - timedelta_hours 4)
      (history_of self symbol ++ [(current_time, volume)]).
Proof.
  unfold history_of at 1, store_volume. cbn.
  rewrite lookup_insert_eq. reflexivity.
Qed.

Lemma history_of_store_volume_other (self : monitor) (symbol other : string)
    (current_time : timestamp) (volume : Q) :
  other ≠ symbol →
  history_of (store_volume self symbol current_time volume) other
  = history_of self other.
Proof.
  intros Hne. unfold history_of, store_volume. cbn.
  rewrite lookup_insert_ne by congruence. reflexivity.
Qed.

Lemma calculate_average_volume_short (self : monitor) (symbol : string)
    (now : timestamp) :
  (length (history_of self symbol) < 2)%nat →
  calculate_average_volume self symbol now = 0%Q.
Proof.
  unfold history_of, calculate_average_volume.
  destruct (volume_history self !! symbol) as [history|]; [|reflexivity].
  intros Hlen. change (default [] (Some history)) with history in Hlen.
  apply Nat.ltb_lt in Hlen. rewrite Hlen. reflexivity.
Qed.

(** * Detector *)

Section Detector.

Variables (self : monitor) (symbol : string) (now : timestamp).

Lemma Qlt_bool_iff (x y : Q) : Qlt_bool x y = true ↔ (x < y)%Q.
Proof.
  unfold Qlt_bool. rewrite negb_true_iff, <- not_true_iff_false, Qle_bool_iff.
  split; [apply Qnot_le_lt | apply Qlt_not_le].
Qed.

Lemma Qlt_bool_false (x y : Q) : Qlt_bool x y = false ↔ (y <= x)%Q.
Proof.
  unfold Qlt_bool. rewrite negb_false_iff. apply Qle_bool_iff.
Qed.

(** The floor is the only difference between the two files. *)
Lemma alert_is_floor_and_haha (current_volume : Q) :
  Alert.should_alert self symbol now current_volume
  = negb (Qlt_bool current_volume 90000)
    && Haha.should_alert self symbol now current_volume.
Proof.
  unfold Alert.should_alert, Haha.should_alert.
  destruct (Qlt_bool current_volume 90000); reflexivity.
Qed.

Lemma haha_no_baseline (current_volume : Q) :
  (calculate_average_volume self symbol now == 0)%Q →
  Haha.should_alert self symbol now current_volume = false.
Proof.
  intros Havg. unfold Haha.should_alert.
  apply Qeq_bool_iff in Havg. rewrite Havg. reflexivity.
Qed.

Lemma haha_ratio (current_volume : Q) :
  ¬ (calculate_average_volume self symbol now == 0)%Q →
  Haha.should_alert self symbol now current_volume = true
  ↔ (volume_threshold self
     <= current_volume / calculate_average_volume self symbol now)%Q.
Proof.
  intros Havg. unfold Haha.should_alert.
  destruct (Qeq_bool _ 0) eqn:E.
  - apply Qeq_bool_iff in E. contradiction.
  - apply Qle_bool_iff.
Qed.

End Detector.

(** C1, as stated for both files, fails: [should_alert] of haha.py has no
    floor.  After the store step has added a sample of 50000 to two samples
    of 10000, the detector of haha.py alerts on a volume below 90000. *)
Lemma should_alert_floor_absent_in_haha :
  ¬ (∀ (self : monitor) (symbol : string) (now : timestamp)
       (current_volume : Q),
       (current_volume < 90000)%Q →
       Alert.should_alert self symbol now current_volume = false
       ∧ Haha.should_alert self symbol now current_volume = false).
Proof.
  intros Hfloor.
  destruct (Hfloor (store_volume (baseline 10000) "X" noon 50000)
              "X"%string noon 50000%Q) as [_ Hhaha]; [reflexivity|].
  vm_compute in Hhaha. discriminate.
Qed.

(** C1, amended.  Below the floor of 90000 units [should_alert] of alert.py
    answers [False], whatever the symbol, the recorded history (hence the
    windowed average), the clock and the ratio threshold.  [should_alert] of
    haha.py has no floor: below 90000 it answers [True] exactly when the
    windowed average is not 0 and the ratio of the volume to it reaches the
    threshold. *)
Theorem should_alert_below_floor (self : monitor) (symbol : string)
    (now : timestamp) (current_volume : Q) :
  (current_volume < 90000)%Q →
  Alert.should_alert self symbol now current_volume = false
  ∧ (Haha.should_alert self symbol now current_volume = true
     ↔ ¬ (calculate_average_volume self symbol now == 0)%Q
       ∧ (volume_threshold self
          <= current_volume / calculate_average_volume self symbol now)%Q).
Proof.
  intros Hlow. split.
  - unfold Alert.should_alert.
    apply Qlt_bool_iff in Hlow. rewrite Hlow. reflexivity.
  - split.
    + intros Halert.
      destruct (Qeq_dec (calculate_average_volume self symbol now) 0)
        as [Hzero|Hbase].
      * rewrite (haha_no_baseline self symbol now current_volume Hzero)
          in Halert.
        discriminate.
      * split; [exact Hbase|].
        apply (haha_ratio self symbol now current_volume Hbase).
        exact Halert.
    + intros [Hbase Hratio].
      apply (haha_ratio self symbol now current_volume Hbase). exact Hratio.
Qed.

(** The spec's instance of C1: volume 50000 against an average of 10000 and
    threshold 2.0 gives ratio 5.0, above the threshold; alert.py gives no
    alert and haha.py gives one. *)
Lemma should_alert_below_floor_witness :
  (calculate_average_volume (baseline 10000) "X" noon == 10000)%Q
  ∧ (volume_threshold (baseline 10000) <= 50000 / 10000)%Q
  ∧ (50000 < 90000)%Q
  ∧ Alert.should_alert (baseline 10000) "X" noon 50000 = false
  ∧ Haha.should_alert (baseline 10000) "X" noon 50000 = true.
Proof.
  split; [vm_compute; reflexivity|].
  split; [vm_compute; discriminate|].
  split; [reflexivity|].
  destruct (should_alert_below_floor (baseline 10000) "X" noon 50000)
    as [Halert Hhaha]; [reflexivity|].
  split; [exact Halert|].
  apply Hhaha. split; vm_compute; discriminate.
Defined.

(** C2, as stated, fails: with a baseline of 10000 and a sample of 50000 the
    detector of alert.py is silent (floor) and the one of haha.py alerts. *)
Lemma should_alert_files_differ :
  ¬ (∀ (self : monitor) (symbol : string) (now : timestamp)
       (current_volume : Q),
       Alert.should_alert self symbol now current_volume
       = Haha.should_alert self symbol now current_volume).
Proof.
  intros Heq.
  specialize (Heq (baseline 10000) "X"%string noon 50000%Q).
  vm_compute in Heq. discriminate.
Qed.

(** C2, amended.  The detector of alert.py is the detector of haha.py behind
    the floor test: the two agree on every volume that is not below 90000,
    and below 90000 alert.py answers [False] whatever haha.py answers. *)
Theorem should_alert_files_agree_above_floor (self : monitor)
    (symbol : string) (now : timestamp) (current_volume : Q) :
  Alert.should_alert self symbol now current_volume
  = negb (Qlt_bool current_volume 90000)
    && Haha.should_alert self symbol now current_volume
  ∧ ((90000 <= current_volume)%Q →
     Alert.should_alert self symbol now current_volume
     = Haha.should_alert self symbol now current_volume)
  ∧ ((current_volume < 90000)%Q →
     Alert.should_alert self symbol now current_volume = false).
Proof.
  pose proof (alert_is_floor_and_haha self symbol now current_volume) as E.
  split; [exact E|]. split; intros H.
  - apply Qlt_bool_false in H. rewrite E, H. reflexivity.
  - apply Qlt_bool_iff in H. rewrite E, H. reflexivity.
Qed.

Lemma should_alert_files_agree_above_floor_witness :
  (90000 <= 95000)%Q
  ∧ Alert.should_alert (baseline 11000) "X" noon 95000
    = Haha.should_alert (baseline 11000) "X" noon 95000
  ∧ Haha.should_alert (baseline 11000) "X" noon 95000 = true.
Proof.
  split; [vm_compute; discriminate|]. split; [|reflexivity].
  apply (should_alert_files_agree_above_floor
           (baseline 11000) "X" noon 95000).
  vm_compute; discriminate.
Defined.

(** C3.  With the no-data average 0 the detector answers [False] in both
    files, for every current volume (so for every one at or above the
    floor); and a symbol with no history does not alert on its first
    sample: once the sample is stored the history has one entry, the
    average is the sentinel, and [should_alert] is [False] for every
    volume and at every later reading of the clock. *)
Theorem should_alert_no_baseline (self : monitor) (symbol : string) :
  (∀ (now : timestamp) (current_volume : Q),
     (calculate_average_volume self symbol now == 0)%Q →
     Alert.should_alert self symbol now current_volume = false
     ∧ Haha.should_alert self symbol now current_volume = false)
  ∧ (history_of self symbol = [] →
     ∀ (current_time now : timestamp) (volume current_volume : Q),
       let self' := store_volume self symbol current_time volume in
       calculate_average_volume self' symbol now = 0%Q
       ∧ Alert.should_alert self' symbol now current_volume = false
       ∧ Haha.should_alert self' symbol now current_volume = false).
Proof.
  split.
  - intros now v Havg.
    pose proof (haha_no_baseline self symbol now v Havg) as Hh.
    split; [|exact Hh].
    rewrite alert_is_floor_and_haha, Hh. apply andb_false_r.
  - intros Hnew current_time now volume v self'.
    assert (Havg : calculate_average_volume self' symbol now = 0%Q).
    { apply calculate_average_volume_short.
      unfold self'. rewrite history_of_store_volume, Hnew.
      eapply Nat.le_lt_trans; [apply length_since|]. cbn. lia. }
    split; [exact Havg|].
    assert (Hh : Haha.should_alert self' symbol now v = false)
      by (apply haha_no_baseline; rewrite Havg; reflexivity).
    split; [|exact Hh].
    rewrite alert_is_floor_and_haha, Hh. apply andb_false_r.
Qed.

Lemma should_alert_no_baseline_witness :
  history_of init "X" = []
  ∧ Alert.should_alert (store_volume init "X" noon 5000000) "X"
      (noon + timedelta_minutes 1) 5000000 = false
  ∧ (calculate_average_volume (tracking [(noon, 95000%Q)]) "X" noon == 0)%Q
  ∧ Alert.should_alert (tracking [(noon, 95000%Q)]) "X" noon 5000000 = false.
Proof.
  split; [reflexivity|]. split.
  - apply (proj2 (should_alert_no_baseline init "X")). reflexivity.
  - split; [reflexivity|].
    apply (proj1 (should_alert_no_baseline (tracking [(noon, 95000%Q)]) "X")).
    reflexivity.
Defined.

(** C4.  Past the floor test and the baseline test, [should_alert] is the
    comparison [current_volume / avg_volume >= self.volume_threshold], with
    equality included, in both files.  With the default threshold 2.0 and an
    average of 100000: a volume of 200000 (ratio exactly 2.0) alerts and a
    volume of 150000 (ratio 1.5) does not. *)
Theorem should_alert_ratio_inclusive :
  (∀ (self : monitor) (symbol : string) (now : timestamp)
     (current_volume : Q),
     (90000 <= current_volume)%Q →
     ¬ (calculate_average_volume self symbol now == 0)%Q →
     (Alert.should_alert self symbol now current_volume = true
      ↔ (volume_threshold self
         <= current_volume / calculate_average_volume self symbol now)%Q)
     ∧ (Haha.should_alert self symbol now current_volume = true
        ↔ (volume_threshold self
           <= current_volume / calculate_average_volume self symbol now)%Q))
  ∧ ((calculate_average_volume (baseline 100000) "X" noon == 100000)%Q
     ∧ (volume_threshold (baseline 100000) == 2)%Q
     ∧ (200000 / 100000 == 2)%Q
     ∧ Alert.should_alert (baseline 100000) "X" noon 200000 = true
     ∧ Haha.should_alert (baseline 100000) "X" noon 200000 = true
     ∧ Alert.should_alert (baseline 100000) "X" noon 150000 = false
     ∧ Haha.should_alert (baseline 100000) "X" noon 150000 = false).
Proof.
  split.
  - intros self symbol now v Hfloor Havg.
    pose proof (haha_ratio self symbol now v Havg) as Hh.
    split; [|exact Hh].
    rewrite alert_is_floor_and_haha.
    apply Qlt_bool_false in Hfloor. rewrite Hfloor. exact Hh.
  - repeat split; vm_compute; reflexivity.
Qed.

Lemma should_alert_ratio_inclusive_witness :
  (90000 <= 95000)%Q
  ∧ ¬ (calculate_average_volume (baseline 11000) "X" noon == 0)%Q
  ∧ (Alert.should_alert (baseline 11000) "X" noon 95000 = true
     ↔ (volume_threshold (baseline 11000)
        <= 95000 / calculate_average_volume (baseline 11000) "X" noon)%Q).
Proof.
  assert (Hfloor : (90000 <= 95000)%Q) by (vm_compute; discriminate).
  assert (Havg : ¬ (calculate_average_volume (baseline 11000) "X" noon == 0)%Q)
    by (vm_compute; discriminate).
  split; [exact Hfloor|]. split; [exact Havg|].
  exact (proj1 (proj1 should_alert_ratio_inclusive
                  (baseline 11000) "X"%string noon 95000%Q Hfloor Havg)).
Defined.

(** * Windowed average *)

Lemma np_mean_is_mean (l : list Q) :
  l ≠ [] → (np_mean l * inject_Z (Z.of_nat (length l)) == Qsum l)%Q.
Proof.
  intros Hne. unfold np_mean.
  rewrite Qmult_comm. apply Qmult_div_r.
  destruct l as [|x l]; [contradiction|].
  unfold Qeq, inject_Z. cbn -[Z.of_nat]. lia.
Qed.

(** The code bounds the window from below only.  Stored timestamps are
    earlier readings of the clock; when none is later than [now], the window
    is the closed interval of [avg_window_minutes] minutes that ends at
    [now]. *)
Lemma recent_volumes_trailing_window (self : monitor) (symbol : string)
    (now : timestamp) :
  Forall (λ entry : sample, entry.1 ≤ now) (history_of self symbol) →
  recent_volumes self symbol now
  = (filter (λ entry : sample,
       now - timedelta_minutes (avg_window_minutes self) ≤ entry.1 ≤ now)
       (history_of self symbol)).*2.
Proof.
  intros Hpast. unfold recent_volumes, since. f_equal.
  induction Hpast as [|entry history Hentry _ IH]; [reflexivity|].
  rewrite !filter_cons, IH.
  destruct (decide (_ ≤ entry.1)) as [Hin|Hout];
    destruct (decide (_ ≤ entry.1 ≤ now)) as [Hin'|Hout'];
    try reflexivity; lia.
Qed.

(** With no stored timestamp later than [now], the entries at or after a
    cutoff are the entries between the cutoff and [now]. *)
Lemma since_trailing_window (cutoff_time now : timestamp)
    (history : list sample) :
  Forall (λ entry : sample, entry.1 ≤ now) history →
  since cutoff_time history
  = filter (λ entry : sample, cutoff_time ≤ entry.1 ≤ now) history.
Proof.
  intros Hpast. unfold since.
  induction Hpast as [|entry rest Hentry _ IH]; [reflexivity|].
  rewrite !filter_cons, IH.
  destruct (decide (cutoff_time ≤ entry.1)) as [Hin|Hout];
    destruct (decide (cutoff_time ≤ entry.1 ≤ now)) as [Hin'|Hout'];
    try reflexivity; lia.
Qed.

(** The two halves of the case split, for use in later proofs. *)
Lemma average_without_baseline (self : monitor) (symbol : string)
    (now : timestamp) :
  no_baseline self symbol now →
  calculate_average_volume self symbol now = 0%Q.
Proof.
  unfold no_baseline, recent_volumes, history_of, calculate_average_volume.
  destruct (volume_history self !! symbol) as [history|] eqn:Hkey;
    cbn [default from_option id]; [|reflexivity].
  destruct (Nat.ltb_spec (length history) 2) as [Hshort|Hlong];
    [reflexivity|].
  cbn zeta.
  destruct ((since _ history).*2) as [|v window] eqn:Hwin; [reflexivity|].
  intros [Hk|[Hs|Hw]]; [discriminate|lia|discriminate].
Qed.

Lemma average_with_baseline (self : monitor) (symbol : string)
    (now : timestamp) :
  ¬ no_baseline self symbol now →
  calculate_average_volume self symbol now
  = np_mean (recent_volumes self symbol now)
  ∧ (0 < length (recent_volumes self symbol now))%nat
  ∧ (calculate_average_volume self symbol now
     * inject_Z (Z.of_nat (length (recent_volumes self symbol now)))
     == Qsum (recent_volumes self symbol now))%Q.
Proof.
  unfold no_baseline, recent_volumes, history_of, calculate_average_volume.
  destruct (volume_history self !! symbol) as [history|] eqn:Hkey;
    cbn [default from_option id].
  2:{ intros Hn. exfalso. apply Hn. left; reflexivity. }
  destruct (Nat.ltb_spec (length history) 2) as [Hshort|Hlong].
  { intros Hn. exfalso. apply Hn. right; left; exact Hshort. }
  cbn zeta.
  destruct ((since _ history).*2) as [|v window] eqn:Hwin.
  { intros Hn. exfalso. apply Hn. right; right; reflexivity. }
  intros _. split; [reflexivity|]. split; [cbn; lia|].
  apply np_mean_is_mean. discriminate.
Qed.

(** The value 0 is also what the mean of a window of zero volumes is: the
    result is 0 exactly in the no-baseline situations or when the volumes in
    the window sum to 0. *)
Lemma calculate_average_volume_zero_iff (self : monitor) (symbol : string)
    (now : timestamp) :
  (calculate_average_volume self symbol now == 0)%Q
  ↔ no_baseline self symbol now
    ∨ (Qsum (recent_volumes self symbol now) == 0)%Q.
Proof.
  pose proof (average_without_baseline self symbol now) as Hno.
  pose proof (average_with_baseline self symbol now) as Hyes.
  split.
  - intros Hz.
    destruct (volume_history self !! symbol) as [history|] eqn:Hkey.
    2:{ left. left. exact Hkey. }
    destruct (Nat.ltb_spec (length (history_of self symbol)) 2) as [Hs|Hl].
    { left. right. left. exact Hs. }
    destruct (recent_volumes self symbol now) as [|v w] eqn:Hw.
    { left. right. right. exact Hw. }
    right.
    assert (Hn : ¬ no_baseline self symbol now).
    { unfold no_baseline. rewrite Hkey, Hw.
      intros [?|[?|?]]; [discriminate|lia|discriminate]. }
    destruct (Hyes Hn) as (_ & _ & Hm).
    rewrite <- Hm, Hz. apply Qmult_0_l.
  - intros [Hn|Hsum]; [rewrite (Hno Hn); reflexivity|].
    destruct (volume_history self !! symbol) as [history|] eqn:Hkey.
    2:{ rewrite Hno; [reflexivity|left; exact Hkey]. }
    destruct (Nat.ltb_spec (length (history_of self symbol)) 2) as [Hs|Hl].
    { rewrite Hno; [reflexivity|right; left; exact Hs]. }
    destruct (recent_volumes self symbol now) as [|v w] eqn:Hw.
    { rewrite Hno; [reflexivity|right; right; exact Hw]. }
    assert (Hn : ¬ no_baseline self symbol now).
    { unfold no_baseline. rewrite Hkey, Hw.
      intros [?|[?|?]]; [discriminate|lia|discriminate]. }
    destruct (Hyes Hn) as (Hc & _ & _).
    rewrite Hc. unfold np_mean. rewrite Hsum. apply Qmult_0_l.
Qed.

(** C5, as stated, fails in the direction from the value to the situation:
    two samples of volume 0 inside the window are a baseline, and their mean
    is the value 0 all the same. *)
Lemma calculate_average_volume_zero_with_baseline :
  ¬ (∀ (self : monitor) (symbol : string) (now : timestamp),
       (calculate_average_volume self symbol now == 0)%Q
       ↔ volume_history self !! symbol = None
         ∨ (length (default [] (volume_history self !! symbol)) < 2)%nat
         ∨ filter (λ entry : sample,
                     now - avg_window_minutes self * 60 * 1000000 ≤ entry.1)
             (default [] (volume_history self !! symbol)) = []).
Proof.
  intros Hexact.
  destruct (proj1 (Hexact (tracking [(noon_minus 60, 0%Q);
                                     (noon_minus 30, 0%Q)])
                     "X"%string noon))
    as [Hkey|[Hshort|Hempty]].
  - vm_compute. reflexivity.
  - vm_compute in Hkey. discriminate.
  - vm_compute in Hshort. lia.
  - vm_compute in Hempty. discriminate.
Qed.

(** C5, amended.  The samples averaged are the entries of the history of
    the symbol whose timestamp is not earlier than [now] minus
    [avg_window_minutes] minutes (timestamps count microseconds).
    [calculate_average_volume] gives 0 when the symbol has no history, when
    the history has fewer than two entries in all, and when no entry is in
    the window; in every other situation it gives the arithmetic mean of the
    volumes of the entries in the window, their sum divided by their number.
    The value is 0 exactly in the three situations or when the volumes in
    the window sum to 0.  The window has no upper bound in the code; it is
    the trailing window that ends at [now] whenever no stored timestamp is
    later than [now]. *)
Theorem calculate_average_volume_cases (self : monitor) (symbol : string)
    (now : timestamp) :
  let history := default [] (volume_history self !! symbol) in
  let cutoff := now - avg_window_minutes self * 60 * 1000000 in
  let window := filter (λ entry : sample, cutoff ≤ entry.1) history in
  let volumes := window.*2 in
  let count := inject_Z (Z.of_nat (length volumes)) in
  let no_data :=
    volume_history self !! symbol = None
    ∨ (length history < 2)%nat
    ∨ window = [] in
  (no_data → calculate_average_volume self symbol now = 0%Q)
  ∧ (¬ no_data →
     (0 < length volumes)%nat
     ∧ calculate_average_volume self symbol now = (Qsum volumes / count)%Q
     ∧ (calculate_average_volume self symbol now * count == Qsum volumes)%Q)
  ∧ ((calculate_average_volume self symbol now == 0)%Q
     ↔ no_data ∨ (Qsum volumes == 0)%Q)
  ∧ (Forall (λ entry : sample, entry.1 ≤ now) history →
     window = filter (λ entry : sample, cutoff ≤ entry.1 ≤ now) history).
Proof.
  intros history cutoff window volumes count no_data.
  assert (Hvolumes : recent_volumes self symbol now = volumes)
    by reflexivity.
  assert (Hsame : no_baseline self symbol now ↔ no_data).
  { unfold no_baseline, no_data. rewrite Hvolumes.
    change (history_of self symbol) with history.
    split; (intros [Hkey|[Hshort|Hempty]];
            [left; exact Hkey|right; left; exact Hshort|right; right]).
    - apply fmap_nil_inv in Hempty. exact Hempty.
    - unfold volumes. rewrite Hempty. reflexivity. }
  split; [|split; [|split]].
  - intros Hno. apply average_without_baseline, Hsame, Hno.
  - intros Hyes.
    destruct (average_with_baseline self symbol now) as (Hc & Hlen & Hmean).
    { intros Hno. apply Hyes, Hsame, Hno. }
    rewrite Hvolumes in Hc, Hlen, Hmean.
    split; [exact Hlen|]. split; [exact Hc|exact Hmean].
  - rewrite calculate_average_volume_zero_iff, Hvolumes, Hsame. reflexivity.
  - intros Hpast. exact (since_trailing_window cutoff now history Hpast).
Qed.

Lemma calculate_average_volume_cases_witness :
  calculate_average_volume (tracking [(noon, 95000%Q)]) "X" noon = 0%Q
  ∧ (calculate_average_volume
       (tracking [(noon_minus 150, 99000%Q); (noon_minus 90, 10000%Q);
                  (noon_minus 60, 12000%Q); (noon_minus 30, 11000%Q)])
       "X" noon == 11000)%Q.
Proof.
  split.
  - apply (proj1 (calculate_average_volume_cases
                    (tracking [(noon, 95000%Q)]) "X" noon)).
    right. left. vm_compute. lia.
  - destruct (proj1 (proj2 (calculate_average_volume_cases
                (tracking [(noon_minus 150, 99000%Q);
                           (noon_minus 90, 10000%Q);
                           (noon_minus 60, 12000%Q);
                           (noon_minus 30, 11000%Q)]) "X" noon)))
      as (_ & Hmean & _).
    + intros [Hkey|[Hshort|Hempty]].
      * vm_compute in Hkey. discriminate.
      * vm_compute in Hshort. lia.
      * vm_compute in Hempty. discriminate.
    + rewrite Hmean. vm_compute. reflexivity.
Defined.

(** * Append and prune *)

Lemma horizon_before_now (current_time : timestamp) :
  current_time - timedelta_hours 4 ≤ current_time.
Proof. unfold timedelta_hours, microseconds_per_second. lia. Qed.

Lemma elem_of_since (cutoff_time : timestamp) (history : list sample)
    (entry : sample) :
  entry ∈ since cutoff_time history ↔ cutoff_time ≤ entry.1 ∧ entry ∈ history.
Proof.
  unfold since.
  apply (list_elem_of_filter (λ e : sample, cutoff_time ≤ e.1)).
Qed.

Lemma since_snoc_kept (cutoff_time : timestamp) (history : list sample)
    (entry : sample) :
  cutoff_time ≤ entry.1 →
  since cutoff_time (history ++ [entry]) = since cutoff_time history ++ [entry].
Proof.
  intros Hkeep. unfold since. rewrite filter_app. f_equal.
  rewrite filter_cons. destruct (decide _) as [_|Hn]; [reflexivity|].
  contradiction.
Qed.

(** C6.  After the store step for [symbol] at [current_time], the history of
    [symbol] holds exactly the entries of the appended history that are not
    older than [current_time] minus four hours; so whatever cutoff a later
    windowed average uses, every sample it averages is inside that horizon. *)
Theorem store_volume_prunes (self : monitor) (symbol : string)
    (current_time : timestamp) (volume : Q) :
  let self' := store_volume self symbol current_time volume in
  let horizon := current_time - timedelta_hours 4 in
  (∀ entry : sample,
     entry ∈ history_of self' symbol
     ↔ horizon ≤ entry.1
       ∧ entry ∈ history_of self symbol ++ [(current_time, volume)])
  ∧ (∀ (cutoff_time : timestamp) (entry : sample),
       entry ∈ since cutoff_time (history_of self' symbol) →
       horizon ≤ entry.1)
  ∧ (∀ (now : timestamp) (vol : Q),
       vol ∈ recent_volumes self' symbol now →
       ∃ ts : timestamp,
         (ts, vol) ∈ history_of self symbol ++ [(current_time, volume)]
         ∧ horizon ≤ ts
         ∧ now - timedelta_minutes (avg_window_minutes self') ≤ ts).
Proof.
  intros self' horizon.
  assert (Hall : ∀ entry : sample,
     entry ∈ history_of self' symbol
     ↔ horizon ≤ entry.1
       ∧ entry ∈ history_of self symbol ++ [(current_time, volume)]).
  { intros entry. unfold self'. rewrite history_of_store_volume.
    apply elem_of_since. }
  split; [exact Hall|]. split.
  - intros cutoff_time entry Hin.
    apply elem_of_since in Hin as [_ Hin]. apply Hall in Hin. tauto.
  - intros now vol Hin. unfold recent_volumes in Hin.
    apply list_elem_of_fmap in Hin as ([ts vol'] & -> & Hin).
    apply elem_of_since in Hin as [Hwin Hin]. apply Hall in Hin as [Hh Hin].
    exists ts. cbn in *. auto.
Qed.

Lemma store_volume_prunes_witness :
  let self := tracking [(noon_minus 300, 10000%Q); (noon_minus 200, 12000%Q)] in
  history_of (store_volume self "X" noon 11000) "X"
  = [(noon_minus 200, 12000%Q); (noon, 11000%Q)]
  ∧ (12000%Q ∈ recent_volumes (store_volume self "X" noon 11000) "X" noon →
     ∃ ts : timestamp,
       (ts, 12000%Q) ∈ history_of self "X" ++ [(noon, 11000%Q)]
       ∧ noon - timedelta_hours 4 ≤ ts
       ∧ noon - timedelta_minutes 120 ≤ ts).
Proof.
  intros self. split; [vm_compute; reflexivity|].
  intros Hin.
  exact (proj2 (proj2 (store_volume_prunes self "X" noon 11000))
           noon 12000%Q Hin).
Defined.

(** C7.  The store step keeps the retained entries in the order they had:
    the new history is a subsequence of the old history followed by the new
    observation; it is the pruned old history with the new observation at
    its end.  Nothing is assumed about the order of the timestamps. *)
Theorem store_volume_keeps_order (self : monitor) (symbol : string)
    (current_time : timestamp) (volume : Q) :
  let before := history_of self symbol in
  let after := history_of (store_volume self symbol current_time volume)
                 symbol in
  after `sublist_of` (before ++ [(current_time, volume)])
  ∧ after = since (current_time - timedelta_hours 4) before
            ++ [(current_time, volume)]
  ∧ since (current_time - timedelta_hours 4) before `sublist_of` before
  ∧ last after = Some (current_time, volume).
Proof.
  intros before after.
  assert (Hafter : after = since (current_time - timedelta_hours 4) before
                           ++ [(current_time, volume)]).
  { unfold after. rewrite history_of_store_volume.
    apply since_snoc_kept. apply horizon_before_now. }
  assert (Hsub : since (current_time - timedelta_hours 4) before
                 `sublist_of` before) by apply sublist_filter.
  split; [|split; [exact Hafter|split; [exact Hsub|]]].
  - rewrite Hafter. apply sublist_app; [exact Hsub|reflexivity].
  - rewrite Hafter. apply last_snoc.
Qed.

(** An out-of-order history: the stale middle entry goes, the others stay in
    place, the new sample comes last. *)
Example store_volume_out_of_order :
  history_of
    (store_volume
       (tracking [(noon_minus 10, 1%Q); (noon_minus 300, 2%Q);
                  (noon_minus 60, 3%Q)])
       "X" noon 4) "X"
  = [(noon_minus 10, 1%Q); (noon_minus 60, 3%Q); (noon, 4%Q)].
Proof. vm_compute. reflexivity. Qed.

(** * Session gate *)

Lemma hour_range (utcoffset : Z) (now : timestamp) :
  0 ≤ hour utcoffset now < 24.
Proof. unfold hour. apply Z.mod_pos_bound. lia. Qed.

Lemma hour_wall_clock (utcoffset h m s : Z) :
  0 ≤ h < 24 → 0 ≤ m < 60 → 0 ≤ s < 60 →
  hour utcoffset (wall_clock utcoffset h m s) = h.
Proof.
  intros Hh Hm Hs. unfold hour, wall_clock, microseconds_per_second.
  rewrite Z.div_mul by lia.
  replace (h * 3600 + m * 60 + s - utcoffset + utcoffset)
    with (h * 3600 + (m * 60 + s)) by lia.
  rewrite Z.div_add_l by lia.
  rewrite (Z.div_small (m * 60 + s)) by lia.
  rewrite Z.add_0_r. apply Z.mod_small. lia.
Qed.

(** C8.  [is_trading_hours] holds exactly when the hour of the clock in the
    monitor's zone is in the half-open interval from [trading_start] to
    [trading_end]; with the bounds 9 and 16 of [__init__] it is closed at
    08:00 and 08:59:59, open at 09:00, open at 15:59 and 15:59:59, closed at
    16:00. *)
Theorem is_trading_hours_half_open :
  (∀ (self : monitor) (now : timestamp),
     is_trading_hours self now = true
     ↔ trading_start self ≤ hour (tz self) now < trading_end self)
  ∧ (trading_start init = 9 ∧ trading_end init = 16
     ∧ is_trading_hours init (wall_clock asia_jakarta 8 0 0) = false
     ∧ is_trading_hours init (wall_clock asia_jakarta 8 59 59) = false
     ∧ is_trading_hours init (wall_clock asia_jakarta 9 0 0) = true
     ∧ is_trading_hours init (wall_clock asia_jakarta 15 59 0) = true
     ∧ is_trading_hours init (wall_clock asia_jakarta 15 59 59) = true
     ∧ is_trading_hours init (wall_clock asia_jakarta 16 0 0) = false).
Proof.
  split.
  - intros self now. unfold is_trading_hours. cbv zeta.
    rewrite andb_true_iff, Z.leb_le, Z.ltb_lt. reflexivity.
  - repeat split; vm_compute; reflexivity.
Qed.

(** * Dispatcher *)

Section Dispatch.

Variable bot : Bot.

(** One turn of the loop of [send_volume_alert]. *)
Lemma send_volume_alert_turn (message : string) (group_id : Z)
    (t : list event) :
  try_except
    (send_message bot group_id message ;; mret tt)
    (λ e, logger_error "Error sending alert to" group_id e) t
  = match send_message_outcome bot t group_id message with
    | inr message_id =>
        (t ++ [SendMessage group_id message (inr message_id)], inr tt)
    | inl e =>
        (t ++ [SendMessage group_id message (inl e);
               LogError "Error sending alert to" group_id e], inr tt)
    end.
Proof.
  unfold try_except, mbind, io_bind, send_message, mret, io_ret,
    logger_error.
  destruct (send_message_outcome bot t group_id message) as [e|message_id];
    [|reflexivity].
  rewrite <- app_assoc. reflexivity.
Qed.

Lemma send_volume_alert_run (self : monitor) (message : string)
    (t : list event) :
  ∃ new : list event,
    send_volume_alert bot self message t = (t ++ new, inr tt)
    ∧ sent_to new = monitored_groups self
    ∧ logged new = failed new
    ∧ pins new = []
    ∧ Forall (λ d : Z * string, d.2 = message) (delivered new).
Proof.
  unfold send_volume_alert.
  generalize (monitored_groups self) as groups. intros groups. revert t.
  induction groups as [|group_id groups IH]; intros t.
  { exists []. rewrite app_nil_r. repeat split; constructor. }
  cbn [for_each]. unfold mbind at 1, io_bind at 1.
  rewrite send_volume_alert_turn.
  destruct (send_message_outcome bot t group_id message) as [e|message_id].
  - destruct (IH (t ++ [SendMessage group_id message (inl e);
                        LogError "Error sending alert to" group_id e]))
      as (new & -> & Hsent & Hlog & Hpin & Hdel).
    exists (SendMessage group_id message (inl e)
            :: LogError "Error sending alert to" group_id e :: new).
    rewrite <- app_assoc.
    unfold sent_to, logged, failed, pins, delivered in *. cbn.
    rewrite Hsent, Hlog, Hpin. auto.
  - destruct (IH (t ++ [SendMessage group_id message (inr message_id)]))
      as (new & -> & Hsent & Hlog & Hpin & Hdel).
    exists (SendMessage group_id message (inr message_id) :: new).
    rewrite <- app_assoc.
    unfold sent_to, logged, failed, pins, delivered in *. cbn.
    rewrite Hsent, Hlog, Hpin. repeat split; auto.
Qed.

(** One turn of the loop of [broadcast_message]. *)
Lemma broadcast_message_turn (text : string) (group_id : Z)
    (t : list event) :
  ∃ new : list event,
    try_except
      (message_id ← send_message bot group_id text;
       if group_id <? 0 then pin_chat_message bot group_id message_id
       else mret tt)
      (λ e, logger_error "Gagal kirim ke" group_id e) t
    = (t ++ new, inr tt)
    ∧ sent_to new = [group_id]
    ∧ logged new = failed new
    ∧ pins new = pins_due new.
Proof.
  unfold try_except, mbind, io_bind, send_message, pin_chat_message, mret,
    io_ret, logger_error.
  destruct (send_message_outcome bot t group_id text) as [e|message_id].
  { exists [SendMessage group_id text (inl e);
            LogError "Gagal kirim ke" group_id e].
    rewrite <- app_assoc. auto. }
  destruct (group_id <? 0) eqn:Hgroup.
  2:{ exists [SendMessage group_id text (inr message_id)].
      cbn. rewrite Hgroup. auto. }
  destruct (pin_chat_message_outcome bot _ group_id message_id) as [e|[]].
  - exists [SendMessage group_id text (inr message_id);
            PinChatMessage group_id message_id (inl e);
            LogError "Gagal kirim ke" group_id e].
    rewrite <- !app_assoc. cbn. rewrite Hgroup. auto.
  - exists [SendMessage group_id text (inr message_id);
            PinChatMessage group_id message_id (inr tt)].
    rewrite <- !app_assoc. cbn. rewrite Hgroup. auto.
Qed.

Lemma broadcast_message_run (self : monitor) (text : string)
    (t : list event) :
  ∃ new : list event,
    Alert.broadcast_message bot self text t = (t ++ new, inr tt)
    ∧ sent_to new = monitored_groups self
    ∧ logged new = failed new
    ∧ pins new = pins_due new.
Proof.
  unfold Alert.broadcast_message.
  generalize (monitored_groups self) as groups. intros groups. revert t.
  induction groups as [|group_id groups IH]; intros t.
  { exists []. rewrite app_nil_r. auto. }
  cbn [for_each]. unfold mbind at 1, io_bind at 1.
  destruct (broadcast_message_turn text group_id t)
    as (turn & -> & Hsent1 & Hlog1 & Hpin1).
  destruct (IH (t ++ turn)) as (new & -> & Hsent & Hlog & Hpin).
  exists (turn ++ new). rewrite <- app_assoc.
  unfold sent_to, logged, failed, pins, pins_due in *.
  rewrite !omap_app, Hsent1, Hlog1, Hpin1, Hsent, Hlog, Hpin. auto.
Qed.

End Dispatch.

(** C9, as stated, fails on the report: [send_volume_alert] has no [return],
    so what the caller receives is the same [None] whether or not a
    destination failed, and no reading of it tells the two runs apart. *)
Lemma send_volume_alert_returns_no_report :
  ¬ ∃ report_of : unit → list (Z * bool),
      ∀ bot : Bot,
        match run (send_volume_alert bot
                     (registered [chat_A; chat_B; chat_C]) "alert") with
        | (t, inr result) => report_of result = outcomes t
        | (_, inl _) => False
        end.
Proof.
  intros [report_of Hreport].
  pose proof (Hreport bot_ok) as Hok.
  pose proof (Hreport (bot_blocked chat_B)) as Hblocked.
  vm_compute in Hok, Hblocked.
  rewrite Hok in Hblocked. discriminate.
Qed.

(** C9, amended.  [send_volume_alert] calls [send_message] once for every
    registered destination, in order, whether or not earlier calls raised;
    every call that raises is written to the error log with the destination
    and the error, and nothing else is logged; the method always returns
    normally, and what it returns is [None]: the caller gets no report, the
    failures are in the log only.  For destinations A, B, C with B failing,
    A and C receive the message and the log has the one line for B. *)
Theorem send_volume_alert_isolates_failures :
  (∀ (bot : Bot) (self : monitor) (message : string) (t : list event),
     ∃ new : list event,
       send_volume_alert bot self message t = (t ++ new, inr tt)
       ∧ sent_to new = monitored_groups self
       ∧ logged new = failed new
       ∧ Forall (λ d : Z * string, d.2 = message) (delivered new))
  ∧ (let r := run (send_volume_alert (bot_blocked chat_B)
                     (registered [chat_A; chat_B; chat_C]) "alert") in
     r.2 = inr tt
     ∧ sent_to r.1 = [chat_A; chat_B; chat_C]
     ∧ delivered r.1 = [(chat_A, "alert"%string); (chat_C, "alert"%string)]
     ∧ outcomes r.1 = [(chat_A, true); (chat_B, false); (chat_C, true)]
     ∧ logged r.1 = [(chat_B, "Forbidden"%string)]).
Proof.
  split.
  - intros bot self message t.
    destruct (send_volume_alert_run bot self message t)
      as (new & Hrun & Hsent & Hlog & _ & Hdel).
    exists new. auto.
  - vm_compute. repeat split; reflexivity.
Qed.

(** C10, as stated, fails on the alert path: [send_volume_alert] delivers to
    a group (negative chat id) and never calls [pin_chat_message]. *)
Lemma send_volume_alert_does_not_pin :
  ¬ (∀ (bot : Bot) (self : monitor) (message : string),
       let t := (run (send_volume_alert bot self message)).1 in
       pins t = pins_due t).
Proof.
  intros Hpin.
  specialize (Hpin bot_ok (registered [chat_B]) "alert"%string).
  vm_compute in Hpin. discriminate.
Qed.

(** C10, amended.  [broadcast_message] of alert.py calls [send_message] once
    for every registered destination, in order; after each message delivered
    to a negative chat id, and only then, it calls [pin_chat_message] with
    the id of the delivered message; a pin that raises is logged like a send
    that raises, and the method still goes on to the remaining destinations
    and returns normally.  [send_volume_alert], which is what the monitor
    loop sends alerts with in both files, never pins. *)
Theorem broadcast_message_pins_groups :
  (∀ (bot : Bot) (self : monitor) (text : string) (t : list event),
     ∃ new : list event,
       Alert.broadcast_message bot self text t = (t ++ new, inr tt)
       ∧ sent_to new = monitored_groups self
       ∧ pins new = pins_due new
       ∧ logged new = failed new)
  ∧ (∀ (bot : Bot) (self : monitor) (message : string) (t : list event),
       ∃ new : list event,
         send_volume_alert bot self message t = (t ++ new, inr tt)
         ∧ pins new = [])
  ∧ (let r := run (Alert.broadcast_message bot_cannot_pin
                     (registered [chat_A; chat_B; chat_C]) "notice") in
     r.2 = inr tt
     ∧ delivered r.1 = [(chat_A, "notice"%string); (chat_B, "notice"%string);
                        (chat_C, "notice"%string)]
     ∧ pins r.1 = [(chat_B, 1)]
     ∧ logged r.1 = [(chat_B, "Not enough rights"%string)]).
Proof.
  split; [|split].
  - intros bot self text t.
    destruct (broadcast_message_run bot self text t)
      as (new & Hrun & Hsent & Hlog & Hpin).
    exists new. auto.
  - intros bot self message t.
    destruct (send_volume_alert_run bot self message t)
      as (new & Hrun & _ & _ & Hpin & _).
    exists new. auto.
  - vm_compute. repeat split; reflexivity.
Qed.

(** * The store step and the detector together *)

Lemma Qsum_app (l k : list Q) : (Qsum (l ++ k) == Qsum l + Qsum k)%Q.
Proof.
  induction l as [|x l IH]; cbn.
  - rewrite Qplus_0_l. reflexivity.
  - rewrite IH. apply Qplus_assoc.
Qed.

Lemma Qsum_nonneg (l : list Q) :
  Forall (λ x : Q, (0 <= x)%Q) l → (0 <= Qsum l)%Q.
Proof.
  induction 1 as [|x l Hx _ IH]; cbn; [apply Qle_refl|].
  replace 0%Q with (0 + 0)%Q by reflexivity. apply Qplus_le_compat; assumption.
Qed.

Lemma since_Forall (P : sample → Prop) (cutoff_time : timestamp)
    (history : list sample) :
  Forall P history → Forall P (since cutoff_time history).
Proof.
  rewrite !Forall_forall. intros Hall entry Hin.
  apply elem_of_since in Hin as [_ Hin]. auto.
Qed.

Lemma since_volumes_nonneg (cutoff_time : timestamp)
    (history : list sample) :
  Forall (λ entry : sample, (0 <= entry.2)%Q) history →
  Forall (λ x : Q, (0 <= x)%Q) (since cutoff_time history).*2.
Proof.
  intros Hall. apply Forall_fmap. apply since_Forall. exact Hall.
Qed.



(** X2.  Because the current sample is averaged with the others, the ratio
    of the current volume to the average cannot exceed the number of samples
    in the window when volumes are not negative: an alert needs at least as
    many samples in the window as the threshold (two, for the threshold 2.0),
    in both files. *)
Theorem alert_needs_threshold_many_samples (self : monitor)
    (symbol : string) (current_time now : timestamp) (volume : Q) :
  Forall (λ entry : sample, (0 <= entry.2)%Q) (history_of self symbol) →
  (0 <= volume)%Q →
  now - timedelta_minutes (avg_window_minutes self) ≤ current_time →
  let stored := store_volume self symbol current_time volume in
  let n := inject_Z (Z.of_nat (length (recent_volumes stored symbol now))) in
  (¬ (calculate_average_volume stored symbol now == 0)%Q →
   (volume / calculate_average_volume stored symbol now <= n)%Q)
  ∧ (Haha.should_alert stored symbol now volume = true →
     (volume_threshold self <= n)%Q)
  ∧ (Alert.should_alert stored symbol now volume = true →
     (volume_threshold self <= n)%Q).
Proof.
  intros Hold Hv Hwin stored n.
  assert (Hrecent :
    recent_volumes stored symbol now
    = (since (now - timedelta_minutes (avg_window_minutes self))
         (since (current_time - timedelta_hours 4)
            (history_of self symbol))).*2
      ++ [volume]).
  { unfold stored, recent_volumes. rewrite history_of_store_volume.
    rewrite since_snoc_kept by apply horizon_before_now.
    change (avg_window_minutes (store_volume self symbol current_time volume))
      with (avg_window_minutes self).
    rewrite since_snoc_kept by exact Hwin.
    rewrite fmap_app. reflexivity. }
  assert (Hratio : ¬ (calculate_average_volume stored symbol now == 0)%Q →
            (volume / calculate_average_volume stored symbol now <= n)%Q).
  { intros Havg.
    assert (Hbase : ¬ no_baseline stored symbol now).
    { intros Hn. apply Havg.
      rewrite (average_without_baseline stored symbol now Hn). reflexivity. }
    destruct (average_with_baseline stored symbol now Hbase)
      as (_ & Hlen & Hmean).
    fold n in Hmean.
    set (avg := calculate_average_volume stored symbol now) in *.
    assert (Hsum : (volume <= Qsum (recent_volumes stored symbol now))%Q).
    { rewrite Hrecent, Qsum_app. cbn. rewrite Qplus_0_r.
      rewrite <- (Qplus_0_l volume) at 1.
      apply Qplus_le_compat; [|apply Qle_refl].
      apply Qsum_nonneg, since_volumes_nonneg.
      apply since_Forall. exact Hold. }
    assert (Hn0 : (0 < n)%Q).
    { unfold n. change 0%Q with (inject_Z 0).
      rewrite <- Zlt_Qlt. cbv zeta in Hlen. lia. }
    assert (Havg0 : (0 < avg)%Q).
    { destruct (Qlt_le_dec 0 avg) as [Hpos|Hneg]; [exact Hpos|].
      exfalso. apply Havg. apply Qle_antisym; [exact Hneg|].
      assert (H0 : (0 <= avg * n)%Q).
      { rewrite Hmean. eapply Qle_trans; [exact Hv|exact Hsum]. }
      destruct (Qlt_le_dec avg 0) as [Hlt|Hge]; [|exact Hge].
      exfalso. apply (Qlt_not_le (avg * n) 0); [|exact H0].
      rewrite Qmult_comm.
      rewrite <- (Qmult_0_r n). apply Qmult_lt_l; assumption. }
    apply Qle_shift_div_r; [exact Havg0|].
    rewrite Qmult_comm, Hmean. exact Hsum. }
  assert (Hhaha : Haha.should_alert stored symbol now volume = true →
            (volume_threshold self <= n)%Q).
  { intros Halert.
    destruct (Qeq_dec (calculate_average_volume stored symbol now) 0)
      as [Hz|Hnz].
    - rewrite (haha_no_baseline stored symbol now volume Hz) in Halert.
      discriminate.
    - apply (haha_ratio stored symbol now volume Hnz) in Halert.
      eapply Qle_trans; [exact Halert|apply Hratio; exact Hnz]. }
  split; [exact Hratio|]. split; [exact Hhaha|].
  intros Halert. apply Hhaha.
  rewrite alert_is_floor_and_haha in Halert.
  apply andb_true_iff in Halert. tauto.
Qed.

Lemma alert_needs_threshold_many_samples_witness :
  let stored :=
    store_volume (tracking [(noon_minus 30, 10000%Q)]) "X" noon 95000 in
  (95000 / calculate_average_volume stored "X" noon <= 2)%Q
  ∧ Alert.should_alert stored "X" noon 95000 = false.
Proof.
  intros stored. split; [|reflexivity].
  assert (Hold : Forall (λ entry : sample, (0 <= entry.2)%Q)
                   (history_of (tracking [(noon_minus 30, 10000%Q)]) "X")).
  { repeat constructor. cbn. discriminate. }
  assert (Hv : (0 <= 95000)%Q) by discriminate.
  assert (Hwin : noon - timedelta_minutes
                   (avg_window_minutes (tracking [(noon_minus 30, 10000%Q)]))
                 ≤ noon) by (vm_compute; discriminate).
  assert (Havg : ¬ (calculate_average_volume stored "X" noon == 0)%Q)
    by (vm_compute; discriminate).
  exact (proj1 (alert_needs_threshold_many_samples
                  (tracking [(noon_minus 30, 10000%Q)]) "X" noon noon 95000
                  Hold Hv Hwin) Havg).
Defined.

Lemma since_since (early late : timestamp) (history : list sample) :
  early ≤ late →
  since late (since early history) = since late history.
Proof.
  intros Hle. unfold since.
  induction history as [|entry history IH]; [reflexivity|].
  rewrite !filter_cons.
  destruct (decide (early ≤ entry.1)) as [He|He];
    destruct (decide (late ≤ entry.1)) as [Hl|Hl]; try lia.
  - rewrite filter_cons. destruct (decide (late ≤ entry.1)); [|lia].
    rewrite IH. reflexivity.
  - rewrite filter_cons. destruct (decide (late ≤ entry.1)); [lia|].
    exact IH.
  - exact IH.
Qed.

(** X24.  Pruning and averaging fit together.  When the averaging window
    lies inside the four hours that the store step keeps and the stored
    sample is inside the window, the volumes averaged after the store step
    are the ones the window selects from the history before it, followed by
    the current volume: pruning takes nothing out of the window.  The
    average is the sentinel 0 exactly when no earlier sample of the last
    four hours is left; a symbol whose earlier samples are all older than
    the window but younger than four hours gets the current volume itself as
    its average. *)
Theorem pruning_spares_the_window (self : monitor) (symbol : string)
    (current_time now : timestamp) (volume : Q) :
  now - timedelta_minutes (avg_window_minutes self) ≤ current_time →
  current_time - timedelta_hours 4
  ≤ now - timedelta_minutes (avg_window_minutes self) →
  let stored := store_volume self symbol current_time volume in
  let kept := since (current_time - timedelta_hours 4) (history_of self symbol)
  in
  recent_volumes stored symbol now
  = recent_volumes self symbol now ++ [volume]
  ∧ (kept = [] → calculate_average_volume stored symbol now = 0%Q)
  ∧ (kept ≠ [] →
     calculate_average_volume stored symbol now
     = np_mean (recent_volumes self symbol now ++ [volume]))
  ∧ (kept ≠ [] → recent_volumes self symbol now = [] →
     (calculate_average_volume stored symbol now == volume)%Q).
Proof.
  intros Hwin Hret stored kept.
  assert (Hhist : history_of stored symbol = kept ++ [(current_time, volume)]).
  { unfold stored, kept. rewrite history_of_store_volume.
    apply since_snoc_kept, horizon_before_now. }
  assert (Hrecent : recent_volumes stored symbol now
                    = recent_volumes self symbol now ++ [volume]).
  { unfold recent_volumes. rewrite Hhist.
    change (avg_window_minutes stored) with (avg_window_minutes self).
    rewrite since_snoc_kept by exact Hwin.
    unfold kept. rewrite since_since by exact Hret.
    rewrite fmap_app. reflexivity. }
  assert (Hmean : kept ≠ [] →
            calculate_average_volume stored symbol now
            = np_mean (recent_volumes self symbol now ++ [volume])).
  { intros Hkept.
    destruct (average_with_baseline stored symbol now) as (Hc & _ & _).
    - unfold no_baseline. rewrite Hrecent, Hhist.
      intros [Hk|[Hs|Hw]].
      + unfold stored, store_volume in Hk. cbn in Hk.
        rewrite lookup_insert_eq in Hk. discriminate.
      + rewrite length_app in Hs. cbn in Hs.
        destruct kept; [congruence|cbn in Hs; lia].
      + destruct (recent_volumes self symbol now); discriminate.
    - rewrite Hc, Hrecent. reflexivity. }
  split; [exact Hrecent|]. split; [|split; [exact Hmean|]].
  - intros Hkept. apply calculate_average_volume_short.
    rewrite Hhist, Hkept. cbn. lia.
  - intros Hkept Hnone. rewrite (Hmean Hkept), Hnone.
    unfold np_mean. cbn. rewrite Qplus_0_r.
    unfold Qdiv. change (/ inject_Z 1)%Q with 1%Q. apply Qmult_1_r.
Qed.

Lemma pruning_spares_the_window_witness :
  (calculate_average_volume
     (store_volume (tracking [(noon_minus 180, 10000%Q)]) "X" noon 95000)
     "X" noon == 95000)%Q.
Proof.
  assert (Hwin : noon - timedelta_minutes
                   (avg_window_minutes (tracking [(noon_minus 180, 10000%Q)]))
                 ≤ noon) by (vm_compute; discriminate).
  assert (Hret : noon - timedelta_hours 4
                 ≤ noon - timedelta_minutes
                     (avg_window_minutes
                        (tracking [(noon_minus 180, 10000%Q)])))
    by (vm_compute; discriminate).
  apply (proj2 (proj2 (proj2
           (pruning_spares_the_window
              (tracking [(noon_minus 180, 10000%Q)]) "X" noon noon 95000
              Hwin Hret)))).
  - vm_compute. discriminate.
  - vm_compute. reflexivity.
Defined.

(** * The polling loop *)

Lemma dispatched_app (t1 t2 : list activity) :
  dispatched (t1 ++ t2) = dispatched t1 ++ dispatched t2.
Proof. apply omap_app. Qed.

Lemma data_errors_app (t1 t2 : list activity) :
  data_errors (t1 ++ t2) = data_errors t1 ++ data_errors t2.
Proof. apply omap_app. Qed.

Lemma dispatched_Dispatch (l : list event) : dispatched (Dispatch <$> l) = l.
Proof.
  unfold dispatched. induction l as [|ev l IH]; [reflexivity|].
  cbn. f_equal. exact IH.
Qed.

Lemma data_errors_Dispatch (l : list event) :
  data_errors (Dispatch <$> l) = [].
Proof. induction l as [|ev l IH]; [reflexivity|]. exact IH. Qed.

(** Activities are calls and lines of the dispatcher or lines of
    [get_stock_data], nothing else. *)
Lemma no_activity (t : list activity) :
  dispatched t = [] → data_errors t = [] → t = [].
Proof. destruct t as [|[ev|symbol e] t]; cbn; [reflexivity|discriminate..]. Qed.

(** A run of the dispatcher inside the loop adds what the run adds. *)
Lemma dispatch_run {A} (m : io A) (t : list activity) (new : list event)
    (r : exn + A) :
  m (dispatched t) = (dispatched t ++ new, r) →
  dispatch m t = (t ++ (Dispatch <$> new), r).
Proof.
  intros Hrun. unfold dispatch. rewrite Hrun.
  rewrite drop_app_length. reflexivity.
Qed.

Lemma data_source_failures_cons (observe : nat → string → observation)
    (i : nat) (symbol : string) (rest : list string) :
  data_source_failures observe i (symbol :: rest)
  = match obs_data (observe i symbol) with
    | YfRaises e => [(symbol, e)]
    | _ => []
    end
    ++ data_source_failures observe (S i) rest.
Proof.
  unfold data_source_failures. rewrite imap_cons. cbn [omap].
  rewrite Nat.add_0_r.
  replace (imap _ rest)
    with (imap (λ (k : nat) (symbol0 : string),
                  match obs_data (observe (S i + k)%nat symbol0) with
                  | YfRaises e => Some (symbol0, e)
                  | _ => None
                  end) rest).
  2:{ apply imap_ext. intros k x _. cbn. rewrite Nat.add_succ_r.
      reflexivity. }
  destruct (obs_data (observe i symbol)); reflexivity.
Qed.

Section MonitorLoopFacts.

Variable should_alert : monitor → string → timestamp → Q → bool.
Variable format_alert : string → quote → Q → timestamp → string.
Variable bot : Bot.

(** What a turn for one symbol does to the state and to the world. *)
Lemma monitor_symbol_run (symbol : string) (obs : observation)
    (self : StockVolumeMonitor) (t : list activity) :
  ∃ (new : list activity) (self' : StockVolumeMonitor),
    monitor_symbol should_alert format_alert bot symbol obs self t
    = (t ++ new, inr self')
    ∧ settings self' = settings self
    ∧ pins (dispatched new) = []
    ∧ logged (dispatched new) = failed (dispatched new)
    ∧ data_errors new
      = match obs_data obs with
        | YfRaises e => [(symbol, e)]
        | _ => []
        end
    ∧ (∀ g : Z,
         g ∈ sent_to (dispatched new) → g ∈ monitored_groups (core self))
    ∧ (∀ other : string, other ≠ symbol →
         history_of (core self') other = history_of (core self) other
         ∧ stock_data self' !! other = stock_data self !! other).
Proof.
  unfold monitor_symbol, get_stock_data.
  destruct (obs_data obs) as [e| |latest].
  - exists [LogDataError symbol e], self. cbn.
    split_and!; auto. intros g Hg. inversion Hg.
  - exists [], self. cbn. rewrite app_nil_r.
    split_and!; auto. intros g Hg. inversion Hg.
  - unfold mbind, polling_bind, mret, polling_ret. cbv zeta.
    set (data := {| data_symbol := symbol; data_price := bar_close latest;
                    data_volume := bar_volume latest;
                    data_timestamp := bar_index latest;
                    data_high := bar_high latest; data_low := bar_low latest;
                    data_open := bar_open latest |}).
    set (stored := store_volume (core self) symbol (obs_current_time obs)
                     (data_volume data)).
    destruct (should_alert stored symbol (obs_now_check obs)
                (data_volume data)).
    + destruct (send_volume_alert_run bot stored
                  (format_alert symbol data
                     (data_volume data
                      / calculate_average_volume stored symbol
                          (obs_now_ratio obs))%Q (obs_now_alert obs))
                  (dispatched t))
        as (new & Hrun & Hsent & Hlog & Hpin & _).
      rewrite (dispatch_run _ _ _ _ Hrun).
      exists (Dispatch <$> new). eexists. split; [reflexivity|].
      rewrite dispatched_Dispatch, data_errors_Dispatch.
      split_and!; auto.
      * intros g Hg. rewrite Hsent in Hg. exact Hg.
      * intros other Hother. split.
        -- cbn. apply history_of_store_volume_other. assumption.
        -- cbn. apply lookup_insert_ne. congruence.
    + exists []. eexists. rewrite app_nil_r.
      split; [reflexivity|]. cbn [dispatched data_errors omap].
      split_and!; auto.
      * intros g Hg. inversion Hg.
      * intros other Hother. split.
        -- cbn. apply history_of_store_volume_other. assumption.
        -- cbn. apply lookup_insert_ne. congruence.
Qed.

Lemma monitor_symbols_run (observe : nat → string → observation)
    (symbols : list string) (i : nat) (self : StockVolumeMonitor)
    (t : list activity) :
  ∃ (new : list activity) (self' : StockVolumeMonitor),
    monitor_symbols should_alert format_alert bot observe i symbols self t
    = (t ++ new, inr self')
    ∧ settings self' = settings self
    ∧ pins (dispatched new) = []
    ∧ logged (dispatched new) = failed (dispatched new)
    ∧ data_errors new = data_source_failures observe i symbols
    ∧ (∀ g : Z,
         g ∈ sent_to (dispatched new) → g ∈ monitored_groups (core self))
    ∧ (∀ other : string, other ∉ symbols →
         history_of (core self') other = history_of (core self) other
         ∧ stock_data self' !! other = stock_data self !! other).
Proof.
  revert i self t.
  induction symbols as [|symbol rest IH]; intros i self t.
  { exists [], self. cbn. rewrite app_nil_r. split_and!; auto.
    intros g Hg. inversion Hg. }
  cbn [monitor_symbols]. unfold mbind at 1, polling_bind at 1.
  destruct (monitor_symbol_run symbol (observe i symbol) self t)
    as (new1 & self1 & -> & Hset1 & Hpin1 & Hlog1 & Herr1 & Hsent1 & Hframe1).
  destruct (IH (S i) self1 (t ++ new1))
    as (new2 & self2 & -> & Hset2 & Hpin2 & Hlog2 & Herr2 & Hsent2 & Hframe2).
  exists (new1 ++ new2), self2. rewrite <- app_assoc.
  split; [reflexivity|]. split; [congruence|].
  rewrite dispatched_app, data_errors_app, data_source_failures_cons,
    Herr1, Herr2.
  unfold pins, logged, failed, sent_to in *.
  rewrite !omap_app, Hpin1, Hpin2, Hlog1, Hlog2.
  split_and!; auto.
  - intros g Hg. apply elem_of_app in Hg as [Hg|Hg]; [auto|].
    apply Hsent2 in Hg.
    assert (Hgroups : monitored_groups (core self1)
                      = monitored_groups (core self))
      by (unfold settings in Hset1; congruence).
    rewrite <- Hgroups. exact Hg.
  - intros other Hother.
    apply not_elem_of_cons in Hother as [Hne Hrest]. split.
    + rewrite (proj1 (Hframe2 other Hrest)). apply Hframe1. exact Hne.
    + rewrite (proj2 (Hframe2 other Hrest)). apply Hframe1. exact Hne.
Qed.

End MonitorLoopFacts.

(** X3.  A turn of the loop for one symbol always returns normally,
    whatever the data source and the bot do.  When the data source raises,
    [get_stock_data] writes one line to the log and nothing else happens;
    when the frame is empty nothing happens at all.  With data the sample is
    stored, the latest data are recorded under the symbol whether or not an
    alert goes out, nothing is logged by [get_stock_data], and
    [send_message] is called once for every registered chat, in order, when
    the detector fires on the stored history, and not at all when it does
    not. *)
Theorem monitor_symbol_alerts_iff_detector
    (should_alert : monitor → string → timestamp → Q → bool)
    (format_alert : string → quote → Q → timestamp → string) (bot : Bot)
    (symbol : string) (obs : observation) (self : StockVolumeMonitor)
    (t : list activity) :
  ∃ (new : list activity) (self' : StockVolumeMonitor),
    monitor_symbol should_alert format_alert bot symbol obs self t
    = (t ++ new, inr self')
    ∧ match obs_data obs with
      | YfRaises e => new = [LogDataError symbol e] ∧ self' = self
      | YfEmpty => new = [] ∧ self' = self
      | YfLatest latest =>
          let stored :=
            store_volume (core self) symbol (obs_current_time obs)
              (bar_volume latest) in
          core self' = stored
          ∧ stock_data self' !! symbol
            = Some {| data_symbol := symbol;
                      data_price := bar_close latest;
                      data_volume := bar_volume latest;
                      data_timestamp := bar_index latest;
                      data_high := bar_high latest;
                      data_low := bar_low latest;
                      data_open := bar_open latest |}
          ∧ data_errors new = []
          ∧ sent_to (dispatched new)
            = (if should_alert stored symbol (obs_now_check obs)
                    (bar_volume latest)
               then monitored_groups (core self) else [])
      end.
Proof.
  unfold monitor_symbol, get_stock_data.
  destruct (obs_data obs) as [e| |latest].
  - exists [LogDataError symbol e], self. cbn. auto.
  - exists [], self. cbn. rewrite app_nil_r. auto.
  - cbv zeta. unfold mbind, polling_bind, mret, polling_ret.
    cbn [data_volume].
    destruct (should_alert _ symbol (obs_now_check obs) (bar_volume latest)).
    + match goal with
      | |- context [dispatch (send_volume_alert bot ?stored ?message) t] =>
          destruct (send_volume_alert_run bot stored message (dispatched t))
            as (new & Hrun & Hsent & _);
          rewrite (dispatch_run _ _ _ _ Hrun)
      end.
      exists (Dispatch <$> new). eexists. split; [reflexivity|].
      rewrite dispatched_Dispatch, data_errors_Dispatch. cbn.
      rewrite lookup_insert_eq. auto.
    + exists []. eexists. rewrite app_nil_r.
      split; [reflexivity|]. cbn. rewrite lookup_insert_eq. auto.
Qed.

(** X4.  A turn of the outer loop never ends in an exception, whatever the
    bot and the data source do.  It leaves the configuration, the registered
    chats, the tracked symbols and the access lists as they were, touches
    the history and the latest data of tracked symbols only, sends to
    registered chats only and never pins.  What it logs is one line of the
    dispatcher for each send that failed, and one line of [get_stock_data]
    for each tracked symbol whose data source raised, in the order of the
    symbols.  Outside trading hours it does nothing and sleeps 300 seconds;
    inside, it sleeps [monitoring_interval]. *)
Theorem monitor_iteration_is_safe
    (should_alert : monitor → string → timestamp → Q → bool)
    (format_alert : string → quote → Q → timestamp → string) (bot : Bot)
    (now : timestamp) (observe : nat → string → observation)
    (self : StockVolumeMonitor) (t : list activity) :
  ∃ (new : list activity) (self' : StockVolumeMonitor) (pause : Z),
    monitor_iteration should_alert format_alert bot now observe self t
    = (t ++ new, inr (self', pause))
    ∧ settings self' = settings self
    ∧ pins (dispatched new) = []
    ∧ logged (dispatched new) = failed (dispatched new)
    ∧ data_errors new
      = (if is_trading_hours (core self) now
         then data_source_failures observe 0 (popular_stocks self)
         else [])
    ∧ (∀ g : Z,
         g ∈ sent_to (dispatched new) → g ∈ monitored_groups (core self))
    ∧ (∀ other : string, other ∉ popular_stocks self →
         history_of (core self') other = history_of (core self) other
         ∧ stock_data self' !! other = stock_data self !! other)
    ∧ (if is_trading_hours (core self) now
       then pause = monitoring_interval (core self)
       else new = [] ∧ self' = self ∧ pause = 300).
Proof.
  unfold monitor_iteration.
  destruct (is_trading_hours (core self) now); cbn [negb].
  2:{ exists [], self, 300. cbn. rewrite app_nil_r. split_and!; auto.
      intros g Hg. inversion Hg. }
  unfold mbind, polling_bind.
  destruct (monitor_symbols_run should_alert format_alert bot observe
              (popular_stocks self) 0 self t)
    as (new & self' & -> & Hset & Hpin & Hlog & Herr & Hsent & Hframe).
  exists new, self', (monitoring_interval (core self')).
  split; [reflexivity|]. split_and!; auto.
  unfold settings in Hset. congruence.
Qed.

(** A detector that is silent on the no-data average does not reach the
    dispatcher on a pass over symbols without history. *)
Lemma first_samples_are_silent
    (should_alert : monitor → string → timestamp → Q → bool)
    (format_alert : string → quote → Q → timestamp → string) (bot : Bot)
    (observe : nat → string → observation) :
  (∀ (m : monitor) (symbol : string) (now : timestamp) (v : Q),
     calculate_average_volume m symbol now = 0%Q →
     should_alert m symbol now v = false) →
  ∀ (symbols : list string) (i : nat) (self : StockVolumeMonitor)
    (t : list activity),
    NoDup symbols →
    (∀ symbol : string,
       symbol ∈ symbols → history_of (core self) symbol = []) →
    ∃ new : list activity,
      (monitor_symbols should_alert format_alert bot observe i symbols
         self t).1 = t ++ new
      ∧ dispatched new = []
      ∧ data_errors new = data_source_failures observe i symbols.
Proof.
  intros Hsilent symbols.
  induction symbols as [|symbol rest IH]; intros i self t Hnodup Hfresh.
  { exists []. cbn. rewrite app_nil_r. auto. }
  apply NoDup_cons in Hnodup as [Hnotin Hnodup].
  cbn [monitor_symbols]. unfold mbind at 1, polling_bind at 1.
  destruct (monitor_symbol_run should_alert format_alert bot symbol
              (observe i symbol) self t)
    as (new1 & self1 & Hrun & _ & _ & _ & Herr1 & _ & Hframe).
  assert (Hquiet : dispatched new1 = []).
  { revert Hrun. unfold monitor_symbol, get_stock_data.
    destruct (obs_data (observe i symbol)) as [e| |latest].
    - cbn. intros Hrun. inversion Hrun as [[Ht Hs]].
      apply app_inv_head in Ht. subst new1. reflexivity.
    - cbn. intros Hrun. inversion Hrun as [[Ht Hs]].
      rewrite <- (app_nil_r t) in Ht at 1.
      apply app_inv_head in Ht. subst new1. reflexivity.
    - cbv zeta. unfold mbind, polling_bind, mret, polling_ret.
      rewrite Hsilent.
      + intros Hrun. inversion Hrun as [[Ht Hs]].
        rewrite <- (app_nil_r t) in Ht at 1.
        apply app_inv_head in Ht. subst new1. reflexivity.
      + apply calculate_average_volume_short.
        rewrite history_of_store_volume, (Hfresh symbol) by constructor.
        eapply Nat.le_lt_trans; [apply length_since|]. cbn. lia. }
  rewrite Hrun.
  destruct (IH (S i) self1 (t ++ new1) Hnodup) as (new2 & Hrun2 & Hd2 & He2).
  { intros other Hother.
    rewrite (proj1 (Hframe other ltac:(intros ->; contradiction))).
    apply Hfresh. constructor. exact Hother. }
  exists (new1 ++ new2). rewrite Hrun2, <- app_assoc.
  rewrite dispatched_app, data_errors_app, data_source_failures_cons,
    Hquiet, Hd2, Herr1, He2.
  auto.
Qed.

(** X5.  The first polling cycle of a monitor does not reach the bot: when
    no tracked symbol has history yet and no symbol is tracked twice, one
    turn of the outer loop makes no call of the bot and writes no line of
    the dispatcher, with the detector of either file, whatever volumes the
    data source reports.  All it adds to the log is the line of
    [get_stock_data] for each tracked symbol whose data source raised; when
    none raised, the turn leaves no trace at all. *)
Theorem first_cycle_is_silent
    (format_alert : string → quote → Q → timestamp → string) (bot : Bot)
    (now : timestamp) (observe : nat → string → observation)
    (self : StockVolumeMonitor) (t : list activity) :
  NoDup (popular_stocks self) →
  (∀ symbol : string,
     symbol ∈ popular_stocks self → history_of (core self) symbol = []) →
  let silent (run : list activity * (exn + StockVolumeMonitor * Z)) :=
    ∃ new : list activity,
      run.1 = t ++ new
      ∧ dispatched new = []
      ∧ data_errors new
        = (if is_trading_hours (core self) now
           then data_source_failures observe 0 (popular_stocks self)
           else [])
      ∧ (data_source_failures observe 0 (popular_stocks self) = [] →
         new = []) in
  silent (monitor_iteration Alert.should_alert format_alert bot now observe
            self t)
  ∧ silent (monitor_iteration Haha.should_alert format_alert bot now observe
              self t).
Proof.
  intros Hnodup Hfresh silent.
  assert (Hhaha : ∀ (m : monitor) (symbol : string) (now' : timestamp)
                    (v : Q),
            calculate_average_volume m symbol now' = 0%Q →
            Haha.should_alert m symbol now' v = false).
  { intros m symbol now' v Havg. apply haha_no_baseline.
    rewrite Havg. reflexivity. }
  assert (Halert : ∀ (m : monitor) (symbol : string) (now' : timestamp)
                     (v : Q),
            calculate_average_volume m symbol now' = 0%Q →
            Alert.should_alert m symbol now' v = false).
  { intros m symbol now' v Havg.
    rewrite alert_is_floor_and_haha, (Hhaha m symbol now' v Havg).
    apply andb_false_r. }
  assert (Hany : ∀ should_alert : monitor → string → timestamp → Q → bool,
            (∀ (m : monitor) (symbol : string) (now' : timestamp) (v : Q),
               calculate_average_volume m symbol now' = 0%Q →
               should_alert m symbol now' v = false) →
            silent (monitor_iteration should_alert format_alert bot now
                      observe self t)).
  { intros should_alert Hsilent. unfold silent, monitor_iteration.
    destruct (is_trading_hours (core self) now); cbn [negb].
    2:{ exists []. cbn. rewrite app_nil_r. auto. }
    unfold mbind, polling_bind.
    destruct (first_samples_are_silent should_alert format_alert bot observe
                Hsilent (popular_stocks self) 0 self t Hnodup Hfresh)
      as (new & Hrun & Hd & He).
    exists new. split_and!; auto.
    - destruct (monitor_symbols should_alert _ _ _ _ _ _ t) as [ta [ea|sa]];
        exact Hrun.
    - intros Hnone. apply no_activity; [exact Hd|]. rewrite He. exact Hnone. }
  split; apply Hany; assumption.
Qed.

(** * Commands and access control of the bot (haha.py) *)

Lemma list_ascii_of_string_app (s1 s2 : string) :
  Stdlib.Strings.String.list_ascii_of_string (s1 +:+ s2)
  = Stdlib.Strings.String.list_ascii_of_string s1
    ++ Stdlib.Strings.String.list_ascii_of_string s2.
Proof.
  induction s1 as [|c s1 IH]; [reflexivity|].
  change (String c s1 +:+ s2) with (String c (s1 +:+ s2)).
  cbn [Stdlib.Strings.String.list_ascii_of_string]. rewrite IH. reflexivity.
Qed.

Lemma endswith_app (s suffix : string) : endswith (s +:+ suffix) suffix = true.
Proof.
  unfold endswith. apply bool_decide_eq_true.
  rewrite list_ascii_of_string_app. apply suffix_app_r. reflexivity.
Qed.

Lemma stock_code_of_endswith (upper : string → string) (word : string) :
  endswith (stock_code_of upper word) ".JK" = true.
Proof.
  unfold stock_code_of.
  destruct (endswith (upper word) ".JK") eqn:E; cbn [negb]; [exact E|].
  apply endswith_app.
Qed.

Lemma remove_first_not_in {A} `{EqDecision A} (x : A) (l : list A) :
  x ∉ l → remove_first x l = l.
Proof.
  induction l as [|y l IH]; [reflexivity|].
  intros Hnotin. apply not_elem_of_cons in Hnotin as [Hne Hnotin].
  cbn. destruct (decide (x = y)); [contradiction|]. rewrite IH; auto.
Qed.

Lemma remove_first_snoc {A} `{EqDecision A} (x : A) (l : list A) :
  x ∉ l → remove_first x (l ++ [x]) = l.
Proof.
  induction l as [|y l IH]; intros Hnotin; cbn.
  - destruct (decide (x = x)); [reflexivity|contradiction].
  - apply not_elem_of_cons in Hnotin as [Hne Hnotin].
    destruct (decide (x = y)); [contradiction|]. rewrite IH; auto.
Qed.

Lemma elem_of_remove_first {A} `{EqDecision A} (x y : A) (l : list A) :
  y ∈ remove_first x l → y ∈ l.
Proof.
  induction l as [|z l IH]; cbn; [auto|].
  destruct (decide (x = z)) as [->|Hne].
  - intros Hin. right. exact Hin.
  - intros Hin. apply elem_of_cons in Hin as [->|Hin]; [left|right; auto].
Qed.

Lemma remove_first_NoDup {A} `{EqDecision A} (x : A) (l : list A) :
  NoDup l → NoDup (remove_first x l) ∧ x ∉ remove_first x l.
Proof.
  induction 1 as [|y l Hnotin Hnodup IH]; cbn.
  - split; [constructor|apply not_elem_of_nil].
  - destruct (decide (x = y)) as [->|Hne]; [auto|].
    destruct IH as [IH1 IH2]. split.
    + constructor; [|exact IH1].
      intros Hin. apply Hnotin. eapply elem_of_remove_first. exact Hin.
    + apply not_elem_of_cons. auto.
Qed.

Lemma remove_first_Forall {A} `{EqDecision A} (P : A → Prop) (x : A)
    (l : list A) :
  Forall P l → Forall P (remove_first x l).
Proof.
  rewrite !Forall_forall. intros Hall y Hin.
  apply Hall. eapply elem_of_remove_first. exact Hin.
Qed.

Section CommandFacts.

Variable upper : string → string.
Variable int : string → option Z.

(** The bodies of the commands that do not belong to the whitelist leave the
    access lists and the file alone. *)
Lemma gated_bodies_keep_access (self : StockVolumeMonitor) (req : request)
    (file : disk) (func : handler) :
  func ∈ [start_command; help_command; status_command;
          add_stock_command upper; remove_stock_command upper;
          list_stocks_command] →
  access (func self req file).1.1 = access self
  ∧ (func self req file).1.2 = file.
Proof.
  intros Hin.
  repeat (apply elem_of_cons in Hin as [->|Hin]); [..|inversion Hin];
    unfold start_command, help_command, status_command, add_stock_command,
      remove_stock_command, list_stocks_command;
    repeat case_match; auto.
Qed.

Lemma whitelist_required_cases (func : handler) (self : StockVolumeMonitor)
    (req : request) (file : disk) :
  whitelist_required func self req file = func self req file
  ∨ whitelist_required func self req file = (self, file, ReplyAccessDenied).
Proof. unfold whitelist_required. repeat case_match; auto. Qed.

End CommandFacts.

(** X6.  Only an admin can change who may use the bot: whatever registered
    command a sender who is not an admin issues, with whatever words, the
    admins, the whitelisted users and groups and the enabled flag stay as
    they were, and so does [whitelist.json]. *)
Theorem only_admins_change_access (upper : string → string)
    (int : string → option Z) (name : string) (h : handler)
    (self : StockVolumeMonitor) (req : request) (file : disk) :
  (name, h) ∈ setup_handlers upper int →
  effective_user_id req ∉ admin_ids self →
  access (h self req file).1.1 = access self
  ∧ (h self req file).1.2 = file.
Proof.
  intros Hin Hnot.
  assert (Hadmin : bool_decide (effective_user_id req ∈ admin_ids self)
                   = false) by (apply bool_decide_eq_false; exact Hnot).
  unfold setup_handlers in Hin.
  repeat (apply elem_of_cons in Hin as [Hin|Hin];
          [injection Hin as -> ->|]); [..|inversion Hin].
  all: try match goal with
           | |- context [whitelist_required ?f ?s ?r ?d] =>
               destruct (whitelist_required_cases f s r d) as [-> | ->];
               [apply (gated_bodies_keep_access upper); set_solver|now auto]
           end.
  all: try (unfold admin_only; cbv zeta; rewrite Hadmin; auto).
  unfold admin_help_command. cbv zeta. rewrite Hadmin. auto.
Qed.

Lemma only_admins_change_access_witness :
  (pair "add_stock" (whitelist_required (add_stock_command upper_ascii))
   ∈ setup_handlers upper_ascii int_decimal)
  ∧ (777 ∉ admin_ids fresh_bot)
  ∧ (whitelist_required (add_stock_command upper_ascii) fresh_bot
       (request_of 777 777 ["goto"%string]) None).2 = ReplyAccessDenied
  ∧ access
      (whitelist_required (add_stock_command upper_ascii) fresh_bot
         (request_of 777 777 ["goto"%string]) None).1.1
    = access fresh_bot.
Proof.
  assert (Hin : pair "add_stock"
                  (whitelist_required (add_stock_command upper_ascii))
                ∈ setup_handlers upper_ascii int_decimal).
  { unfold setup_handlers. do 3 right. left. }
  assert (Hnot : effective_user_id (request_of 777 777 ["goto"%string])
                 ∉ admin_ids fresh_bot).
  { apply (proj1 (bool_decide_eq_false _)). vm_compute. reflexivity. }
  split; [exact Hin|]. split; [exact Hnot|]. split; [vm_compute; reflexivity|].
  exact (proj1 (only_admins_change_access upper_ascii int_decimal _ _
                  fresh_bot (request_of 777 777 ["goto"%string]) None
                  Hin Hnot)).
Defined.

(** X7.  Granting and revoking: once an admin has run
    [/whitelist_add_user n], every command behind the whitelist gate runs for
    sender [n] as if there were no gate, in any chat; once an admin has then
    run [/whitelist_remove_user n], and [n] is no admin, the whitelist is
    enabled and the chat is not whitelisted, the gate turns [n] away and the
    command does nothing. *)
Theorem whitelist_grant_and_revoke (int : string → option Z)
    (self : StockVolumeMonitor) (req : request) (file : disk)
    (word : string) (rest : list string) (n : Z) :
  effective_user_id req ∈ admin_ids self →
  args req = word :: rest →
  int word = Some n →
  let granted := (admin_only (whitelist_add_user int) self req file).1.1 in
  let revoked :=
    (admin_only (whitelist_remove_user int) granted req file).1.1 in
  (admin_only (whitelist_add_user int) self req file).2 = ReplyUserAdded n
  ∧ (∀ (func : handler) (req' : request) (d : disk),
       effective_user_id req' = n →
       whitelist_required func granted req' d = func granted req' d)
  ∧ (admin_only (whitelist_remove_user int) granted req file).2
    = ReplyUserRemoved n
  ∧ (n ∉ admin_ids self →
     whitelist_enabled self = true →
     ∀ (func : handler) (req' : request) (d : disk),
       effective_user_id req' = n →
       effective_chat_id req' ∉ whitelisted_groups self →
       whitelist_required func revoked req' d
       = (revoked, d, ReplyAccessDenied)).
Proof.
  intros Hadmin Hargs Hint granted revoked.
  assert (Hgranted : granted
            = set_whitelisted_users self ({[n]} ∪ whitelisted_users self)).
  { unfold granted, admin_only, whitelist_add_user. cbv zeta.
    rewrite bool_decide_eq_true_2 by exact Hadmin.
    rewrite Hargs, Hint. reflexivity. }
  assert (Hin : n ∈ whitelisted_users granted).
  { rewrite Hgranted. cbn. set_solver. }
  assert (Hrevoked : revoked
            = set_whitelisted_users granted (whitelisted_users granted ∖ {[n]})).
  { unfold revoked, admin_only, whitelist_remove_user. cbv zeta.
    rewrite bool_decide_eq_true_2 by (rewrite Hgranted; exact Hadmin).
    rewrite Hargs, Hint.
    rewrite bool_decide_eq_true_2 by exact Hin. reflexivity. }
  split; [|split; [|split]].
  - unfold admin_only, whitelist_add_user. cbv zeta.
    rewrite bool_decide_eq_true_2 by exact Hadmin.
    rewrite Hargs, Hint. reflexivity.
  - intros func req' d Hn. unfold whitelist_required. cbv zeta.
    rewrite Hn. rewrite (bool_decide_eq_true_2 _ Hin).
    destruct (whitelist_enabled granted); cbn [negb orb]; [|reflexivity].
    destruct (bool_decide (n ∈ admin_ids granted)); reflexivity.
  - unfold admin_only, whitelist_remove_user. cbv zeta.
    rewrite bool_decide_eq_true_2 by (rewrite Hgranted; exact Hadmin).
    rewrite Hargs, Hint.
    rewrite bool_decide_eq_true_2 by exact Hin. reflexivity.
  - intros Hnot Hen func req' d Hn Hchat.
    unfold whitelist_required. cbv zeta.
    rewrite Hrevoked, Hgranted. cbn. rewrite Hen, Hn. cbn.
    rewrite (bool_decide_eq_false_2 _ Hnot).
    assert (Hgone : n ∉ ({[n]} ∪ whitelisted_users self) ∖ {[n]}).
    { intros Hmem. apply elem_of_difference in Hmem as [_ Hmem].
      apply Hmem. apply elem_of_singleton. reflexivity. }
    rewrite (bool_decide_eq_false_2 _ Hgone).
    rewrite (bool_decide_eq_false_2 _ Hchat). reflexivity.
Qed.

Lemma whitelist_grant_and_revoke_witness :
  let req := request_of admin_1 admin_1 ["777"%string] in
  let granted :=
    (admin_only (whitelist_add_user int_decimal) fresh_bot req None).1.1 in
  (whitelist_required (add_stock_command upper_ascii) fresh_bot
     (request_of 777 777 ["goto"%string]) None).2 = ReplyAccessDenied
  ∧ (whitelist_required (add_stock_command upper_ascii) granted
       (request_of 777 777 ["goto"%string]) None).2
    = ReplyStockAdded "GOTO.JK".
Proof.
  intros req granted. split; [vm_compute; reflexivity|].
  assert (Hadmin : effective_user_id req ∈ admin_ids fresh_bot).
  { apply (proj1 (bool_decide_eq_true _)). vm_compute. reflexivity. }
  pose proof (proj1 (proj2 (whitelist_grant_and_revoke int_decimal fresh_bot
                              req None "777" [] 777 Hadmin eq_refl eq_refl))
                (add_stock_command upper_ascii)
                (request_of 777 777 ["goto"%string]) None eq_refl) as Hpass.
  fold granted in Hpass. rewrite Hpass. vm_compute. reflexivity.
Defined.

Lemma tidy_frame (self self' : StockVolumeMonitor) :
  popular_stocks self' = popular_stocks self →
  monitored_groups (core self') = monitored_groups (core self) →
  tidy self → tidy self'.
Proof. unfold tidy. intros -> ->. auto. Qed.

Lemma NoDup_append_new {A} (l : list A) (x : A) : x ∉ l → NoDup l → NoDup (l ++ [x]).
Proof.
  intros Hnotin Hnodup. apply NoDup_app. split; [exact Hnodup|]. split.
  - intros y Hy Hx. apply list_elem_of_singleton in Hx as ->. contradiction.
  - apply NoDup_singleton.
Qed.

Lemma commands_keep_tidy (upper : string → string) (int : string → option Z)
    (func : handler) (self : StockVolumeMonitor) (req : request)
    (file : disk) :
  func ∈ [start_command; help_command; status_command;
          add_stock_command upper; remove_stock_command upper;
          list_stocks_command; whitelist_add_user int;
          whitelist_remove_user int; whitelist_add_group int;
          whitelist_remove_group int; whitelist_list; whitelist_enable;
          whitelist_disable; whitelist_status; admin_help_command] →
  tidy self → tidy (func self req file).1.1.
Proof.
  intros Hin Htidy.
  repeat (apply elem_of_cons in Hin as [->|Hin]); [..|inversion Hin].
  - unfold start_command. cbv zeta.
    destruct (bool_decide_reflect
                (effective_chat_id req ∈ monitored_groups (core self)))
      as [Hreg|Hnew]; [exact Htidy|].
    destruct Htidy as (Hs & Hjk & Hg). repeat split; auto. cbn.
    apply NoDup_append_new; assumption.
  - exact Htidy.
  - exact Htidy.
  - unfold add_stock_command. destruct (args req) as [|word rest]; [exact Htidy|].
    cbv zeta.
    destruct (bool_decide_reflect
                (stock_code_of upper word ∈ popular_stocks self))
      as [Hold|Hnew]; cbn [negb]; [exact Htidy|].
    destruct Htidy as (Hs & Hjk & Hg). repeat split; auto; cbn.
    + apply NoDup_append_new; assumption.
    + apply Forall_app. split; [exact Hjk|].
      constructor; [apply stock_code_of_endswith|constructor].
  - unfold remove_stock_command.
    destruct (args req) as [|word rest]; [exact Htidy|]. cbv zeta.
    destruct (bool_decide (stock_code_of upper word ∈ popular_stocks self));
      [|exact Htidy].
    destruct Htidy as (Hs & Hjk & Hg). repeat split; auto; cbn.
    + apply remove_first_NoDup. exact Hs.
    + apply remove_first_Forall. exact Hjk.
  - unfold list_stocks_command. destruct (popular_stocks self); exact Htidy.
  - unfold whitelist_add_user. repeat case_match; exact Htidy.
  - unfold whitelist_remove_user. repeat case_match; exact Htidy.
  - unfold whitelist_add_group. repeat case_match; exact Htidy.
  - unfold whitelist_remove_group. repeat case_match; exact Htidy.
  - exact Htidy.
  - exact Htidy.
  - exact Htidy.
  - exact Htidy.
  - unfold admin_help_command. cbv zeta. case_match; exact Htidy.
Qed.

(** X8.  The lists the commands edit stay tidy.  A bot of haha.py starts
    with twenty distinct symbols that all end with [.JK] and with no
    registered chat, and no registered command, from whatever sender and
    with whatever words, ever makes a symbol tracked twice, tracks a symbol
    that does not end with [.JK], or registers a chat twice. *)
Theorem commands_keep_lists_tidy (upper : string → string)
    (int : string → option Z) :
  (∀ (admins : list Z) (file : disk), tidy (haha_init admins file))
  ∧ (∀ (name : string) (h : handler) (self : StockVolumeMonitor)
       (req : request) (file : disk),
       (name, h) ∈ setup_handlers upper int →
       tidy self → tidy (h self req file).1.1).
Proof.
  split.
  - intros admins file. unfold haha_init, load_whitelist.
    destruct file as [data|]; cbn.
    all: unfold tidy; cbn; repeat split;
      [apply (bool_decide_unpack _); vm_compute; exact I
      |repeat constructor
      |constructor].
  - intros name h self req file Hin Htidy.
    unfold setup_handlers in Hin.
    repeat (apply elem_of_cons in Hin as [Hin|Hin];
            [injection Hin as -> ->|]); [..|inversion Hin].
    all: try match goal with
             | |- context [whitelist_required ?f ?s ?r ?d] =>
                 destruct (whitelist_required_cases f s r d) as [-> | ->];
                 [apply (commands_keep_tidy upper int); [set_solver|exact Htidy]
                 |exact Htidy]
             end.
    all: try match goal with
             | |- context [admin_only ?f ?s ?r ?d] =>
                 unfold admin_only; cbv zeta;
                 destruct (bool_decide (effective_user_id r ∈ admin_ids s));
                 [apply (commands_keep_tidy upper int); [set_solver|exact Htidy]
                 |exact Htidy]
             end.
    apply (commands_keep_tidy upper int); [set_solver|exact Htidy].
Qed.

Lemma commands_keep_lists_tidy_witness :
  tidy fresh_bot
  ∧ tidy (whitelist_required (add_stock_command upper_ascii) fresh_bot
            (request_of admin_1 admin_1 ["goto"%string]) None).1.1
  ∧ last (popular_stocks
            (whitelist_required (add_stock_command upper_ascii) fresh_bot
               (request_of admin_1 admin_1 ["goto"%string]) None).1.1)
    = Some "GOTO.JK"%string.
Proof.
  assert (Htidy : tidy fresh_bot)
    by apply (proj1 (commands_keep_lists_tidy upper_ascii int_decimal)).
  split; [exact Htidy|]. split; [|vm_compute; reflexivity].
  apply (proj2 (commands_keep_lists_tidy upper_ascii int_decimal)
           "add_stock"%string); [|exact Htidy].
  unfold setup_handlers. do 3 right. left.
Defined.

(** * The whitelist file of the bot *)

Lemma load_after_save (self other : StockVolumeMonitor) (file : disk) :
  let reloaded := load_whitelist other (save_whitelist self true file) in
  whitelisted_users reloaded = whitelisted_users self
  ∧ whitelisted_groups reloaded = whitelisted_groups self
  ∧ whitelist_enabled reloaded = whitelist_enabled self.
Proof.
  cbn. rewrite !list_to_set_elements_L. auto.
Qed.

Lemma persisted_save (self : StockVolumeMonitor) (file : disk) :
  persisted self (save_whitelist self true file).
Proof.
  unfold persisted, haha_init, access.
  destruct (load_after_save self
              {| core := init;
                 popular_stocks :=
                   ["BBRI.JK"; "BMRI.JK"; "BBCA.JK"; "BBNI.JK"; "TLKM.JK";
                    "ASII.JK"; "UNVR.JK"; "ICBP.JK"; "KLBF.JK"; "INDF.JK";
                    "GGRM.JK"; "SMGR.JK"; "PGAS.JK"; "PTBA.JK"; "ADRO.JK";
                    "ITMG.JK"; "ANTM.JK"; "TKIM.JK"; "MEDC.JK"; "PWON.JK"];
                 stock_data := ∅;
                 admin_ids := list_to_set (elements (admin_ids self));
                 whitelisted_users := ∅;
                 whitelisted_groups := ∅;
                 whitelist_enabled := true |} file) as (Hu & Hg & He).
  cbv zeta in Hu, Hg, He. rewrite Hu, Hg, He.
  cbn. rewrite !list_to_set_elements_L. reflexivity.
Qed.

Lemma persisted_frame (self self' : StockVolumeMonitor) (file : disk) :
  access self' = access self → persisted self file → persisted self' file.
Proof.
  unfold persisted. intros Hacc Hper. rewrite Hacc, <- Hper.
  assert (Hadm : admin_ids self' = admin_ids self)
    by (unfold access in Hacc; congruence).
  rewrite Hadm. reflexivity.
Qed.

Lemma whitelist_commands_persist (int : string → option Z) (func : handler)
    (self : StockVolumeMonitor) (req : request) (file : disk) :
  func ∈ [whitelist_add_user int; whitelist_remove_user int;
          whitelist_add_group int; whitelist_remove_group int;
          whitelist_list; whitelist_enable; whitelist_disable;
          whitelist_status; admin_help_command] →
  disk_ok req = true →
  persisted self file →
  persisted (func self req file).1.1 (func self req file).1.2.
Proof.
  intros Hin Hdisk Hper.
  repeat (apply elem_of_cons in Hin as [->|Hin]); [..|inversion Hin];
    unfold whitelist_add_user, whitelist_remove_user, whitelist_add_group,
      whitelist_remove_group, whitelist_list, whitelist_enable,
      whitelist_disable, whitelist_status, admin_help_command;
    cbv zeta; rewrite ?Hdisk;
    repeat case_match; cbn [fst snd]; first [exact Hper|apply persisted_save].
Qed.

(** X9.  The whitelist survives a restart.  A bot of haha.py that starts on
    a file holds what the file holds, and as long as [whitelist.json] can be
    written, after every registered command the file holds the access lists
    the object holds: a bot started afresh on the file, with the same admins,
    has the same whitelisted users and groups and the same enabled flag. *)
Theorem whitelist_survives_restart (upper : string → string)
    (int : string → option Z) :
  (∀ (admins : list Z) (file : disk),
     persisted (haha_init admins file) file)
  ∧ (∀ (name : string) (h : handler) (self : StockVolumeMonitor)
       (req : request) (file : disk),
       (name, h) ∈ setup_handlers upper int →
       disk_ok req = true →
       persisted self file →
       persisted (h self req file).1.1 (h self req file).1.2).
Proof.
  split.
  - intros admins file. unfold persisted, haha_init, access.
    destruct file as [data|]; cbn; rewrite !list_to_set_elements_L;
      reflexivity.
  - intros name h self req file Hin Hdisk Hper.
    unfold setup_handlers in Hin.
    repeat (apply elem_of_cons in Hin as [Hin|Hin];
            [injection Hin as -> ->|]); [..|inversion Hin].
    all: try match goal with
             | |- context [whitelist_required ?f ?s ?r ?d] =>
                 destruct (whitelist_required_cases f s r d) as [-> | ->];
                 [destruct (gated_bodies_keep_access upper s r d f
                              ltac:(set_solver)) as [Hacc ->];
                  exact (persisted_frame _ _ _ Hacc Hper)
                 |exact Hper]
             end.
    all: try match goal with
             | |- context [admin_only ?f ?s ?r ?d] =>
                 unfold admin_only; cbv zeta;
                 destruct (bool_decide (effective_user_id r ∈ admin_ids s));
                 [apply (whitelist_commands_persist int);
                  [set_solver|exact Hdisk|exact Hper]
                 |exact Hper]
             end.
    apply (whitelist_commands_persist int);
      [set_solver|exact Hdisk|exact Hper].
Qed.

Lemma whitelist_survives_restart_witness :
  let req := request_of admin_1 admin_1 ["777"%string] in
  let after := admin_only (whitelist_add_user int_decimal) fresh_bot req None in
  disk_ok req = true
  ∧ persisted fresh_bot None
  ∧ persisted after.1.1 after.1.2
  ∧ whitelisted_users (haha_init [admin_1; admin_2] after.1.2) = {[777]}.
Proof.
  intros req after.
  assert (H0 : persisted fresh_bot None)
    by apply (proj1 (whitelist_survives_restart upper_ascii int_decimal)).
  split; [reflexivity|]. split; [exact H0|]. split.
  - apply (proj2 (whitelist_survives_restart upper_ascii int_decimal)
             "whitelist_add_user"%string); [|reflexivity|exact H0].
    unfold setup_handlers. do 6 right. left.
  - vm_compute. reflexivity.
Defined.

(** * Tracked symbols and registered chats *)





Lemma first_cycle_is_silent_witness :
  NoDup (popular_stocks fresh_bot)
  ∧ is_trading_hours (core fresh_bot) noon = true
  ∧ ∃ new : list activity,
      (monitor_iteration Alert.should_alert (λ _ _ _ _, "alert"%string)
         bot_ok noon (first_fails 5000000) fresh_bot []).1 = [] ++ new
      ∧ dispatched new = []
      ∧ data_errors new = [("BBRI.JK"%string, "HTTPError"%string)].
Proof.
  assert (Hnodup : NoDup (popular_stocks fresh_bot)).
  { apply (bool_decide_unpack _). vm_compute. exact I. }
  split; [exact Hnodup|]. split; [reflexivity|].
  destruct (proj1 (first_cycle_is_silent (λ _ _ _ _, "alert"%string) bot_ok
                     noon (first_fails 5000000) fresh_bot [] Hnodup
                     (λ symbol _, eq_refl)))
    as (new & Hrun & Hquiet & Herr & _).
  exists new. split; [exact Hrun|]. split; [exact Hquiet|].
  rewrite Herr. vm_compute. reflexivity.
Defined.

(** * The whitelist tool (whitelist.py) *)

Lemma size_list_to_set_le (l : list Z) :
  (size (list_to_set l : gset Z) <= length l)%nat.
Proof.
  induction l as [|x l IH]; [rewrite list_to_set_nil, size_empty; cbn; lia|].
  rewrite list_to_set_cons, size_union_alt, size_singleton. cbn.
  assert (Hsub : (size (list_to_set l ∖ {[x]} : gset Z)
                  <= size (list_to_set l : gset Z))%nat)
    by (apply subseteq_size; intros y Hy;
        apply elem_of_difference in Hy; tauto).
  lia.
Qed.

(** [len(l) == len(set(l))] says that [l] has no duplicates. *)
Lemma length_eq_size_iff_NoDup (l : list Z) :
  length l = size (list_to_set l : gset Z) ↔ NoDup l.
Proof.
  split; [|intros Hnd; symmetry; apply size_list_to_set; exact Hnd].
  induction l as [|x l IH]; intros Hlen; [constructor|].
  rewrite list_to_set_cons, size_union_alt, size_singleton in Hlen.
  cbn in Hlen.
  pose proof (size_list_to_set_le l) as Hle.
  assert (Hsub : (size (list_to_set l ∖ {[x]} : gset Z)
                  <= size (list_to_set l : gset Z))%nat)
    by (apply subseteq_size; intros y Hy;
        apply elem_of_difference in Hy; tauto).
  constructor; [|apply IH; lia].
  intros Hin.
  assert (Hlt : (size (list_to_set l ∖ {[x]} : gset Z)
                 < size (list_to_set l : gset Z))%nat).
  { apply subset_size. split.
    - intros y Hy. apply elem_of_difference in Hy. tauto.
    - intros Hback. specialize (Hback x).
      assert (Hx : x ∈ (list_to_set l : gset Z))
        by (apply elem_of_list_to_set; exact Hin).
      apply Hback in Hx. apply elem_of_difference in Hx as [_ Hx].
      apply Hx. apply elem_of_singleton. reflexivity. }
  lia.
Qed.

Lemma validate_whitelist_sufficient (self : Whitelist.manager)
    (users groups : list Z) (enabled : bool) (m : metadata) :
  Whitelist.data self
  = {| json_users := Some users; json_groups := Some groups;
       json_enabled := Some enabled; json_metadata := Some m |} →
  NoDup users → NoDup groups →
  Forall (λ user_id : Z, 0 < user_id) users →
  Whitelist.validate_whitelist self = true.
Proof.
  intros Heq Hu Hg Hpos.
  unfold Whitelist.validate_whitelist, Whitelist.issues_of. rewrite Heq.
  cbn [json_users json_groups json_enabled json_metadata default
       from_option id app].
  apply length_eq_size_iff_NoDup in Hu, Hg.
  rewrite Hu, Hg, !Nat.eqb_refl. cbn [negb app].
  assert (Hnone : filter (λ user_id : Z, user_id ≤ 0) users = []).
  { clear Hu Heq.
    induction Hpos as [|user_id users Hpos _ IH]; [reflexivity|].
    rewrite filter_cons. destruct (decide (user_id ≤ 0)); [lia|exact IH]. }
  rewrite Hnone. reflexivity.
Qed.

(** X12.  What [validate_whitelist] accepts: exactly the dicts that hold all
    four keys, list no user twice, list no group twice, and list positive
    user ids only.  Group ids of either sign pass. *)
Theorem validate_whitelist_accepts (self : Whitelist.manager) :
  Whitelist.validate_whitelist self = true
  ↔ ∃ (users groups : list Z) (enabled : bool) (m : metadata),
      Whitelist.data self
      = {| json_users := Some users; json_groups := Some groups;
           json_enabled := Some enabled; json_metadata := Some m |}
      ∧ NoDup users ∧ NoDup groups
      ∧ Forall (λ user_id : Z, 0 < user_id) users.
Proof.
  unfold Whitelist.validate_whitelist, Whitelist.issues_of.
  destruct (Whitelist.data self) as [[users|] [groups|] [enabled|] [m|]];
    cbn [json_users json_groups json_enabled json_metadata default
         from_option id app];
    try (split; [discriminate|intros (? & ? & ? & ? & Heq & _); discriminate]).
  split.
  - intros Hok. exists users, groups, enabled, m. split; [reflexivity|].
    destruct (Nat.eqb_spec (length users) (size (list_to_set users : gset Z)))
      as [Hu|Hu]; cbn [negb app] in Hok; [|discriminate].
    destruct (Nat.eqb_spec (length groups)
                (size (list_to_set groups : gset Z)))
      as [Hg|Hg]; cbn [negb app] in Hok; [|discriminate].
    split; [apply length_eq_size_iff_NoDup; exact Hu|].
    split; [apply length_eq_size_iff_NoDup; exact Hg|].
    apply Forall_forall. intros user_id Hin.
    destruct (decide (user_id ≤ 0)) as [Hbad|Hgood]; [|lia].
    assert (Hf : user_id ∈ filter (λ user_id : Z, user_id ≤ 0) users)
      by (apply list_elem_of_filter; auto).
    destruct (filter _ users); [inversion Hf|discriminate].
  - intros (users' & groups' & enabled' & m' & Heq & Hu & Hg & Hpos).
    injection Heq as <- <- <- <-.
    pose proof (validate_whitelist_sufficient
                  {| Whitelist.whitelist_file := "";
                     Whitelist.data :=
                       {| json_users := Some users;
                          json_groups := Some groups;
                          json_enabled := Some enabled;
                          json_metadata := Some m |} |}
                  users groups enabled m eq_refl Hu Hg Hpos) as Hok.
    exact Hok.
Qed.

(** X13.  Cleaning makes a whitelist valid.  On a dict that holds all four
    keys [clean_whitelist] returns normally, and afterwards
    [validate_whitelist] accepts the dict; the users kept are exactly the
    positive ids that were listed, the groups kept are exactly the groups
    that were listed, and the enabled flag is untouched. *)
Theorem clean_then_validate (now : string) (writable : bool)
    (self : Whitelist.manager) (fs : Whitelist.files)
    (users groups : list Z) (enabled : bool) (m : metadata) :
  Whitelist.data self
  = {| json_users := Some users; json_groups := Some groups;
       json_enabled := Some enabled; json_metadata := Some m |} →
  let cleaned := Whitelist.clean_whitelist now writable self fs in
  cleaned.2 = inr tt
  ∧ Whitelist.validate_whitelist cleaned.1.1 = true
  ∧ (∀ user_id : Z,
       user_id ∈ default [] (json_users (Whitelist.data cleaned.1.1))
       ↔ user_id ∈ users ∧ 0 < user_id)
  ∧ (∀ group_id : Z,
       group_id ∈ default [] (json_groups (Whitelist.data cleaned.1.1))
       ↔ group_id ∈ groups)
  ∧ json_enabled (Whitelist.data cleaned.1.1) = Some enabled.
Proof.
  intros Heq cleaned.
  unfold cleaned, Whitelist.clean_whitelist, Whitelist.save_whitelist.
  rewrite Heq. cbn.
  split; [reflexivity|]. split; [|split; [|split; [|reflexivity]]].
  - eapply validate_whitelist_sufficient; [reflexivity|..].
    + apply NoDup_elements.
    + apply NoDup_elements.
    + apply Forall_forall. intros user_id Hin.
      apply elem_of_elements, elem_of_list_to_set in Hin.
      apply (list_elem_of_filter (λ user_id : Z, 0 < user_id)) in Hin.
      tauto.
  - intros user_id. rewrite elem_of_elements, elem_of_list_to_set.
    rewrite (list_elem_of_filter (λ user_id : Z, 0 < user_id)). tauto.
  - intros group_id. rewrite elem_of_elements, elem_of_list_to_set.
    reflexivity.
Qed.

Lemma clean_then_validate_witness :
  let self :=
    Whitelist.set_data fresh_tool
      (Whitelist.set_users (Whitelist.data fresh_tool) [5; -3; 5; 0; 8]) in
  Whitelist.validate_whitelist self = false
  ∧ Whitelist.validate_whitelist
      (Whitelist.clean_whitelist "later" true self ∅).1.1 = true.
Proof.
  intros self. split; [vm_compute; reflexivity|].
  exact (proj1 (proj2 (clean_then_validate "later" true self ∅
                         [5; -3; 5; 0; 8] [] true _ eq_refl))).
Defined.

(** X14.  The tool cannot edit a file the bot wrote.  [save_whitelist] of
    haha.py writes no [metadata] key; a manager made on such a file fails
    validation, and [add_user] of a new id, [enable_whitelist],
    [disable_whitelist] and [clean_whitelist] all leave by [KeyError]
    without writing any file. *)
Theorem bot_file_breaks_the_tool (bot_self : StockVolumeMonitor)
    (old : disk) (path created_at modified_at now : string)
    (writable : bool) (fs : Whitelist.files) (user_id : Z) :
  fs !! path = save_whitelist bot_self true old →
  user_id ∉ whitelisted_users bot_self →
  let tool := Whitelist.new path created_at modified_at fs in
  Whitelist.validate_whitelist tool = false
  ∧ Whitelist.add_user now writable user_id tool fs
    = (Whitelist.set_data tool
         (Whitelist.set_users (Whitelist.data tool)
            (elements (whitelisted_users bot_self) ++ [user_id])),
       fs, inl "KeyError: 'metadata'")
  ∧ (Whitelist.enable_whitelist now writable tool fs).1.2 = fs
  ∧ (Whitelist.enable_whitelist now writable tool fs).2
    = inl "KeyError: 'metadata'"
  ∧ (Whitelist.disable_whitelist now writable tool fs).1.2 = fs
  ∧ (Whitelist.disable_whitelist now writable tool fs).2
    = inl "KeyError: 'metadata'"
  ∧ (Whitelist.clean_whitelist now writable tool fs).1.2 = fs
  ∧ (Whitelist.clean_whitelist now writable tool fs).2
    = inl "KeyError: 'metadata'".
Proof.
  intros Hfile Hnew tool.
  assert (Hdata : Whitelist.data tool
            = {| json_users := Some (elements (whitelisted_users bot_self));
                 json_groups := Some (elements (whitelisted_groups bot_self));
                 json_enabled := Some (whitelist_enabled bot_self);
                 json_metadata := None |}).
  { unfold tool, Whitelist.new, Whitelist.load_whitelist. cbn.
    rewrite Hfile. reflexivity. }
  assert (Hlisted : user_id ∉ elements (whitelisted_users bot_self)).
  { rewrite elem_of_elements. exact Hnew. }
  split; [|split].
  - unfold Whitelist.validate_whitelist, Whitelist.issues_of. rewrite Hdata.
    cbn [json_users json_groups json_enabled json_metadata app].
    reflexivity.
  - unfold Whitelist.add_user. rewrite Hdata.
    cbn [json_users]. rewrite (bool_decide_eq_false_2 _ Hlisted).
    cbn [negb]. unfold Whitelist.save_whitelist. cbn. reflexivity.
  - unfold Whitelist.enable_whitelist, Whitelist.disable_whitelist,
      Whitelist.clean_whitelist, Whitelist.save_whitelist.
    rewrite Hdata. cbn. auto 10.
Qed.

Lemma bot_file_breaks_the_tool_witness :
  let granted :=
    admin_only (whitelist_add_user int_decimal) fresh_bot
      (request_of admin_1 admin_1 ["777"%string]) None in
  ∃ d : whitelist_json,
    granted.1.2 = Some d
    ∧ (Whitelist.add_user "later" true 888
         (Whitelist.new "whitelist.json" "t" "t" {[ "whitelist.json" := d ]})
         {[ "whitelist.json" := d ]}).2
      = inl "KeyError: 'metadata'"%string.
Proof.
  intros granted.
  pose (d := {| json_users := Some (elements (whitelisted_users granted.1.1));
                json_groups := Some (elements (whitelisted_groups granted.1.1));
                json_enabled := Some (whitelist_enabled granted.1.1);
                json_metadata := None |}).
  exists d. split; [reflexivity|].
  assert (Hfile : ({[ "whitelist.json"%string := d ]} : Whitelist.files)
                  !! "whitelist.json"%string
                  = save_whitelist granted.1.1 true None)
    by apply lookup_singleton_eq.
  assert (Hnew : 888 ∉ whitelisted_users granted.1.1).
  { apply (proj1 (bool_decide_eq_false _)). vm_compute. reflexivity. }
  rewrite (proj1 (proj2 (bot_file_breaks_the_tool granted.1.1 None
                           "whitelist.json" "t" "t" "later" true
                           {[ "whitelist.json"%string := d ]} 888
                           Hfile Hnew))).
  reflexivity.
Defined.




(** X16.  A backup can be restored.  [backup_whitelist] stores the dict of
    the manager under the backup name; [restore_whitelist] from a file that
    holds a dict with [metadata] makes that dict the dict of the manager,
    with the same users, groups, enabled flag, creation stamp and version and
    a new [last_modified], and writes it to the whitelist file.  From a
    backup without [metadata] the dict is taken over in memory, nothing is
    written, and the method still returns normally. *)
Theorem restore_brings_back_backup (now : string) (backup_file : string)
    (self later : Whitelist.manager) (fs fs' : Whitelist.files) :
  (Whitelist.backup_whitelist true backup_file self fs).1.2 !! backup_file
  = Some (Whitelist.data self)
  ∧ (fs' !! backup_file = Some (Whitelist.data self) →
     let restored :=
       Whitelist.restore_whitelist now true backup_file later fs' in
     let d := Whitelist.data restored.1.1 in
     restored.2 = inr tt
     ∧ json_users d = json_users (Whitelist.data self)
     ∧ json_groups d = json_groups (Whitelist.data self)
     ∧ json_enabled d = json_enabled (Whitelist.data self)
     ∧ match json_metadata (Whitelist.data self) with
       | Some m =>
           json_metadata d
           = Some {| created := created m; last_modified := now;
                     version := version m |}
           ∧ restored.1.2 !! Whitelist.whitelist_file later = Some d
       | None => json_metadata d = None ∧ restored.1.2 = fs'
       end).
Proof.
  split.
  - cbn. apply lookup_insert_eq.
  - intros Hfile restored d.
    unfold d, restored, Whitelist.restore_whitelist,
      Whitelist.save_whitelist.
    rewrite Hfile. cbn.
    destruct (json_metadata (Whitelist.data self)) as [m|] eqn:Hm; cbn.
    + rewrite lookup_insert_eq. auto 10.
    + rewrite Hm. auto 10.
Qed.

Lemma restore_brings_back_backup_witness :
  let saved := Whitelist.add_user "t1" true 777 fresh_tool ∅ in
  let backed :=
    Whitelist.backup_whitelist true "backup.json" saved.1.1 saved.1.2 in
  let emptied := Whitelist.remove_user "t2" true 777 backed.1.1 backed.1.2 in
  let restored :=
    Whitelist.restore_whitelist "t3" true "backup.json" emptied.1.1
      emptied.1.2 in
  json_users (Whitelist.data emptied.1.1) = Some []
  ∧ emptied.1.2 !! "backup.json"%string = Some (Whitelist.data saved.1.1)
  ∧ json_users (Whitelist.data restored.1.1) = Some [777].
Proof.
  intros saved backed emptied restored.
  assert (Hfile : emptied.1.2 !! "backup.json"%string
                  = Some (Whitelist.data saved.1.1)) by reflexivity.
  split; [reflexivity|]. split; [exact Hfile|].
  pose proof (proj2 (restore_brings_back_backup "t3" "backup.json"
                       saved.1.1 emptied.1.1 ∅ emptied.1.2) Hfile) as Hback.
  cbv zeta in Hback. unfold restored.
  rewrite (proj1 (proj2 Hback)). reflexivity.
Defined.

(** X17.  Adding and removing a user with the tool undo each other.  On a
    dict with [users] and [metadata], for an id that is not listed:
    [add_user] returns [True] and appends the id; [add_user] again returns
    [False] and changes nothing; [remove_user] then returns [True] and the
    list of users is the list from before. *)
Theorem tool_add_then_remove_user (now : string) (writable : bool)
    (user_id : Z) (self : Whitelist.manager) (fs : Whitelist.files)
    (users : list Z) (m : metadata) :
  json_users (Whitelist.data self) = Some users →
  json_metadata (Whitelist.data self) = Some m →
  user_id ∉ users →
  let added := Whitelist.add_user now writable user_id self fs in
  let again := Whitelist.add_user now writable user_id added.1.1 added.1.2 in
  let removed :=
    Whitelist.remove_user now writable user_id added.1.1 added.1.2 in
  added.2 = inr true
  ∧ json_users (Whitelist.data added.1.1) = Some (users ++ [user_id])
  ∧ again = (added.1.1, added.1.2, inr false)
  ∧ removed.2 = inr true
  ∧ json_users (Whitelist.data removed.1.1) = Some users.
Proof.
  intros Hu Hm Hnew added again removed.
  assert (Hin : user_id ∈ users ++ [user_id])
    by (apply elem_of_app; right; constructor).
  unfold again, removed, added, Whitelist.add_user, Whitelist.remove_user,
    Whitelist.save_whitelist.
  rewrite Hu, (bool_decide_eq_false_2 _ Hnew). cbn. rewrite Hm. cbn.
  rewrite (bool_decide_eq_true_2 _ Hin). cbn.
  rewrite remove_first_snoc by exact Hnew. auto.
Qed.

Lemma tool_add_then_remove_user_witness :
  json_users
    (Whitelist.data
       (Whitelist.remove_user "t2" true 777
          (Whitelist.add_user "t1" true 777 fresh_tool ∅).1.1
          (Whitelist.add_user "t1" true 777 fresh_tool ∅).1.2).1.1)
  = Some [].
Proof.
  assert (Hnew : 777 ∉ ([] : list Z)) by apply not_elem_of_nil.
  exact (proj2 (proj2 (proj2 (proj2
           (tool_add_then_remove_user "t1" true 777 fresh_tool ∅ [] _
              eq_refl eq_refl Hnew))))).
Defined.

(** The loop of [import_from_text] over a dict that has its list of users
    and its metadata: what it leaves behind. *)
Lemma import_lines_users (strip : string → string) (int : string → option Z)
    (stamp : nat → string) (writable : bool) (lines : list string) :
  ∀ (i : nat) (self : Whitelist.manager) (fs : Whitelist.files)
    (users : list Z) (m : metadata),
    json_users (Whitelist.data self) = Some users →
    json_metadata (Whitelist.data self) = Some m →
    ∃ (self' : Whitelist.manager) (fs' : Whitelist.files) (users' : list Z)
      (m' : metadata),
      Whitelist.import_lines strip int stamp writable "users" i lines self fs
      = (self', fs', inr tt)
      ∧ json_users (Whitelist.data self') = Some users'
      ∧ json_metadata (Whitelist.data self') = Some m'
      ∧ json_groups (Whitelist.data self') = json_groups (Whitelist.data self)
      ∧ json_enabled (Whitelist.data self')
        = json_enabled (Whitelist.data self)
      ∧ Whitelist.whitelist_file self' = Whitelist.whitelist_file self
      ∧ users `prefix_of` users'
      ∧ (∀ id : Z,
           id ∈ users'
           ↔ id ∈ users
             ∨ ∃ line : string,
                 line ∈ lines
                 ∧ strip line ≠ EmptyString
                 ∧ Whitelist.is_comment (strip line) = false
                 ∧ int (strip line) = Some id)
      ∧ (NoDup users → NoDup users')
      ∧ (users' = users → self' = self ∧ fs' = fs)
      ∧ (users' ≠ users → writable = true →
         fs' !! Whitelist.whitelist_file self = Some (Whitelist.data self')).
Proof.
  induction lines as [|line rest IH]; intros i self fs users m Hu Hm.
  - exists self, fs, users, m. cbn.
    split_and!; try done.
    intros id. split.
    + intros Hin. left. exact Hin.
    + intros [Hin|(line & Hline & _)]; [exact Hin|].
      apply elem_of_nil in Hline. contradiction.
  - assert (Hskip :
      ∀ r : Whitelist.result unit,
      (∀ id : Z,
         ¬ (strip line ≠ EmptyString
            ∧ Whitelist.is_comment (strip line) = false
            ∧ int (strip line) = Some id)) →
      Whitelist.import_lines strip int stamp writable "users" (S i) rest
        self fs
      = r →
      ∃ (self' : Whitelist.manager) (fs' : Whitelist.files)
        (users' : list Z) (m' : metadata),
        r = (self', fs', inr tt)
        ∧ json_users (Whitelist.data self') = Some users'
        ∧ json_metadata (Whitelist.data self') = Some m'
        ∧ json_groups (Whitelist.data self')
          = json_groups (Whitelist.data self)
        ∧ json_enabled (Whitelist.data self')
          = json_enabled (Whitelist.data self)
        ∧ Whitelist.whitelist_file self' = Whitelist.whitelist_file self
        ∧ users `prefix_of` users'
        ∧ (∀ id : Z,
             id ∈ users'
             ↔ id ∈ users
               ∨ ∃ line0 : string,
                   line0 ∈ line :: rest
                   ∧ strip line0 ≠ EmptyString
                   ∧ Whitelist.is_comment (strip line0) = false
                   ∧ int (strip line0) = Some id)
        ∧ (NoDup users → NoDup users')
        ∧ (users' = users → self' = self ∧ fs' = fs)
        ∧ (users' ≠ users → writable = true →
           fs' !! Whitelist.whitelist_file self
           = Some (Whitelist.data self'))).
    { intros r Hno Heq.
      destruct (IH (S i) self fs users m Hu Hm)
        as (self' & fs' & users' & m' & Hrun & Hu' & Hm' & Hg & He & Hf
            & Hpre & Hmem & Hnd & Hsame & Hdisk).
      exists self', fs', users', m'. rewrite <- Heq.
      split_and!; try done.
      intros id. split.
      - intros Hin. apply Hmem in Hin as [Hin|(l & Hl & Hread)];
          [left; exact Hin|].
        right. exists l. split; [apply elem_of_cons; right; exact Hl|].
        exact Hread.
      - intros [Hin|(l & Hl & Hread)]; apply Hmem; [left; exact Hin|].
        apply elem_of_cons in Hl as [->|Hl];
          [exfalso; exact (Hno id Hread)|].
        right. exists l. split; [exact Hl|exact Hread]. }
    cbn [Whitelist.import_lines].
    destruct (bool_decide_reflect (strip line = EmptyString)) as [Hempty|Hne];
      cbn [negb andb].
    { refine (Hskip _ _ eq_refl). intros id (Hne & _). contradiction. }
    destruct (Whitelist.is_comment (strip line)) eqn:Hc; cbn [negb].
    { refine (Hskip _ _ eq_refl). intros id (_ & Hc' & _). discriminate. }
    destruct (int (strip line)) as [id_value|] eqn:Hint.
    2:{ refine (Hskip _ _ eq_refl). intros id (_ & _ & Hsome).
        discriminate. }
    rewrite (bool_decide_eq_true_2 ("users" = "users") eq_refl).
    unfold Whitelist.add_user. rewrite Hu.
    destruct (bool_decide_reflect (id_value ∈ users)) as [Hin|Hnew];
      cbn [negb].
    + destruct (IH (S i) self fs users m Hu Hm)
        as (self' & fs' & users' & m' & Hrun & Hu' & Hm' & Hg & He & Hf
            & Hpre & Hmem & Hnd & Hsame & Hdisk).
      exists self', fs', users', m'.
      split_and!; try done.
      intros id. split.
      * intros Hid. apply Hmem in Hid as [Hid|(l & Hl & Hread)];
          [left; exact Hid|].
        right. exists l. split; [apply elem_of_cons; right; exact Hl|].
        exact Hread.
      * intros [Hid|(l & Hl & Hread)]; apply Hmem; [left; exact Hid|].
        apply elem_of_cons in Hl as [->|Hl].
        -- destruct Hread as (_ & _ & Hid). rewrite Hint in Hid.
           injection Hid as <-. left. exact Hin.
        -- right. exists l. split; [exact Hl|exact Hread].
    + unfold Whitelist.save_whitelist. cbn. rewrite Hm. cbn.
      set (m1 := {| created := created m; last_modified := stamp i;
                    version := version m |}).
      set (d1 := Whitelist.set_metadata
                   (Whitelist.set_users (Whitelist.data self)
                      (users ++ [id_value])) m1).
      set (self1 := Whitelist.set_data self d1).
      set (fs1 := if writable
                  then <[Whitelist.whitelist_file self := d1]> fs else fs).
      destruct (IH (S i) self1 fs1 (users ++ [id_value]) m1 eq_refl eq_refl)
        as (self' & fs' & users' & m' & Hrun & Hu' & Hm' & Hg & He & Hf
            & Hpre & Hmem & Hnd & Hsame & Hdisk).
      assert (Hgrew : users' ≠ users).
      { intros ->. destruct Hpre as [k Hk].
        apply (f_equal length) in Hk. rewrite !length_app in Hk.
        cbn in Hk. lia. }
      exists self', fs', users', m'.
      split_and!; try done.
      * transitivity (users ++ [id_value]); [apply prefix_app_r|exact Hpre].
        reflexivity.
      * intros id. split.
        { intros Hid. apply Hmem in Hid as [Hid|(l & Hl & Hread)].
          - apply elem_of_app in Hid as [Hid|Hid]; [left; exact Hid|].
            apply list_elem_of_singleton in Hid as ->.
            right. exists line.
            split; [apply elem_of_cons; left; reflexivity|]. auto.
          - right. exists l. split; [apply elem_of_cons; right; exact Hl|].
            exact Hread. }
        intros [Hid|(l & Hl & Hread)]; apply Hmem.
        -- left. apply elem_of_app. left. exact Hid.
        -- apply elem_of_cons in Hl as [->|Hl].
           ++ destruct Hread as (_ & _ & Hid). rewrite Hint in Hid.
              injection Hid as <-. left. apply elem_of_app. right.
              constructor.
           ++ right. exists l. split; [exact Hl|exact Hread].
      * intros Hndu. apply Hnd. apply NoDup_append_new; assumption.
      * intros _ Hw.
        destruct (decide (users' = users ++ [id_value])) as [Hstop|Hmore].
        -- destruct (Hsame Hstop) as [-> ->]. unfold fs1. rewrite Hw.
           apply lookup_insert_eq.
        -- exact (Hdisk Hmore Hw).
Qed.

(** X23.  [import_from_text] with type users, on a dict that has its list
    of users and its metadata.  The lines that are empty after stripping,
    start with a hash or are not numbers are skipped.  The users afterwards
    are the users there were, in their places, followed by the numbers of
    the other lines that were not listed yet; a list without duplicates
    stays without duplicates, and the groups and the enabled flag are as
    they were.  If nothing was new, the manager and the files are untouched;
    otherwise a writable file holds the new dict. *)
Theorem import_from_text_adds_new_users (strip : string → string)
    (int : string → option Z) (stamp : nat → string) (writable : bool)
    (lines : list string) (self : Whitelist.manager) (fs : Whitelist.files)
    (users : list Z) (m : metadata) :
  json_users (Whitelist.data self) = Some users →
  json_metadata (Whitelist.data self) = Some m →
  let after :=
    Whitelist.import_from_text strip int stamp writable lines "users" self fs
  in
  ∃ users' : list Z,
    json_users (Whitelist.data after.1) = Some users'
    ∧ users `prefix_of` users'
    ∧ (∀ id : Z,
         id ∈ users'
         ↔ id ∈ users
           ∨ ∃ line : string,
               line ∈ lines
               ∧ strip line ≠ EmptyString
               ∧ Whitelist.is_comment (strip line) = false
               ∧ int (strip line) = Some id)
    ∧ (NoDup users → NoDup users')
    ∧ json_groups (Whitelist.data after.1)
      = json_groups (Whitelist.data self)
    ∧ json_enabled (Whitelist.data after.1)
      = json_enabled (Whitelist.data self)
    ∧ (users' = users → after = (self, fs))
    ∧ (users' ≠ users → writable = true →
       after.2 !! Whitelist.whitelist_file self
       = Some (Whitelist.data after.1)).
Proof.
  intros Hu Hm after.
  destruct (import_lines_users strip int stamp writable lines 0 self fs
              users m Hu Hm)
    as (self' & fs' & users' & m' & Hrun & Hu' & Hm' & Hg & He & Hf
        & Hpre & Hmem & Hnd & Hsame & Hdisk).
  unfold after, Whitelist.import_from_text. rewrite Hrun. cbn [fst snd].
  exists users'. split_and!; try done.
  intros Heq. destruct (Hsame Heq) as [-> ->]. reflexivity.
Qed.

Lemma import_from_text_adds_new_users_witness :
  ∃ users' : list Z,
    json_users
      (Whitelist.data
         (Whitelist.import_from_text id int_decimal (λ _ : nat, "t") true
            ["# staff"; "777"; "abc"; ""; "777"; "888"] "users" fresh_tool
            ∅).1)
    = Some users'
    ∧ NoDup users'.
Proof.
  destruct (import_from_text_adds_new_users id int_decimal (λ _ : nat, "t")
              true ["# staff"; "777"; "abc"; ""; "777"; "888"] fresh_tool ∅
              [] _ eq_refl eq_refl)
    as (users' & Hu' & _ & _ & Hnd & _).
  exists users'. split; [exact Hu'|]. apply Hnd. constructor.
Defined.

(** * The download tool (stock_app_json_ticker.py) *)

(** X18.  [sanitize_filename] removes exactly the characters of its string
    of invalid characters, which are the backslash, the slash, the star, the
    question mark, the colon, the double quote, the two angle brackets and
    the bar, and also the two square brackets; it keeps all other characters
    in their order, and sanitizing twice is sanitizing once. *)
Theorem sanitize_filename_removes_invalid (filename : StockApp.str) :
  (∀ c : StockApp.char,
     c ∈ StockApp.sanitize_filename filename
     ↔ c ∈ filename
       ∧ c ∉ StockApp.chr <$> [91; 93; 92; 47; 42; 63; 58; 34; 60; 62; 124]%nat)
  ∧ StockApp.sanitize_filename filename `sublist_of` filename
  ∧ StockApp.sanitize_filename (StockApp.sanitize_filename filename)
    = StockApp.sanitize_filename filename
  ∧ (Forall (λ c : StockApp.char, c ∉ StockApp.invalid_chars) filename →
     StockApp.sanitize_filename filename = filename).
Proof.
  assert (Hset : ∀ c : StockApp.char,
            c ∈ StockApp.invalid_chars
            ↔ c ∈ StockApp.chr
                  <$> [91; 93; 92; 47; 42; 63; 58; 34; 60; 62; 124]%nat).
  { intros c. unfold StockApp.invalid_chars. cbn [fmap list_fmap].
    rewrite !elem_of_cons, !elem_of_nil. tauto. }
  assert (Hkeep : ∀ l : StockApp.str,
            Forall (λ c : StockApp.char, c ∉ StockApp.invalid_chars) l →
            StockApp.sanitize_filename l = l).
  { intros l Hall. unfold StockApp.sanitize_filename.
    induction Hall as [|c l Hc _ IH]; [reflexivity|].
    rewrite filter_cons. destruct (decide (c ∉ StockApp.invalid_chars));
      [rewrite IH; reflexivity|contradiction]. }
  split; [|split; [|split]].
  - intros c. unfold StockApp.sanitize_filename.
    rewrite (list_elem_of_filter (λ c : StockApp.char,
                                    c ∉ StockApp.invalid_chars)).
    rewrite <- Hset. tauto.
  - apply sublist_filter.
  - apply Hkeep. apply Forall_forall. intros c Hin.
    unfold StockApp.sanitize_filename in Hin.
    apply (list_elem_of_filter (λ c : StockApp.char,
                                  c ∉ StockApp.invalid_chars)) in Hin.
    tauto.
  - apply Hkeep.
Qed.

Lemma sanitize_filename_removes_invalid_witness :
  StockApp.sanitize_filename (StockApp.lit "ab[1]/c:d.csv")
  = StockApp.lit "ab1cd.csv"
  ∧ StockApp.sanitize_filename (StockApp.lit "ab1cd.csv")
    = StockApp.lit "ab1cd.csv".
Proof.
  split; [vm_compute; reflexivity|].
  apply (proj2 (proj2 (proj2 (sanitize_filename_removes_invalid
                                (StockApp.lit "ab1cd.csv"))))).
  apply (bool_decide_unpack _). vm_compute. exact I.
Defined.

Lemma find_lower (sub s : StockApp.str) : -1 ≤ StockApp.find sub s.
Proof.
  induction s as [|c s IH]; cbn.
  - destruct (decide (sub `prefix_of` [])); lia.
  - destruct (decide (sub `prefix_of` c :: s)); [lia|].
    destruct (Z.eqb_spec (StockApp.find sub s) (-1)); lia.
Qed.

Lemma find_found (sub s : StockApp.str) :
  0 ≤ StockApp.find sub s →
  sub `prefix_of` drop (Z.to_nat (StockApp.find sub s)) s
  ∧ StockApp.find sub s ≤ Z.of_nat (length s).
Proof.
  induction s as [|c s IH]; cbn.
  - destruct (decide (sub `prefix_of` [])); [intros _|lia].
    split; [assumption|lia].
  - destruct (decide (sub `prefix_of` c :: s)) as [Hp|Hp].
    { intros _. split; [exact Hp|lia]. }
    destruct (Z.eqb_spec (StockApp.find sub s) (-1)) as [Hm|Hm]; [lia|].
    intros _. pose proof (find_lower sub s) as Hl.
    destruct IH as [IH1 IH2]; [lia|].
    replace (Z.to_nat (StockApp.find sub s + 1))
      with (S (Z.to_nat (StockApp.find sub s))) by lia.
    split; [exact IH1|lia].
Qed.

Lemma prefix_singleton (c : StockApp.char) (s : StockApp.str) :
  [c] `prefix_of` s ↔ ∃ rest, s = c :: rest.
Proof.
  split.
  - intros [k Hk]. exists k. exact Hk.
  - intros [rest ->]. exists rest. reflexivity.
Qed.

(** Cutting at the first [&] and then at the first [_] is cutting at the
    first of the two. *)
Lemma before_underscore_until_ampersand (r : StockApp.str) :
  let k := StockApp.find [StockApp.chr 38] r in
  StockApp.before (StockApp.chr 95)
    (take (Z.to_nat (if k =? -1 then Z.of_nat (length r) else k)) r)
  = StockApp.up_to_separator r.
Proof.
  induction r as [|c r IH]; [reflexivity|].
  cbn [StockApp.find].
  destruct (decide ([StockApp.chr 38] `prefix_of` c :: r)) as [Hp|Hp].
  { apply prefix_singleton in Hp as [rest Heq]. injection Heq as -> _.
    cbn. destruct (decide _) as [_|Hn]; [reflexivity|].
    exfalso. apply Hn. left. reflexivity. }
  assert (Hc : c ≠ StockApp.chr 38).
  { intros ->. apply Hp. apply prefix_singleton. eauto. }
  cbv zeta in IH |- *.
  pose proof (find_lower [StockApp.chr 38] r) as Hl.
  set (k := StockApp.find [StockApp.chr 38] r) in *.
  assert (Hstep : Z.to_nat
                    (if (if k =? -1 then -1 else k + 1) =? -1
                     then Z.of_nat (length (c :: r))
                     else (if k =? -1 then -1 else k + 1))
                  = S (Z.to_nat (if k =? -1 then Z.of_nat (length r) else k))).
  { destruct (Z.eqb_spec k (-1)) as [Hk|Hk].
    - change (Z.to_nat (Z.of_nat (length (c :: r)))
              = S (Z.to_nat (Z.of_nat (length r)))).
      cbn [length]. lia.
    - destruct (Z.eqb_spec (k + 1) (-1)); lia. }
  rewrite Hstep. cbn [take StockApp.before StockApp.up_to_separator].
  destruct (decide (c = StockApp.chr 95)) as [Hu|Hu];
    destruct (decide (c = StockApp.chr 38 ∨ c = StockApp.chr 95))
      as [Hs|Hs]; try reflexivity.
  - exfalso. apply Hs. right. exact Hu.
  - exfalso. destruct Hs; contradiction.
  - rewrite IH. reflexivity.
Qed.

Lemma up_to_separator_clean (s : StockApp.str) :
  (StockApp.chr 38 ∉ StockApp.up_to_separator s)
  ∧ (StockApp.chr 95 ∉ StockApp.up_to_separator s).
Proof.
  induction s as [|c s [IH1 IH2]]; cbn.
  - split; apply not_elem_of_nil.
  - destruct (decide (c = StockApp.chr 38 ∨ c = StockApp.chr 95)) as [|Hn].
    + split; apply not_elem_of_nil.
    + split; apply not_elem_of_cons; split; auto.
Qed.

(** X19.  [extract_filename_from_url] never returns [None]: its test
    [start != -1] cannot fail, because [start] is at least 8.  What it
    returns is the text of the URL from [start] up to the first [&] or [_],
    where [start] is the index just after the first [fileName=] when the URL
    has one, and the index 8 when it has none.  The result holds neither [&]
    nor [_]. *)
Theorem extract_filename_from_url_spec (url : StockApp.str) :
  let k := StockApp.find (StockApp.lit "fileName=") url in
  let start := if k =? -1 then 8 else k + 9 in
  StockApp.extract_filename_from_url url
  = Some (StockApp.up_to_separator (drop (Z.to_nat start) url))
  ∧ (k ≠ -1 →
     0 ≤ k ∧ StockApp.lit "fileName=" `prefix_of` drop (Z.to_nat k) url)
  ∧ (∀ name : StockApp.str,
       StockApp.extract_filename_from_url url = Some name →
       (StockApp.chr 38 ∉ name) ∧ (StockApp.chr 95 ∉ name)).
Proof.
  intros k start.
  assert (Hk : -1 ≤ k) by apply find_lower.
  assert (Hkdef : StockApp.find (StockApp.lit "fileName=") url = k)
    by reflexivity.
  clearbody k.
  assert (Hstart : k + Z.of_nat (length (StockApp.lit "fileName=")) = start).
  { unfold start. change (Z.of_nat (length (StockApp.lit "fileName="))) with 9.
    destruct (Z.eqb_spec k (-1)) as [Hm|Hm]; [rewrite Hm|]; reflexivity. }
  assert (Hpos : 8 ≤ start).
  { unfold start. destruct (Z.eqb_spec k (-1)); lia. }
  assert (Hmain : StockApp.extract_filename_from_url url
            = Some (StockApp.up_to_separator (drop (Z.to_nat start) url))).
  { unfold StockApp.extract_filename_from_url. cbv zeta.
    rewrite Hkdef, Hstart.
    destruct (Z.eqb_spec start (-1)) as [|_]; [lia|]. cbn [negb].
    f_equal. unfold StockApp.find_from, StockApp.slice.
    change (StockApp.lit "&") with [StockApp.chr 38].
    destruct (Z.ltb_spec (Z.of_nat (length url)) start) as [Hlong|Hshort].
    - cbn [Z.eqb Pos.eqb]. rewrite !drop_ge by lia.
      rewrite take_nil. reflexivity.
    - set (r := drop (Z.to_nat start) url).
      pose proof (before_underscore_until_ampersand r) as Hcut.
      cbv zeta in Hcut. rewrite <- Hcut. f_equal. f_equal.
      pose proof (find_lower [StockApp.chr 38] r) as Hl.
      assert (Hlen : Z.of_nat (length r) = Z.of_nat (length url) - start).
      { unfold r. rewrite length_drop. lia. }
      destruct (Z.eqb_spec (StockApp.find [StockApp.chr 38] r) (-1))
        as [Hnone|Hsome].
      + cbn [Z.eqb Pos.eqb]. lia.
      + destruct (Z.eqb_spec
                    (start + StockApp.find [StockApp.chr 38] r) (-1)); lia. }
  split; [exact Hmain|]. split.
  - intros Hne. assert (H0 : 0 ≤ k) by lia.
    split; [exact H0|]. rewrite <- Hkdef in H0 |- *.
    apply find_found. exact H0.
  - intros name Hname. rewrite Hmain in Hname. injection Hname as <-.
    apply up_to_separator_clean.
Qed.

Lemma extract_filename_from_url_spec_witness :
  StockApp.find (StockApp.lit "fileName=")
    (StockApp.lit "https://x.id/get?fileName=IDX_2024.csv&t=1") ≠ -1
  ∧ StockApp.lit "fileName="
    `prefix_of` drop 17 (StockApp.lit "https://x.id/get?fileName=IDX_2024.csv&t=1")
  ∧ StockApp.extract_filename_from_url
      (StockApp.lit "https://x.id/get?fileName=IDX_2024.csv&t=1")
    = Some (StockApp.lit "IDX")
  ∧ StockApp.extract_filename_from_url (StockApp.lit "https://x.id/a/b_c")
    = Some (StockApp.lit "x.id/a/b").
Proof.
  assert (Hne : StockApp.find (StockApp.lit "fileName=")
                  (StockApp.lit "https://x.id/get?fileName=IDX_2024.csv&t=1")
                ≠ -1) by (vm_compute; discriminate).
  split; [exact Hne|]. split; [|split].
  - exact (proj2 (proj1 (proj2 (extract_filename_from_url_spec
             (StockApp.lit "https://x.id/get?fileName=IDX_2024.csv&t=1")))
             Hne)).
  - vm_compute. reflexivity.
  - vm_compute. reflexivity.
Defined.

(** ** The table of URLs *)

Lemma filter_lt_seq (m s n : nat) :
  filter (λ idx : nat, (idx < m)%nat) (seq s n) = seq s (Nat.min n (m - s)).
Proof.
  revert s. induction n as [|n IH]; intros s; [reflexivity|].
  cbn [seq]. rewrite filter_cons, IH.
  destruct (decide (s < m)%nat) as [Hlt|Hge].
  - replace (Nat.min (S n) (m - s)) with (S (Nat.min n (m - S s))) by lia.
    reflexivity.
  - replace (Nat.min n (m - S s)) with 0%nat by lia.
    replace (Nat.min (S n) (m - s)) with 0%nat by lia. reflexivity.
Qed.

Lemma page_indices_seq (self : StockApp.app) :
  StockApp.page_indices self
  = seq (StockApp.current_page self * StockApp.urls_per_page self)
      (Nat.min (StockApp.urls_per_page self)
         (StockApp.max_urls self
          - StockApp.current_page self * StockApp.urls_per_page self)).
Proof.
  unfold StockApp.page_indices. cbv zeta.
  rewrite <- filter_lt_seq. f_equal.
  change (λ i : nat,
            (StockApp.current_page self * StockApp.urls_per_page self + i)%nat)
    with (Nat.add (StockApp.current_page self * StockApp.urls_per_page self)).
  rewrite fmap_add_seq, Nat.add_0_r. reflexivity.
Qed.

Lemma lookup_total_seq (urls : list StockApp.str) (start n : nat) :
  (start + n <= length urls)%nat →
  (λ idx : nat, urls !!! idx) <$> seq start n = take n (drop start urls).
Proof.
  revert start. induction n as [|n IH]; intros start Hlen.
  { rewrite take_0. reflexivity. }
  cbn [seq fmap list_fmap].
  change (list_fmap nat StockApp.str (λ idx : nat, urls !!! idx))
    with (fmap (M:=list) (λ idx : nat, urls !!! idx)).
  rewrite IH by lia.
  destruct (lookup_lt_is_Some_2 urls start ltac:(lia)) as [url Hurl].
  rewrite (list_lookup_total_correct urls start url Hurl).
  rewrite (drop_S urls url start Hurl). reflexivity.
Qed.

(** What [create_url_entries] puts on the screen. *)
Lemma create_url_entries_shows (self : StockApp.app) :
  length (StockApp.all_urls self) = StockApp.max_urls self →
  (StockApp.current_page self * StockApp.urls_per_page self
   <= StockApp.max_urls self)%nat →
  StockApp.url_entries (StockApp.create_url_entries self)
  = take (StockApp.urls_per_page self)
      (drop (StockApp.current_page self * StockApp.urls_per_page self)
         (StockApp.all_urls self)).
Proof.
  intros Hlen Hstart. unfold StockApp.create_url_entries. cbn.
  rewrite page_indices_seq.
  set (start := (StockApp.current_page self * StockApp.urls_per_page self)%nat)
    in *.
  rewrite lookup_total_seq by lia.
  destruct (Nat.le_ge_cases (StockApp.urls_per_page self)
              (StockApp.max_urls self - start)) as [Hle|Hge].
  - rewrite Nat.min_l by exact Hle. reflexivity.
  - rewrite Nat.min_r by exact Hge.
    rewrite !take_ge; [reflexivity| |]; rewrite length_drop; lia.
Qed.

(** What the loop of [save_current_entries] writes. *)
Lemma save_entries_writes (max start : nat) (entries : list StockApp.str) :
  ∀ (i : nat) (urls : list StockApp.str),
    length urls = max →
    (start + i + length entries <= max)%nat →
    StockApp.save_entries max start i entries urls
    = take (start + i) urls ++ entries
      ++ drop (start + i + length entries) urls.
Proof.
  induction entries as [|entry rest IH]; intros i urls Hlen Hfit.
  { cbn. rewrite Nat.add_0_r, take_drop. reflexivity. }
  cbn [StockApp.save_entries length] in *.
  destruct (Nat.ltb_spec (start + i) max) as [Hlt|Hge]; [|lia].
  rewrite IH by (rewrite ?length_insert; lia).
  replace (start + S i)%nat with (S (start + i)) by lia.
  rewrite drop_insert_lt by lia.
  rewrite (take_S_r _ _ entry) by (apply list_lookup_insert_eq; lia).
  rewrite take_insert_ge by lia.
  rewrite <- app_assoc. cbn [app].
  replace (S (start + i) + length rest)%nat
    with (start + i + S (length rest))%nat by lia.
  reflexivity.
Qed.

Lemma take_then_rest {A} (n : nat) (l : list A) :
  take n l ++ drop (length (take n l)) l = l.
Proof.
  rewrite length_take.
  destruct (Nat.le_ge_cases n (length l)) as [Hle|Hge].
  - rewrite Nat.min_l by exact Hle. apply take_drop.
  - rewrite Nat.min_r by exact Hge. rewrite take_ge, drop_ge by lia.
    apply app_nil_r.
Qed.

(** Writing back what the page shows changes nothing. *)
Lemma write_back_same (urls : list StockApp.str) (start n : nat) :
  take start urls ++ take n (drop start urls)
  ++ drop (start + length (take n (drop start urls))) urls
  = urls.
Proof.
  rewrite <- drop_drop, take_then_rest. apply take_drop.
Qed.

Lemma well_formed_entries (self : StockApp.app) :
  StockApp.well_formed self →
  length (StockApp.url_entries self)
  = Nat.min (StockApp.urls_per_page self)
      (StockApp.max_urls self
       - StockApp.current_page self * StockApp.urls_per_page self).
Proof.
  intros (_ & _ & _ & Hentries & _).
  rewrite Hentries, page_indices_seq, length_seq. reflexivity.
Qed.

Lemma save_current_entries_writes (self : StockApp.app) :
  StockApp.well_formed self →
  let start :=
    (StockApp.current_page self * StockApp.urls_per_page self)%nat in
  StockApp.all_urls (StockApp.save_current_entries self)
  = take start (StockApp.all_urls self) ++ StockApp.url_entries self
    ++ drop (start + length (StockApp.url_entries self))
         (StockApp.all_urls self)
  ∧ length (StockApp.all_urls (StockApp.save_current_entries self))
    = StockApp.max_urls self.
Proof.
  intros Hwf start.
  pose proof (well_formed_entries self Hwf) as Hentries. fold start in Hentries.
  destruct Hwf as (Hlen & Hpp & Hpage & _). fold start in Hpage.
  unfold StockApp.save_current_entries. cbn. fold start.
  rewrite save_entries_writes by lia.
  rewrite Nat.add_0_r. split; [reflexivity|].
  rewrite !length_app, length_take, length_drop. lia.
Qed.

Lemma create_url_entries_well_formed (self : StockApp.app) :
  length (StockApp.all_urls self) = StockApp.max_urls self →
  (0 < StockApp.urls_per_page self)%nat →
  (StockApp.current_page self * StockApp.urls_per_page self
   < StockApp.max_urls self)%nat →
  StockApp.well_formed (StockApp.create_url_entries self).
Proof.
  intros Hlen Hpp Hpage. unfold StockApp.well_formed.
  unfold StockApp.create_url_entries, StockApp.page_indices. cbn.
  rewrite length_fmap, length_replicate. auto.
Qed.

Lemma max_pages_bound (self : StockApp.app) (page : nat) :
  (0 < StockApp.urls_per_page self)%nat →
  (page < StockApp.max_pages self
   ↔ page * StockApp.urls_per_page self < StockApp.max_urls self)%nat.
Proof.
  intros Hpp. unfold StockApp.max_pages.
  set (pp := StockApp.urls_per_page self) in *.
  set (m := StockApp.max_urls self).
  pose proof (Nat.div_mod_eq (m + pp - 1) pp) as Hdiv.
  pose proof (Nat.mod_upper_bound (m + pp - 1) pp ltac:(lia)) as Hmod.
  set (q := ((m + pp - 1) / pp)%nat) in *.
  set (r := ((m + pp - 1) mod pp)%nat) in *.
  split; intros H; nia.
Qed.

Lemma next_page_cases (self : StockApp.app) :
  StockApp.well_formed self →
  let saved := StockApp.save_current_entries self in
  StockApp.next_page self
  = (if (S (StockApp.current_page self) * StockApp.urls_per_page self
         <? StockApp.max_urls self)%nat
     then StockApp.create_url_entries
            (StockApp.set_current_page saved
               (S (StockApp.current_page self)))
     else saved).
Proof.
  intros (_ & Hpp & _) saved. unfold StockApp.next_page. fold saved. cbv zeta.
  change (StockApp.current_page saved) with (StockApp.current_page self).
  assert (Hiff : (StockApp.current_page self <? StockApp.max_pages saved - 1)%nat
                 = (S (StockApp.current_page self)
                    * StockApp.urls_per_page self
                    <? StockApp.max_urls self)%nat).
  { pose proof (max_pages_bound saved (S (StockApp.current_page self)) Hpp)
      as Hb.
    change (StockApp.urls_per_page saved) with (StockApp.urls_per_page self)
      in Hb.
    change (StockApp.max_urls saved) with (StockApp.max_urls self) in Hb.
    destruct (Nat.ltb_spec (StockApp.current_page self)
                (StockApp.max_pages saved - 1));
      destruct (Nat.ltb_spec
                  (S (StockApp.current_page self)
                   * StockApp.urls_per_page self)
                  (StockApp.max_urls self)); try reflexivity; lia. }
  rewrite Hiff. reflexivity.
Qed.

Lemma load_urls_for_editing_well_formed (loaded : list StockApp.str)
    (self : StockApp.app) :
  StockApp.well_formed self →
  StockApp.well_formed (StockApp.load_urls_for_editing loaded self).
Proof.
  intros (Hlen & Hpp & Hpage & _).
  unfold StockApp.load_urls_for_editing. cbv zeta.
  apply create_url_entries_well_formed; cbn; [|exact Hpp|lia].
  generalize (Nat.min (length loaded) (StockApp.max_urls self)) as n.
  generalize 0%nat as i.
  assert (Hrep : length (replicate (StockApp.max_urls self)
                           ([] : StockApp.str)) = StockApp.max_urls self)
    by apply length_replicate.
  revert Hrep. generalize (replicate (StockApp.max_urls self)
                             ([] : StockApp.str)) as urls.
  intros urls Hurls i n. revert i urls Hurls.
  induction n as [|n IH]; intros i urls Hurls; [exact Hurls|].
  cbn. apply IH. rewrite length_insert. exact Hurls.
Qed.

(** X20.  The table of URLs keeps its shape.  The state [__init__] builds is
    well formed: a hundred slots, ten to a page, page 0 shown with one entry
    and one tick box per slot.  [next_page], [prev_page], [clear_all] and
    [load_urls_for_editing] keep a well-formed table well formed, so the
    page shown always exists; [next_page] on the last page and [prev_page] on
    the first stay where they are. *)
Theorem table_stays_well_formed :
  StockApp.well_formed StockApp.init
  ∧ (∀ self : StockApp.app,
       StockApp.well_formed self →
       StockApp.well_formed (StockApp.next_page self)
       ∧ StockApp.well_formed (StockApp.prev_page self)
       ∧ StockApp.well_formed (StockApp.clear_all self)
       ∧ (∀ loaded : list StockApp.str,
            StockApp.well_formed
              (StockApp.load_urls_for_editing loaded self))
       ∧ (StockApp.current_page self < StockApp.max_pages self)%nat
       ∧ (StockApp.max_urls self
          <= S (StockApp.current_page self) * StockApp.urls_per_page self →
          StockApp.current_page (StockApp.next_page self)
          = StockApp.current_page self)%nat
       ∧ (StockApp.current_page self = 0%nat →
          StockApp.current_page (StockApp.prev_page self) = 0%nat)).
Proof.
  split.
  { unfold StockApp.init. apply create_url_entries_well_formed; cbn; lia. }
  intros self Hwf.
  pose proof (save_current_entries_writes self Hwf) as [_ Hsaved].
  pose proof (next_page_cases self Hwf) as Hnext. cbv zeta in Hnext.
  assert (Hwf' := Hwf). destruct Hwf' as (Hlen & Hpp & Hpage & He & Hc).
  assert (Hsaved_wf : StockApp.well_formed (StockApp.save_current_entries self)).
  { unfold StockApp.well_formed. rewrite Hsaved.
    unfold StockApp.save_current_entries, StockApp.page_indices in *. cbn.
    auto. }
  split; [|split; [|split; [|split; [|split; [|split]]]]].
  - rewrite Hnext.
    destruct (Nat.ltb_spec
                (S (StockApp.current_page self) * StockApp.urls_per_page self)
                (StockApp.max_urls self)); [|exact Hsaved_wf].
    apply create_url_entries_well_formed; cbn; auto.
  - unfold StockApp.prev_page. cbv zeta.
    change (StockApp.current_page (StockApp.save_current_entries self))
      with (StockApp.current_page self).
    destruct (Nat.ltb_spec 0 (StockApp.current_page self)); [|exact Hsaved_wf].
    apply create_url_entries_well_formed; cbn; auto.
    unfold StockApp.save_current_entries. cbn. nia.
  - unfold StockApp.clear_all.
    apply create_url_entries_well_formed; cbn;
      [apply length_replicate|exact Hpp|exact Hpage].
  - intros loaded. apply load_urls_for_editing_well_formed. exact Hwf.
  - apply max_pages_bound; assumption.
  - intros Hlast. rewrite Hnext.
    destruct (Nat.ltb_spec
                (S (StockApp.current_page self) * StockApp.urls_per_page self)
                (StockApp.max_urls self)); [lia|reflexivity].
  - intros Hfirst. unfold StockApp.prev_page. cbv zeta.
    change (StockApp.current_page (StockApp.save_current_entries self))
      with (StockApp.current_page self).
    rewrite Hfirst. cbn [Nat.ltb Nat.leb]. exact Hfirst.
Qed.

Lemma table_stays_well_formed_witness :
  StockApp.well_formed StockApp.init
  ∧ StockApp.well_formed (StockApp.next_page StockApp.init)
  ∧ StockApp.current_page (StockApp.next_page StockApp.init) = 1%nat
  ∧ StockApp.current_page
      (Nat.iter 12 StockApp.next_page StockApp.init) = 9%nat.
Proof.
  assert (H0 : StockApp.well_formed StockApp.init)
    by apply (proj1 table_stays_well_formed).
  split; [exact H0|]. split; [|split; vm_compute; reflexivity].
  exact (proj1 (proj2 table_stays_well_formed StockApp.init H0)).
Defined.

Lemma drop_start_of_kept (urls : list StockApp.str) (start : nat)
    (texts rest : list StockApp.str) :
  (start <= length urls)%nat →
  drop start (take start urls ++ texts ++ rest) = texts ++ rest.
Proof.
  intros Hle. rewrite drop_app_length'; [reflexivity|].
  rewrite length_take. lia.
Qed.

(** X21.  Turning pages loses nothing that was typed.  Whatever texts the
    entries of the page hold when [next_page] or [prev_page] is called, the
    call stores them in the slots of that page and leaves all other slots as
    they were; and going to the next page and back shows the same texts on
    the same page again. *)
Theorem paging_keeps_what_was_typed (self : StockApp.app)
    (texts : list StockApp.str) :
  StockApp.well_formed self →
  length texts = length (StockApp.url_entries self) →
  let typed := StockApp.set_widgets self texts (StockApp.checkbox_vars self) in
  let start :=
    (StockApp.current_page self * StockApp.urls_per_page self)%nat in
  let kept :=
    take start (StockApp.all_urls self) ++ texts
    ++ drop (start + length texts) (StockApp.all_urls self) in
  StockApp.all_urls (StockApp.next_page typed) = kept
  ∧ StockApp.all_urls (StockApp.prev_page typed) = kept
  ∧ ((S (StockApp.current_page self) * StockApp.urls_per_page self
      < StockApp.max_urls self)%nat →
     let back := StockApp.prev_page (StockApp.next_page typed) in
     StockApp.current_page back = StockApp.current_page self
     ∧ StockApp.url_entries back = texts
     ∧ StockApp.all_urls back = kept).
Proof.
  intros Hwf Htexts typed start kept.
  assert (Hwf_typed : StockApp.well_formed typed).
  { destruct Hwf as (Hlen & Hpp & Hpage & He & Hc).
    unfold StockApp.well_formed, typed, StockApp.page_indices in *. cbn.
    repeat split; auto. congruence. }
  pose proof (save_current_entries_writes typed Hwf_typed) as [Hsaved Hslen].
  cbv zeta in Hsaved.
  change (StockApp.all_urls typed) with (StockApp.all_urls self) in Hsaved.
  change (StockApp.url_entries typed) with texts in Hsaved.
  change (StockApp.current_page typed * StockApp.urls_per_page typed)%nat
    with start in Hsaved.
  fold kept in Hsaved.
  change (StockApp.max_urls typed) with (StockApp.max_urls self) in Hslen.
  pose proof (next_page_cases typed Hwf_typed) as Hnext. cbv zeta in Hnext.
  change (StockApp.current_page typed) with (StockApp.current_page self)
    in Hnext.
  change (StockApp.urls_per_page typed) with (StockApp.urls_per_page self)
    in Hnext.
  change (StockApp.max_urls typed) with (StockApp.max_urls self) in Hnext.
  assert (Hnext_urls : StockApp.all_urls (StockApp.next_page typed) = kept).
  { rewrite Hnext. destruct (_ <? _)%nat; exact Hsaved. }
  split; [exact Hnext_urls|]. split.
  - unfold StockApp.prev_page. cbv zeta.
    destruct (0 <? StockApp.current_page _)%nat; exact Hsaved.
  - intros Hroom back.
    destruct Hwf as (Hlen & Hpp & Hpage & He & Hc). fold start in Hpage.
    assert (Hfull : length texts = StockApp.urls_per_page self).
    { rewrite Htexts, He, page_indices_seq, length_seq. fold start. lia. }
    assert (Hmoved : StockApp.next_page typed
              = StockApp.create_url_entries
                  (StockApp.set_current_page
                     (StockApp.save_current_entries typed)
                     (S (StockApp.current_page self)))).
    { rewrite Hnext.
      destruct (Nat.ltb_spec
                  (S (StockApp.current_page self)
                   * StockApp.urls_per_page self) (StockApp.max_urls self));
        [reflexivity|lia]. }
    set (there := StockApp.next_page typed) in *.
    assert (Hthere_wf : StockApp.well_formed there).
    { rewrite Hmoved. apply create_url_entries_well_formed; cbn; auto. }
    assert (Hthere_entries : StockApp.url_entries there
              = take (StockApp.urls_per_page self)
                  (drop (S (StockApp.current_page self)
                         * StockApp.urls_per_page self) kept)).
    { rewrite Hmoved, <- Hsaved.
      apply create_url_entries_shows;
        [exact Hslen|apply Nat.lt_le_incl; exact Hroom]. }
    assert (Hthere_page : StockApp.current_page there
                          = S (StockApp.current_page self))
      by (rewrite Hmoved; reflexivity).
    pose proof (save_current_entries_writes there Hthere_wf)
      as [Hback_urls Hback_len].
    cbv zeta in Hback_urls.
    rewrite Hthere_entries, Hnext_urls, Hthere_page in Hback_urls.
    assert (Hpp_there : StockApp.urls_per_page there
                        = StockApp.urls_per_page self)
      by (rewrite Hmoved; reflexivity).
    assert (Hmax_there : StockApp.max_urls there = StockApp.max_urls self)
      by (rewrite Hmoved; reflexivity).
    rewrite Hpp_there, write_back_same in Hback_urls.
    assert (Hback : back
              = StockApp.create_url_entries
                  (StockApp.set_current_page
                     (StockApp.save_current_entries there)
                     (StockApp.current_page self))).
    { unfold back, StockApp.prev_page. cbv zeta.
      change (StockApp.current_page (StockApp.save_current_entries there))
        with (StockApp.current_page there).
      rewrite Hthere_page. cbn [Nat.ltb Nat.leb Nat.sub].
      rewrite Nat.sub_0_r. reflexivity. }
    split; [rewrite Hback; reflexivity|]. split.
    + assert (Hshow : StockApp.url_entries back
                = take (StockApp.urls_per_page there)
                    (drop (StockApp.current_page self
                           * StockApp.urls_per_page there)
                       (StockApp.all_urls
                          (StockApp.save_current_entries there)))).
      { rewrite Hback.
        assert (Hroom_back : (StockApp.current_page self
                              * StockApp.urls_per_page there
                              <= StockApp.max_urls there)%nat).
        { rewrite Hpp_there, Hmax_there. fold start. lia. }
        exact (create_url_entries_shows
                 (StockApp.set_current_page
                    (StockApp.save_current_entries there)
                    (StockApp.current_page self)) Hback_len Hroom_back). }
      rewrite Hshow, Hpp_there, Hback_urls. fold start. unfold kept.
      rewrite drop_start_of_kept by lia.
      rewrite take_app_length' by (symmetry; exact Hfull). reflexivity.
    + rewrite Hback. exact Hback_urls.
Qed.

Lemma paging_keeps_what_was_typed_witness :
  let a := StockApp.lit "https://a" in
  let b := StockApp.lit "https://b" in
  let texts := [a; b; []; []; []; []; []; []; []; []] in
  let typed :=
    StockApp.set_widgets StockApp.init texts
      (StockApp.checkbox_vars StockApp.init) in
  length texts = length (StockApp.url_entries StockApp.init)
  ∧ take 3 (StockApp.all_urls (StockApp.next_page typed)) = [a; b; []]
  ∧ StockApp.url_entries (StockApp.next_page typed) = replicate 10 []
  ∧ StockApp.url_entries (StockApp.prev_page (StockApp.next_page typed))
    = texts.
Proof.
  intros a b texts typed.
  assert (H0 : StockApp.well_formed StockApp.init).
  { apply create_url_entries_well_formed; cbn; lia. }
  assert (Hlen : length texts = length (StockApp.url_entries StockApp.init))
    by reflexivity.
  assert (Hroom : (S (StockApp.current_page StockApp.init)
                   * StockApp.urls_per_page StockApp.init
                   < StockApp.max_urls StockApp.init)%nat)
    by (vm_compute; lia).
  split; [exact Hlen|]. split; [vm_compute; reflexivity|].
  split; [vm_compute; reflexivity|].
  exact (proj1 (proj2 (proj2 (proj2
           (paging_keeps_what_was_typed StockApp.init texts H0 Hlen)) Hroom))).
Defined.

Lemma copy_loaded_writes (loaded : list StockApp.str) (n : nat) :
  ∀ (i : nat) (urls : list StockApp.str),
    (i + n <= length loaded)%nat →
    (i + n <= length urls)%nat →
    StockApp.copy_loaded i loaded n urls
    = take i urls ++ take n (drop i loaded) ++ drop (i + n) urls.
Proof.
  induction n as [|n IH]; intros i urls Hloaded Hurls.
  { cbn [StockApp.copy_loaded]. rewrite take_0, Nat.add_0_r. cbn [app].
    rewrite take_drop. reflexivity. }
  cbn [StockApp.copy_loaded].
  rewrite IH by (rewrite ?length_insert; lia).
  destruct (lookup_lt_is_Some_2 loaded i ltac:(lia)) as [url Hurl].
  rewrite (list_lookup_total_correct loaded i url Hurl).
  rewrite drop_insert_lt by lia.
  rewrite (take_S_r _ _ url) by (apply list_lookup_insert_eq; lia).
  rewrite take_insert_ge by lia.
  rewrite (drop_S loaded url i Hurl). cbn [take].
  rewrite <- app_assoc. cbn [app].
  replace (S i + n)%nat with (i + S n)%nat by lia. reflexivity.
Qed.

Lemma filter_nonempty_replicate (n : nat) :
  filter (λ url : StockApp.str, url ≠ []) (replicate n []) = [].
Proof.
  induction n as [|n IH]; [reflexivity|].
  cbn [replicate]. rewrite filter_cons.
  destruct (decide (([] : StockApp.str) ≠ [])); [contradiction|exact IH].
Qed.

(** X22.  [load_urls_for_editing] fills the table from the front: the first
    [max_urls] of the loaded URLs go into the first slots in their order,
    the remaining slots are empty, any URL beyond the hundredth is dropped,
    and the first page is shown.  [download_data] right after it downloads
    the non-empty ones among those first [max_urls] URLs, in order. *)
Theorem load_urls_for_editing_fills_table (loaded : list StockApp.str)
    (self : StockApp.app) :
  StockApp.well_formed self →
  let shown := StockApp.load_urls_for_editing loaded self in
  StockApp.all_urls shown
  = take (StockApp.max_urls self) loaded
    ++ replicate (StockApp.max_urls self - length loaded) []
  ∧ StockApp.current_page shown = 0%nat
  ∧ StockApp.url_entries shown
    = take (StockApp.urls_per_page self) (StockApp.all_urls shown)
  ∧ StockApp.urls_to_download shown
    = filter (λ url : StockApp.str, url ≠ [])
        (take (StockApp.max_urls self) loaded).
Proof.
  intros Hwf shown.
  pose proof (load_urls_for_editing_well_formed loaded self Hwf)
    as Hshown_wf.
  fold shown in Hshown_wf.
  destruct Hwf as (Hlen & Hpp & Hpage & _).
  set (m := StockApp.max_urls self) in *.
  assert (Hurls : StockApp.all_urls shown
            = take m loaded ++ replicate (m - length loaded) []).
  { unfold shown, StockApp.load_urls_for_editing. cbn. fold m.
    rewrite copy_loaded_writes by (rewrite ?length_replicate; lia).
    rewrite take_0, drop_0. cbn [app].
    rewrite drop_replicate.
    destruct (Nat.le_ge_cases (length loaded) m) as [Hle|Hge].
    - rewrite Nat.min_l by exact Hle.
      rewrite (take_ge loaded m) by exact Hle.
      rewrite take_ge by lia. rewrite Nat.add_0_l. reflexivity.
    - rewrite Nat.min_r by exact Hge.
      replace (m - (0 + m))%nat with 0%nat by lia.
      replace (m - length loaded)%nat with 0%nat by lia. reflexivity. }
  assert (Hentries : StockApp.url_entries shown
            = take (StockApp.urls_per_page self) (StockApp.all_urls shown)).
  { unfold shown, StockApp.load_urls_for_editing. cbv zeta.
    rewrite create_url_entries_shows.
    - reflexivity.
    - destruct Hshown_wf as (Hl & _). exact Hl.
    - cbn. lia. }
  split; [exact Hurls|]. split; [reflexivity|]. split; [exact Hentries|].
  unfold StockApp.urls_to_download. cbv zeta.
  pose proof (save_current_entries_writes shown Hshown_wf) as [Hsaved _].
  cbv zeta in Hsaved. rewrite Hsaved.
  change (StockApp.current_page shown) with 0%nat. rewrite Nat.mul_0_l.
  rewrite Hentries.
  change (StockApp.urls_per_page self) with (StockApp.urls_per_page shown).
  pose proof (write_back_same (StockApp.all_urls shown) 0
                (StockApp.urls_per_page shown)) as Hsame.
  rewrite drop_0 in Hsame. rewrite Hsame, Hurls.
  rewrite filter_app, filter_nonempty_replicate. apply app_nil_r.
Qed.

Lemma load_urls_for_editing_fills_table_witness :
  let a := StockApp.lit "https://a" in
  let b := StockApp.lit "https://b" in
  let shown := StockApp.load_urls_for_editing [a; []; b] StockApp.init in
  StockApp.all_urls shown = [a; []; b] ++ replicate 97 []
  ∧ StockApp.urls_to_download shown = [a; b]
  ∧ length (StockApp.all_urls
              (StockApp.load_urls_for_editing (replicate 130 a)
                 StockApp.init)) = 100%nat.
Proof.
  intros a b shown.
  assert (H0 : StockApp.well_formed StockApp.init).
  { apply create_url_entries_well_formed; cbn; lia. }
  destruct (load_urls_for_editing_fills_table [a; []; b] StockApp.init H0)
    as (Hurls & _ & _ & Hdown).
  split; [exact Hurls|]. split; [|vm_compute; reflexivity].
  fold shown in Hdown. rewrite Hdown. vm_compute.
  repeat (rewrite filter_cons; destruct (decide _) as [Hd|Hd];
          [|try (exfalso; apply Hd; discriminate)]);
    try (exfalso; apply Hd; reflexivity).
  reflexivity.
Defined.
